(** * markdown-folder-converter: a shallow embedding of [convert.ts]

    The repository ships three variants of [convert.ts] (a Markdown
    converter for .docx and .pptx, a .docx-only converter, and a converter
    that renders .pptx as an HTML slide viewer) and a VitePress
    configuration that builds its sidebar with [buildSidebarItems].

    Modelling conventions.

    - A JavaScript string is a [string]: the sequence of the bytes of its
      UTF-8 encoding.  Every character the code tests for (the path
      separator, the line feed, digits, the dot, quotes) is ASCII, so
      splitting, joining and prefix tests act on bytes as they act on
      UTF-16 code units.  White space is recognised as the UTF-8 encodings
      of the ECMAScript white-space and line-terminator code points.
    - A value of type [unknown] / [XmlNode] (what [xml2js] returns) is a
      [JsVal]: a string, an array or an object with string keys.  There is
      no [null] in such a tree; [undefined] is [None].
    - A JavaScript number that the code obtains from [parseInt] is an
      integer or NaN: [option Z], exact (no rounding above 2^53), except
      where the code orders by it: the slide numbers that the sort
      compares are rounded to IEEE 754 doubles ([Js.toNumber]).  The
      floating-point percentages of [getTransform] are kept as symbolic
      quotients.
    - An object used as a dictionary ([rels], [mediaCache], the table of
      [getMimeType]) is a [gmap] or a list of its own properties; a read
      that finds no own property falls back on the members of
      [Object.prototype] ([dictGet]), and an assignment to [__proto__]
      creates no property ([dictSet]).
    - The file system is a tree of directories and files; a path is the
      list of its segments from the root (POSIX separators).
    - A thrown exception is [Throw]; the external libraries (mammoth,
      turndown, JSZip's decoders, xml2js's parser) are parameters. *)

From Stdlib Require Import ZArith List Ascii String Lia Permutation Sorted DecimalString DecimalNat.
From stdpp Require Import gmap strings sorting.
Import ListNotations.

Set Warnings "-register-all".

(* [simpl] unfolds [String.append] on a constructor, as in the Standard Library *)
#[local] Arguments String.append !s1 s2 : simpl nomatch.

(** ** Results of code that may throw *)

Inductive result (A : Type) : Type :=
| Ok (a : A)
| Throw (msg : string).
Arguments Ok {A} a.
Arguments Throw {A} msg.

Definition rbind {A B} (r : result A) (k : A -> result B) : result B :=
  match r with
  | Ok a => k a
  | Throw e => Throw e
  end.

Notation "'let*' x ':=' r 'in' k" := (rbind r (fun x => k))
  (at level 10, x pattern, r at level 100, k at level 200).

Fixpoint mapM {A B} (f : A -> result B) (l : list A) : result (list B) :=
  match l with
  | [] => Ok []
  | x :: xs => let* y := f x in let* ys := mapM f xs in Ok (y :: ys)
  end.

(** ** JavaScript string primitives *)

Module Js.

Definition chr (c : ascii) : string := String c "".
Definition LF : ascii := "010"%char.
Definition nl : string := chr LF.

(** [s.split(c)] for a one-character separator: never the empty list. *)
Fixpoint split (c : ascii) (s : string) : list string :=
  match s with
  | EmptyString => [EmptyString]
  | String a s' =>
      if Ascii.eqb a c then EmptyString :: split c s'
      else match split c s' with
           | h :: t => String a h :: t
           | [] => [chr a]
           end
  end.

(** [l.join(sep)] *)
Definition join (sep : string) (l : list string) : string := String.concat sep l.

(** [l.slice(0, -1)] *)
Definition slice_0_m1 {A} (l : list A) : list A := removelast l.

Definition startsWith (s p : string) : bool := String.prefix p s.

Fixpoint rev_string (s : string) : string :=
  match s with
  | EmptyString => EmptyString
  | String a s' => (rev_string s' +:+ chr a)%string
  end.

Definition endsWith (s p : string) : bool :=
  String.prefix (rev_string p) (rev_string s).

Fixpoint drop (n : nat) (s : string) : string :=
  match n, s with
  | O, _ => s
  | S n', String _ s' => drop n' s'
  | S _, EmptyString => EmptyString
  end.

Definition take (n : nat) (s : string) : string := String.substring 0 n s.

(** [s.repeat(n)] for a count that is already a natural number *)
Fixpoint repeat (s : string) (n : nat) : string :=
  match n with
  | O => EmptyString
  | S n' => (s +:+ repeat s n')%string
  end.

(** [s.replace(/c/g, r)] for a one-character pattern *)
Fixpoint replaceChar (c : ascii) (r : string) (s : string) : string :=
  match s with
  | EmptyString => EmptyString
  | String a s' =>
      if Ascii.eqb a c then (r +:+ replaceChar c r s')%string
      else String a (replaceChar c r s')
  end.

Definition isDigit (a : ascii) : bool :=
  let n := nat_of_ascii a in (48 <=? n)%nat && (n <=? 57)%nat.

Definition digitVal (a : ascii) : Z := (Z.of_nat (nat_of_ascii a) - 48)%Z.

(** the longest prefix of digits, and the rest *)
Fixpoint spanDigits (s : string) : string * string :=
  match s with
  | String a s' =>
      if isDigit a then let '(d, r) := spanDigits s' in (String a d, r)
      else (EmptyString, s)
  | EmptyString => (EmptyString, EmptyString)
  end.

Fixpoint digitsValue (acc : Z) (s : string) : Z :=
  match s with
  | EmptyString => acc
  | String a s' => digitsValue (10 * acc + digitVal a)%Z s'
  end.

(** Length in bytes of the white-space or line-terminator code point at
    the head of [s], 0 when there is none: U+0009..U+000D, U+0020, U+00A0,
    U+1680, U+2000..U+200A, U+2028, U+2029, U+202F, U+205F, U+3000,
    U+FEFF. *)
Definition wsLen (s : string) : nat :=
  match s with
  | EmptyString => 0
  | String a r =>
      let n := nat_of_ascii a in
      if ((9 <=? n) && (n <=? 13) || (n =? 32))%nat then 1
      else match r with
           | String b r' =>
               let m := nat_of_ascii b in
               if ((n =? 194) && (m =? 160))%nat then 2
               else match r' with
                    | String c _ =>
                        let k := nat_of_ascii c in
                        if ((n =? 225) && (m =? 154) && (k =? 128))%nat then 3
                        else if ((n =? 226) && (m =? 128) &&
                                 ((128 <=? k) && (k <=? 138) || (k =? 168) ||
                                  (k =? 169) || (k =? 175)))%nat then 3
                        else if ((n =? 226) && (m =? 129) && (k =? 159))%nat then 3
                        else if ((n =? 227) && (m =? 128) && (k =? 128))%nat then 3
                        else if ((n =? 239) && (m =? 187) && (k =? 191))%nat then 3
                        else 0
                    | EmptyString => 0
                    end
           | EmptyString => 0
           end
  end.

Fixpoint trimStartFuel (fuel : nat) (s : string) : string :=
  match fuel with
  | O => s
  | S fuel' =>
      match wsLen s with
      | O => s
      | k => trimStartFuel fuel' (drop k s)
      end
  end.

(** [s.trimStart()] *)
Definition trimStart (s : string) : string := trimStartFuel (String.length s) s.

(** [!s.trim()]: the string is empty once its white space is trimmed.
    Trimming the end cannot empty a string that starts with a character
    that is not white space. *)
Definition isBlank (s : string) : bool := String.eqb (trimStart s) "".

(** [parseInt(s, 10)] : leading white space, an optional sign, then the
    longest run of decimal digits; NaN ([None]) without a digit. *)
Definition parseInt10 (s : string) : option Z :=
  let t := trimStart s in
  let '(neg, u) :=
    match t with
    | String "-" r => (true, r)
    | String "+" r => (false, r)
    | _ => (false, t)
    end in
  let '(d, _) := spanDigits u in
  match d with
  | EmptyString => None
  | _ => Some (if neg : bool then (- digitsValue 0 d)%Z else digitsValue 0 d)
  end.

(** The Number that an integer [z >= 0] denotes: the nearest IEEE 754
    double, ties to even, as the integer it is; an integer below 2^53 is
    a double.  The infinity that the integers from 2^1024 - 2^970 round
    to stands as 2^1024: the code only takes the sign of a difference of
    such numbers, and the NaN of [Infinity - Infinity] counts as 0 in a
    sort. *)
Definition toNumber (z : Z) : Z :=
  if (z <? 2 ^ 53)%Z then z
  else
    let e := (Z.log2 z - 52)%Z in
    let q := (z / 2 ^ e)%Z in
    let r := (z mod 2 ^ e)%Z in
    let half := (2 ^ (e - 1))%Z in
    let q' := if (half <? r)%Z || ((r =? half)%Z && Z.odd q) then (q + 1)%Z else q in
    Z.min (q' * 2 ^ e) (2 ^ 1024).

(** [String(n)] for a natural number *)
Definition natToString (n : nat) : string :=
  NilZero.string_of_uint (Nat.to_uint n).

Definition lowerChar (a : ascii) : ascii :=
  let n := nat_of_ascii a in
  if ((65 <=? n) && (n <=? 90))%nat then ascii_of_nat (n + 32) else a.

(** [s.toLowerCase()] on the ASCII letters; the bytes of the other
    characters stay (U+0130 and U+212A, whose lower case holds an ASCII
    letter, are outside the model) *)
Fixpoint toLowerCase (s : string) : string :=
  match s with
  | EmptyString => EmptyString
  | String a s' => String (lowerChar a) (toLowerCase s')
  end.

End Js.

(** ** Path Resolver (HTML-viewer variant) *)

Definition resolveStep (result : list string) (p : string) : list string :=
  if String.eqb p ".." then removelast result
  else if negb (String.eqb p ".") then result ++ [p]
  else result.

(** [resolveZipPath(fromKey, target)] *)
Definition resolveZipPath (fromKey target : string) : string :=
  let dir := Js.join "/" (Js.slice_0_m1 (Js.split "/" fromKey)) in
  let parts := Js.split "/" (dir +:+ "/" +:+ target)%string in
  let result := fold_left resolveStep parts [] in
  Js.join "/" result.


(** ** Values of a parsed XML document *)

Inductive JsVal : Type :=
| JStr (s : string)
| JArr (items : list JsVal)
| JObj (fields : list (string * JsVal)).

(** the first binding of a key in an ordered list of bindings *)
Fixpoint assoc {V} (k : string) (l : list (string * V)) : option V :=
  match l with
  | [] => None
  | (k', v) :: l' => if String.eqb k k' then Some v else assoc k l'
  end.

(** [v[k]] for a key that is neither an index nor a built-in property *)
Definition prop (v : JsVal) (k : string) : option JsVal :=
  match v with
  | JObj fields => assoc k fields
  | _ => None
  end.

(** [o?.[k]] *)
Definition oprop (o : option JsVal) (k : string) : option JsVal :=
  match o with
  | Some v => prop v k
  | None => None
  end.

(** [v[0]] *)
Definition index0 (v : JsVal) : option JsVal :=
  match v with
  | JArr items => head items
  | JStr (String a _) => Some (JStr (Js.chr a))
  | JStr EmptyString => None
  | JObj fields => assoc "0" fields
  end.

Definition truthy (v : JsVal) : bool :=
  match v with
  | JStr EmptyString => false
  | _ => true
  end.

Definition otruthy (o : option JsVal) : bool :=
  match o with
  | Some v => truthy v
  | None => false
  end.

(** [([] as unknown[]).concat(o ?? [])] *)
Definition concatArr (o : option JsVal) : list JsVal :=
  match o with
  | None => []
  | Some (JArr items) => items
  | Some v => [v]
  end.

(** [String(v)] *)
Fixpoint toStr (v : JsVal) : string :=
  match v with
  | JStr s => s
  | JArr items => Js.join "," (map toStr items)
  | JObj _ => "[object Object]"
  end.

(** [v === lit] for a string literal *)
Definition strictEq (o : option JsVal) (lit : string) : bool :=
  match o with
  | Some (JStr s) => String.eqb s lit
  | _ => false
  end.

(** [parseInt(o, 10)] *)
Definition parseIntVal (o : option JsVal) : option Z :=
  match o with
  | Some v => Js.parseInt10 (toStr v)
  | None => None
  end.

(** [Array.isArray(cur) ? cur[0] : cur] *)
Definition unwrapArr (cur : option JsVal) : option JsVal :=
  match cur with
  | Some (JArr items) => head items
  | _ => cur
  end.

Definition getStep (cur : option JsVal) (k : string) : option JsVal :=
  match cur with
  | None => None
  | Some _ => oprop (unwrapArr cur) k
  end.

(** [get(obj, ...keys)] *)
Definition get (obj : JsVal) (keys : list string) : option JsVal :=
  unwrapArr (fold_left getStep keys (Some obj)).

(** [findAll(obj, targetKey)]: the values bound to [targetKey] anywhere
    in the tree, in the order of the traversal; the search does not go
    below a binding of [targetKey]. *)
Fixpoint findAll (node : JsVal) (targetKey : string) : list JsVal :=
  match node with
  | JStr _ => []
  | JArr items => flat_map (fun n => findAll n targetKey) items
  | JObj fields =>
      flat_map (fun kv : string * JsVal =>
                  if String.eqb (fst kv) targetKey then concatArr (Some (snd kv))
                  else findAll (snd kv) targetKey) fields
  end.

(** ** .pptx → Markdown (Markdown variant) *)

Record ParsedParagraph := { text : string; level : option Z }.

(** the text of one [a:t] node *)
Definition tText (t : JsVal) : string :=
  match t with
  | JStr s => s
  | _ => match prop t "_" with
         | Some v => toStr v
         | None => ""
         end
  end.

Definition runText (run : JsVal) : string :=
  Js.join "" (map tText (concatArr (prop run "a:t"))).

(** [parseParagraph(para)] *)
Definition parseParagraph (para : JsVal) : ParsedParagraph :=
  match para with
  | JStr _ => {| text := ""; level := Some 0%Z |}
  | _ =>
      let pPr := get para ["a:pPr"] in
      let lvl := oprop (oprop pPr "$") "lvl" in
      let level := if otruthy lvl then parseIntVal lvl else Some 0%Z in
      let runs := concatArr (prop para "a:r") ++ concatArr (prop para "a:fld") in
      {| text := Js.join "" (map runText runs); level := level |}
  end.

(** ['  '.repeat(level)]: NaN counts as 0, a negative count throws. *)
Definition repeatIndent (level : option Z) : result string :=
  match level with
  | None => Ok ""
  | Some z =>
      if (z <? 0)%Z then Throw "RangeError: Invalid count value"
      else Ok (Js.repeat "  " (Z.to_nat z))
  end.

(** the pending run of [run] line feeds, as [/\n{3,}/ -> '\n\n'] leaves it *)
Definition flushNewlines (run : nat) : string :=
  if (3 <=? run)%nat then (Js.nl +:+ Js.nl)%string else Js.repeat Js.nl run.

Fixpoint collapseFrom (run : nat) (s : string) : string :=
  match s with
  | EmptyString => flushNewlines run
  | String a s' =>
      if Ascii.eqb a Js.LF then collapseFrom (S run) s'
      else (flushNewlines run +:+ String a (collapseFrom 0 s'))%string
  end.

(** [s.replace(/\n{3,}/g, '\n\n')] *)
Definition collapseNewlines (s : string) : string := collapseFrom 0 s.

(** the line pushed for one paragraph *)
Definition paragraphLine (para : JsVal) : result string :=
  let p := parseParagraph para in
  if Js.isBlank (text p) then Ok ""
  else
    let* indent := repeatIndent (level p) in
    Ok (indent +:+ "- " +:+ text p)%string.

(** [paragraphsToMarkdown(paragraphs)] *)
Definition paragraphsToMarkdown (paragraphs : list JsVal) : result string :=
  let* lines := mapM paragraphLine paragraphs in
  Ok (collapseNewlines (Js.join Js.nl lines)).

Record SlideData := { title : string; bodyBlocks : list string }.

Definition nonEmpty (s : string) : bool := negb (String.eqb s "").

(** [paragraphs.map(p => parseParagraph(p).text).filter(Boolean)] *)
Definition shapeTexts (paragraphs : list JsVal) : list string :=
  List.filter nonEmpty (map (fun p => text (parseParagraph p)) paragraphs).

Definition phTypeOf (sp : JsVal) : option JsVal :=
  oprop (oprop (get sp ["p:nvSpPr"; "p:nvPr"; "p:ph"]) "$") "type".

Definition isTitleType (phType : option JsVal) : bool :=
  strictEq phType "title" || strictEq phType "ctrTitle" || strictEq phType "subTitle".

(** one turn of the loop over the shapes of [parseSlideDoc] *)
Definition slideDocStep (acc : SlideData) (sp : JsVal) : result SlideData :=
  let phType := phTypeOf sp in
  let txBody := get sp ["p:txBody"] in
  match txBody with
  | None => Ok acc
  | Some tx =>
    if negb (truthy tx) then Ok acc
    else
      let paragraphs := concatArr (prop tx "a:p") in
      let texts := shapeTexts paragraphs in
      match texts with
      | [] => Ok acc
      | _ =>
        if isTitleType phType && negb (nonEmpty (title acc)) then
          Ok {| title := Js.join " " texts; bodyBlocks := bodyBlocks acc |}
        else
          let* block := paragraphsToMarkdown paragraphs in
          if negb (Js.isBlank block)
          then Ok {| title := title acc; bodyBlocks := bodyBlocks acc ++ [block] |}
          else Ok acc
      end
  end.

Fixpoint foldM {A S} (f : S -> A -> result S) (l : list A) (s : S) : result S :=
  match l with
  | [] => Ok s
  | x :: xs => let* s' := f s x in foldM f xs s'
  end.

(** the loop of [parseSlideDoc] over the shapes *)
Definition parseShapes (shapes : list JsVal) : result SlideData :=
  foldM slideDocStep shapes {| title := ""; bodyBlocks := [] |}.

(** [parseSlideDoc(slideDoc)] *)
Definition parseSlideDoc (slideDoc : JsVal) : result SlideData :=
  match get slideDoc ["p:sld"; "p:cSld"; "p:spTree"] with
  | None => Ok {| title := ""; bodyBlocks := [] |}
  | Some spTree =>
      if negb (truthy spTree) then Ok {| title := ""; bodyBlocks := [] |}
      else parseShapes (concatArr (prop spTree "p:sp"))
  end.

(** the note lines that one shape of a notes slide contributes *)
Definition notesOfShape (sp : JsVal) : list string :=
  let ph := get sp ["p:nvSpPr"; "p:nvPr"; "p:ph"] in
  if negb (strictEq (oprop (oprop ph "$") "idx") "1") then []
  else match get sp ["p:txBody"] with
       | None => []
       | Some tx =>
           if negb (truthy tx) then []
           else List.filter (fun t => negb (Js.isBlank t))
                  (map (fun p => text (parseParagraph p)) (concatArr (prop tx "a:p")))
       end.

(** [parseNotesDoc(notesDoc)] *)
Definition parseNotesDoc (notesDoc : JsVal) : string :=
  match get notesDoc ["p:notes"; "p:cSld"; "p:spTree"] with
  | None => ""
  | Some spTree =>
      if negb (truthy spTree) then ""
      else Js.join Js.nl (flat_map notesOfShape (concatArr (prop spTree "p:sp")))
  end.

(** ** The slide package *)

(** What JSZip gives for one entry: the [dir] flag and the decodings
    [async('string')] and [async('base64')]. *)
Record ZipObject := { zdir : bool; asString : string; asBase64 : string }.

(** [zip.files], in the order of [Object.keys]; the keys of an object are
    distinct, and a lookup takes the first binding of a key *)
Definition Zip := list (string * ZipObject).

Definition zipKeys (zip : Zip) : list string := map fst zip.

(** [/^ppt\/slides\/slide\d+\.xml$/.test(f)] *)
Definition isSlideKey (f : string) : bool :=
  let pre := "ppt/slides/slide"%string in
  Js.startsWith f pre &&
  (let '(d, r) := Js.spanDigits (Js.drop (String.length pre) f) in
   nonEmpty d && String.eqb r ".xml").

(** [key.match(/slide(\d+)/)]: the digits captured by the leftmost match *)
Fixpoint matchSlideDigits (key : string) : option string :=
  match key with
  | EmptyString => None
  | String _ key' =>
      if Js.startsWith key "slide" then
        let '(d, _) := Js.spanDigits (Js.drop 5 key) in
        if nonEmpty d then Some d else matchSlideDigits key'
      else matchSlideDigits key'
  end.

(** the integer that the digits captured in the key denote; the match is
    there for every key that passed [isSlideKey] *)
Definition slideDigitsValue (key : string) : Z :=
  match matchSlideDigits key with
  | Some d => Js.digitsValue 0 d
  | None => 0%Z
  end.

(** [parseInt(key.match(/slide(\d+)/)![1], 10)]: the Number that these
    digits denote *)
Definition slideNumOf (key : string) : Z := Js.toNumber (slideDigitsValue key).

(** [Array.prototype.sort] is stable: insertion of each element before
    the first element it does not compare greater than. *)
Section Sort.
Context {A : Type} (cmp : A -> A -> Z).

Fixpoint insertSorted (x : A) (l : list A) : list A :=
  match l with
  | [] => [x]
  | y :: l' => if (cmp x y <=? 0)%Z then x :: y :: l' else y :: insertSorted x l'
  end.

Fixpoint sortBy (l : list A) : list A :=
  match l with
  | [] => []
  | x :: l' => insertSorted x (sortBy l')
  end.
End Sort.

(** the slide entries of the package, sorted numerically *)
Definition slideKeys (zip : Zip) : list string :=
  sortBy (fun a b => (slideNumOf a - slideNumOf b)%Z)
         (List.filter isSlideKey (zipKeys zip)).

(** [l.map((x, i) => ...)]: the elements with their positions from [i] *)
Fixpoint indexed {A} (i : nat) (l : list A) : list (nat * A) :=
  match l with
  | [] => []
  | x :: l' => (i, x) :: indexed (S i) l'
  end.

Section Markdown.
(** [parseStringPromise(xml, { explicitArray: true })] of xml2js *)
Variable parseStringPromise : string -> result JsVal.

(** the speaker notes of the slide at position [slideNum] *)
Definition loadNotesMd (zip : Zip) (slideNum : nat) : result string :=
  let notesKey := ("ppt/notesSlides/notesSlide" +:+ Js.natToString slideNum +:+ ".xml")%string in
  match assoc notesKey zip with
  | Some entry =>
      let* notesDoc := parseStringPromise (asString entry) in
      Ok (parseNotesDoc notesDoc)
  | None => Ok ""
  end.

(** the Markdown of one section from its heading, body and notes *)
Definition sectionMarkdown (slideNum : nat) (sd : SlideData) (notes : string) : string :=
  let heading :=
    if nonEmpty (title sd) then ("## " +:+ title sd)%string
    else ("## Slide " +:+ Js.natToString slideNum)%string in
  let parts := [heading] in
  let parts :=
    match bodyBlocks sd with
    | [] => parts
    | _ => parts ++ [Js.join (Js.nl +:+ Js.nl) (bodyBlocks sd)]
    end in
  let parts :=
    if negb (Js.isBlank notes) then
      let noteLines :=
        Js.join Js.nl (map (fun l => ("> " +:+ l)%string) (Js.split Js.LF notes)) in
      parts ++ [("**Notes:**" +:+ Js.nl +:+ Js.nl +:+ noteLines)%string]
    else parts in
  Js.join (Js.nl +:+ Js.nl) parts.

(** the body of the loop of [convertPptx] for [slideKeys[i]] *)
Definition renderSection (zip : Zip) (ik : nat * string) : result string :=
  let '(i, key) := ik in
  let slideNum := S i in
  match assoc key zip with
  | None => Throw "TypeError: Cannot read properties of undefined"
  | Some entry =>
      let* slideDoc := parseStringPromise (asString entry) in
      let* sd := parseSlideDoc slideDoc in
      let* notes := loadNotesMd zip slideNum in
      Ok (sectionMarkdown slideNum sd notes)
  end.

(** the [sections] array of [convertPptx] *)
Definition convertPptxSections (zip : Zip) : result (list string) :=
  mapM (renderSection zip) (indexed 0 (slideKeys zip)).

Definition sectionSeparator : string :=
  (Js.nl +:+ Js.nl +:+ "---" +:+ Js.nl +:+ Js.nl)%string.

(** [convertPptx] once the package is open *)
Definition convertPptxZip (zip : Zip) : result string :=
  let* sections := convertPptxSections zip in
  Ok (Js.join sectionSeparator sections).
End Markdown.

(** ** .pptx → HTML (HTML-viewer variant) *)

Definition dq : string := Js.chr (ascii_of_nat 34).

(** [escapeHtml(str)] *)
Definition escapeHtml (str : string) : string :=
  Js.replaceChar (ascii_of_nat 34) "&quot;"
    (Js.replaceChar ">" "&gt;"
       (Js.replaceChar "<" "&lt;"
          (Js.replaceChar "&" "&amp;" str))).

(** *** Objects used as dictionaries

    [rels], [mediaCache] and the table of [getMimeType] are plain
    objects: [o[k]] finds the own property [k] or, failing that, the
    member [k] of [Object.prototype].  Such a member is a function (the
    prototype itself for [__proto__]): it is truthy, and the code uses it
    as a property key or inside a template only, that is through
    [String(...)], whose text (as V8 prints it) stands for the member
    here. *)
Definition objectPrototype : list (string * string) :=
  [ ("constructor", "function Object() { [native code] }");
    ("__proto__", "[object Object]");
    ("toString", "function toString() { [native code] }");
    ("toLocaleString", "function toLocaleString() { [native code] }");
    ("valueOf", "function valueOf() { [native code] }");
    ("hasOwnProperty", "function hasOwnProperty() { [native code] }");
    ("isPrototypeOf", "function isPrototypeOf() { [native code] }");
    ("propertyIsEnumerable", "function propertyIsEnumerable() { [native code] }");
    ("__defineGetter__", "function __defineGetter__() { [native code] }");
    ("__defineSetter__", "function __defineSetter__() { [native code] }");
    ("__lookupGetter__", "function __lookupGetter__() { [native code] }");
    ("__lookupSetter__", "function __lookupSetter__() { [native code] }") ]%string.

Definition protoMember (k : string) : option string := assoc k objectPrototype.

(** [o[k]] *)
Definition dictGet (o : gmap string string) (k : string) : option string :=
  match o !! k with
  | Some v => Some v
  | None => protoMember k
  end.

(** [o[k] = v] for a string [v]: the setter of [__proto__] ignores a
    value that is not an object *)
Definition dictSet (k v : string) (o : gmap string string) : gmap string string :=
  if String.eqb k "__proto__" then o else <[ k := v ]> o.

Definition mimeTable : list (string * string) :=
  [ ("png", "image/png"); ("jpg", "image/jpeg"); ("jpeg", "image/jpeg");
    ("gif", "image/gif"); ("svg", "image/svg+xml"); ("webp", "image/webp");
    ("bmp", "image/bmp"); ("tif", "image/tiff"); ("tiff", "image/tiff") ]%string.

(** [getMimeType(ext)]: [map[ext.toLowerCase()] ?? null] on the object
    literal [map] *)
Definition getMimeType (ext : string) : option string :=
  let k := Js.toLowerCase ext in
  match assoc k mimeTable with
  | Some mime => Some mime
  | None => protoMember k
  end.

(** [num / den * 100], kept as the quotient it is computed from *)
Record Pct := { pnum : Z; pden : Z }.

Record HtmlShape := {
  xPct : Pct; yPct : Pct; wPct : Pct; hPct : Pct;
  inner : string
}.

Record HtmlSlide := {
  background : string;
  shapes : list HtmlShape;
  notes : string
}.

(** [parseInt(o, 10) || dflt] *)
Definition parseIntOr (o : option JsVal) (dflt : Z) : Z :=
  match parseIntVal o with
  | Some z => if (z =? 0)%Z then dflt else z
  | None => dflt
  end.

(** [getTransform(sp, slideW, slideH)] *)
Definition getTransform (sp : JsVal) (slideW slideH : Z) : option HtmlShape :=
  match get sp ["p:spPr"; "a:xfrm"] with
  | None => None
  | Some xfrm =>
      if negb (truthy xfrm) then None
      else
        let off' := oprop (get xfrm ["a:off"]) "$" in
        let ext' := oprop (get xfrm ["a:ext"]) "$" in
        if negb (otruthy off') || negb (otruthy ext') then None
        else Some {| xPct := {| pnum := parseIntOr (oprop off' "x") 0; pden := slideW |};
                     yPct := {| pnum := parseIntOr (oprop off' "y") 0; pden := slideH |};
                     wPct := {| pnum := parseIntOr (oprop ext' "cx") 0; pden := slideW |};
                     hPct := {| pnum := parseIntOr (oprop ext' "cy") 0; pden := slideH |};
                     inner := "" |}
  end.

(** [String(n / 100)] for an integer [n]: at most two decimals, without
    trailing zeros (exact while [n / 100] prints without an exponent) *)
Definition fmtHundredths (n : Z) : string :=
  let a := Z.abs n in
  let q := Js.natToString (Z.to_nat (a / 100)) in
  let r := Z.to_nat (a mod 100) in
  let frac :=
    if (r =? 0)%nat then ""%string
    else if (r mod 10 =? 0)%nat then ("." +:+ Js.natToString (r / 10))%string
    else ("." +:+ Js.natToString (r / 10) +:+ Js.natToString (r mod 10))%string in
  ((if (n <? 0)%Z then "-" else "") +:+ q +:+ frac)%string.

(** ['#' + v] when [v] is truthy, [''] otherwise *)
Definition hashColor (o : option JsVal) : string :=
  match o with
  | Some v => if truthy v then ("#" +:+ toStr v)%string else ""%string
  | None => ""%string
  end.

(** the fill colour of a run, [''] when there is none *)
Definition runColor (rPr : option JsVal) : string :=
  let base := match rPr with Some v => v | None => JObj [] end in
  match get base ["a:solidFill"] with
  | None => ""%string
  | Some solidFill =>
      if negb (truthy solidFill) then ""%string
      else
        let color := hashColor (oprop (oprop (get solidFill ["a:srgbClr"]) "$") "val") in
        if nonEmpty color then color
        else hashColor (oprop (oprop (get solidFill ["a:sysClr"]) "$") "lastClr")
  end.

(** the HTML of one run of a paragraph *)
Definition runHtml (run : JsVal) : string :=
  let text := runText run in
  if negb (nonEmpty text) then ""%string
  else
    let rPr := get run ["a:rPr"] in
    let attrs := oprop rPr "$" in
    let bold := strictEq (oprop attrs "b") "1" in
    let italic := strictEq (oprop attrs "i") "1" in
    let u := oprop attrs "u" in
    let underline := otruthy u && negb (strictEq u "none") in
    let szRaw := oprop attrs "sz" in
    let fontSize := if otruthy szRaw then parseIntVal szRaw else None in
    let color := runColor rPr in
    let style :=
      ((if bold then "font-weight:bold;" else "") +:+
       (if italic then "font-style:italic;" else "") +:+
       (if underline then "text-decoration:underline;" else "") +:+
       (match fontSize with
        | Some n => if (n =? 0)%Z then "" else "font-size:" +:+ fmtHundredths n +:+ "pt;"
        | None => ""
        end) +:+
       (if nonEmpty color then "color:" +:+ color +:+ ";" else ""))%string in
    let safe := escapeHtml text in
    if nonEmpty style
    then ("<span style=" +:+ dq +:+ style +:+ dq +:+ ">" +:+ safe +:+ "</span>")%string
    else safe.

(** the HTML of one paragraph *)
Definition paragraphHtml (para : JsVal) : string :=
  let algn := oprop (oprop (get para ["a:pPr"]) "$") "algn" in
  let alignCss :=
    if strictEq algn "ctr" then "text-align:center;"
    else if strictEq algn "r" then "text-align:right;"
    else if strictEq algn "just" then "text-align:justify;"
    else ""%string in
  let runs := concatArr (prop para "a:r") ++ concatArr (prop para "a:fld") in
  match runs with
  | [] => ("<p style=" +:+ dq +:+ "margin:0;line-height:1.3;" +:+ dq +:+ ">&nbsp;</p>")%string
  | _ =>
      let html := Js.join "" (map runHtml runs) in
      ("<p style=" +:+ dq +:+ "margin:0;line-height:1.3;" +:+ alignCss +:+ dq +:+ ">" +:+
       (if nonEmpty html then html else "&nbsp;") +:+ "</p>")%string
  end.

(** [paragraphsToHtml(paragraphs)] *)
Definition paragraphsToHtml (paragraphs : list JsVal) : string :=
  Js.join "" (map paragraphHtml paragraphs).

(** the note lines that one shape contributes in [extractNotesText] *)
Definition notesTextOfShape (sp : JsVal) : list string :=
  let ph := get sp ["p:nvSpPr"; "p:nvPr"; "p:ph"] in
  if negb (strictEq (oprop (oprop ph "$") "idx") "1") then []
  else match get sp ["p:txBody"] with
       | None => []
       | Some tx =>
           if negb (truthy tx) then []
           else
             List.filter (fun t => negb (Js.isBlank t))
               (map (fun p =>
                       Js.join "" (map tText
                         (flat_map (fun r => concatArr (prop r "a:t"))
                                   (concatArr (prop p "a:r")))))
                    (concatArr (prop tx "a:p")))
       end.

(** [extractNotesText(notesDoc)] *)
Definition extractNotesText (notesDoc : JsVal) : string :=
  match get notesDoc ["p:notes"; "p:cSld"; "p:spTree"] with
  | None => ""
  | Some spTree =>
      if negb (truthy spTree) then ""
      else Js.join Js.nl (flat_map notesTextOfShape (concatArr (prop spTree "p:sp")))
  end.

(** [extractSlideBackground(slideDoc)] *)
Definition extractSlideBackground (slideDoc : JsVal) : string :=
  match get slideDoc ["p:sld"; "p:cSld"; "p:bg"; "p:bgPr"] with
  | None => ""
  | Some bgPr =>
      if negb (truthy bgPr) then ""
      else
        hashColor (oprop (oprop (get bgPr ["a:solidFill"; "a:srgbClr"]) "$") "val")
  end.

(** [s.replace(/pat/g, '')] for a literal pattern: [skip] characters of
    a match are still to be dropped. *)
Fixpoint removeAllFrom (pat : string) (skip : nat) (s : string) : string :=
  match s with
  | EmptyString => EmptyString
  | String a s' =>
      match skip with
      | S k => removeAllFrom pat k s'
      | O =>
          if nonEmpty pat && Js.startsWith s pat
          then removeAllFrom pat (String.length pat - 1) s'
          else String a (removeAllFrom pat 0 s')
      end
  end.

Definition removeAll (pat s : string) : string := removeAllFrom pat 0 s.

(** the shapes that one [p:sp] contributes in [parseSlide] *)
Definition textShape (slideW slideH : Z) (sp : JsVal) : list HtmlShape :=
  match getTransform sp slideW slideH with
  | None => []
  | Some xfrm =>
      match get sp ["p:txBody"] with
      | None => []
      | Some tx =>
          if negb (truthy tx) then []
          else
            let html := paragraphsToHtml (concatArr (prop tx "a:p")) in
            if Js.isBlank (removeAll "&nbsp;" html) then []
            else [ {| xPct := xPct xfrm; yPct := yPct xfrm;
                      wPct := wPct xfrm; hPct := hPct xfrm;
                      inner := ("<div class=" +:+ dq +:+ "tb" +:+ dq +:+ ">" +:+ html +:+ "</div>")%string |} ]
      end
  end.

(** [blip?.['$']?.['r:embed']] of a picture *)
Definition embedId (pic : JsVal) : option JsVal :=
  oprop (oprop (get pic ["p:blipFill"; "a:blip"]) "$") "r:embed".

(** [zipPath ? mediaCache[zipPath] : undefined] for [zipPath = rels[rId]] *)
Definition pictureDataUri (rels mediaCache : gmap string string) (rId : JsVal)
  : option string :=
  match dictGet rels (toStr rId) with
  | Some zipPath => if nonEmpty zipPath then dictGet mediaCache zipPath else None
  | None => None
  end.

(** the shapes that one [p:pic] contributes in [parseSlide] *)
Definition pictureShape (rels mediaCache : gmap string string)
    (slideW slideH : Z) (pic : JsVal) : list HtmlShape :=
  match getTransform pic slideW slideH with
  | None => []
  | Some xfrm =>
      match embedId pic with
      | None => []
      | Some rId =>
          if negb (truthy rId) then []
          else match pictureDataUri rels mediaCache rId with
               | None => []
               | Some dataUri =>
                   if negb (nonEmpty dataUri) then []
                   else [ {| xPct := xPct xfrm; yPct := yPct xfrm;
                             wPct := wPct xfrm; hPct := hPct xfrm;
                             inner := ("<img src=" +:+ dq +:+ dataUri +:+ dq +:+
                                       " style=" +:+ dq +:+
                                       "width:100%;height:100%;object-fit:contain;" +:+ dq +:+
                                       " alt=" +:+ dq +:+ dq +:+ ">")%string |} ]
               end
      end
  end.

(** the [p:sp] and the [p:pic] arrays of the shape tree of a slide *)
Definition slideTextNodes (slideDoc : JsVal) : list JsVal :=
  match get slideDoc ["p:sld"; "p:cSld"; "p:spTree"] with
  | Some spTree => if truthy spTree then concatArr (prop spTree "p:sp") else []
  | None => []
  end.

Definition slidePicNodes (slideDoc : JsVal) : list JsVal :=
  match get slideDoc ["p:sld"; "p:cSld"; "p:spTree"] with
  | Some spTree => if truthy spTree then concatArr (prop spTree "p:pic") else []
  | None => []
  end.

(** [parseSlide(slideDoc, rels, mediaCache, slideW, slideH)] *)
Definition parseSlide (slideDoc : JsVal) (rels mediaCache : gmap string string)
    (slideW slideH : Z) : HtmlSlide :=
  {| background := extractSlideBackground slideDoc;
     shapes := flat_map (textShape slideW slideH) (slideTextNodes slideDoc) ++
               flat_map (pictureShape rels mediaCache slideW slideH) (slidePicNodes slideDoc);
     notes := "" |}.

Section HtmlViewer.
(** [parseStringPromise(xml, { explicitArray: true })] of xml2js *)
Variable parseStringPromise : string -> result JsVal.
(** the template of the viewer page; its numbers are formatted with
    [toFixed] and [Math.round] on floating-point values *)
Variable buildPresentationHtml : string -> list HtmlSlide -> Z -> Z -> string.

(** the slide dimensions read from [ppt/presentation.xml] *)
Definition slideSize (zip : Zip) : result (Z * Z) :=
  let slideW := 9144000%Z in
  let slideH := 6858000%Z in
  match assoc "ppt/presentation.xml" zip with
  | Some entry =>
      let* presDoc := parseStringPromise (asString entry) in
      let sldSz := oprop (get presDoc ["p:presentation"; "p:sldSz"]) "$" in
      if otruthy sldSz
      then Ok (parseIntOr (oprop sldSz "cx") slideW, parseIntOr (oprop sldSz "cy") slideH)
      else Ok (slideW, slideH)
  | None => Ok (slideW, slideH)
  end.

(** one turn of the loop that pre-loads the media; a key that starts
    with [ppt/media/] is not [__proto__], so that the assignment creates
    or replaces the own property *)
Definition mediaStep (cache : gmap string string) (e : string * ZipObject)
  : gmap string string :=
  let '(zipPath, zipFile) := e in
  if negb (Js.startsWith zipPath "ppt/media/") then cache
  else if zdir zipFile then cache
  else
    let ext := List.last (Js.split "." zipPath) ""%string in
    match getMimeType ext with
    | Some mime =>
        <[ zipPath := ("data:" +:+ mime +:+ ";base64," +:+ asBase64 zipFile)%string ]> cache
    | None => cache
    end.

Definition loadMedia (zip : Zip) : gmap string string :=
  fold_left mediaStep zip ∅.

(** one turn of the loop over the [Relationship] elements *)
Definition relStep (slideKey : string) (rels : gmap string string) (rel : JsVal)
  : gmap string string :=
  let a := prop rel "$" in
  let id := oprop a "Id" in
  let target := oprop a "Target" in
  match id, target with
  | Some i, Some t =>
      if truthy i && truthy t
      then dictSet (toStr i) (resolveZipPath slideKey (toStr t)) rels
      else rels
  | _, _ => rels
  end.

(** the relationship map that a parsed manifest yields for [slideKey] *)
Definition relsOfDoc (slideKey : string) (relsDoc : JsVal) : gmap string string :=
  let relsRoot :=
    match prop relsDoc "Relationships" with
    | Some v => index0 v
    | None => None
    end in
  fold_left (relStep slideKey) (concatArr (oprop relsRoot "Relationship")) ∅.

(** the key of the manifest that the loop reads at [slideNum] *)
Definition relKeyOf (slideNum : nat) : string :=
  ("ppt/slides/_rels/slide" +:+ Js.natToString slideNum +:+ ".xml.rels")%string.

(** "Load slide rels": the relationship map used for [slideKey] at
    position [slideNum] *)
Definition loadRels (zip : Zip) (slideKey : string) (slideNum : nat)
  : result (gmap string string) :=
  match assoc (relKeyOf slideNum) zip with
  | Some entry =>
      let* relsDoc := parseStringPromise (asString entry) in
      Ok (relsOfDoc slideKey relsDoc)
  | None => Ok ∅
  end.

Definition loadNotesHtml (zip : Zip) (slideNum : nat) (slide : HtmlSlide)
  : result HtmlSlide :=
  let notesKey := ("ppt/notesSlides/notesSlide" +:+ Js.natToString slideNum +:+ ".xml")%string in
  match assoc notesKey zip with
  | Some entry =>
      let* notesDoc := parseStringPromise (asString entry) in
      Ok {| background := background slide; shapes := shapes slide;
            notes := extractNotesText notesDoc |}
  | None => Ok slide
  end.

(** the body of the loop of [convertPptxToHtml] for [slideKeys[i]] *)
Definition loadSlide (zip : Zip) (mediaCache : gmap string string)
    (slideW slideH : Z) (ik : nat * string) : result HtmlSlide :=
  let '(i, slideKey) := ik in
  let slideNum := S i in
  let* rels := loadRels zip slideKey slideNum in
  match assoc slideKey zip with
  | None => Throw "TypeError: Cannot read properties of undefined"
  | Some entry =>
      let* slideDoc := parseStringPromise (asString entry) in
      let slide := parseSlide slideDoc rels mediaCache slideW slideH in
      loadNotesHtml zip slideNum slide
  end.

(** the [slides] array of [convertPptxToHtml] and the slide size *)
Definition convertPptxToHtmlSlides (zip : Zip) : result (Z * Z * list HtmlSlide) :=
  let* (slideW, slideH) := slideSize zip in
  let mediaCache := loadMedia zip in
  let* slides := mapM (loadSlide zip mediaCache slideW slideH) (indexed 0 (slideKeys zip)) in
  Ok (slideW, slideH, slides).

(** [convertPptxToHtml] once the package is open *)
Definition convertPptxToHtmlZip (title : string) (zip : Zip) : result string :=
  let* (slideW, slideH, slides) := convertPptxToHtmlSlides zip in
  Ok (buildPresentationHtml title slides slideW slideH).
End HtmlViewer.

(** ** The file system *)

(** A directory lists its entries in the order in which [readdirSync]
    returns them; the names in a directory are distinct, and a lookup
    takes the first entry of a name. *)
Inductive Node : Type :=
| File (data : string)
| Dir (entries : list (string * Node)).

Definition path := list string.

Definition isDir (n : Node) : bool :=
  match n with Dir _ => true | File _ => false end.

(** replace the first binding of [k], or add one at the end *)
Fixpoint setEntry {V} (k : string) (v : V) (l : list (string * V)) : list (string * V) :=
  match l with
  | [] => [(k, v)]
  | (k', v') :: l' =>
      if String.eqb k k' then (k, v) :: l' else (k', v') :: setEntry k v l'
  end.

Definition removeEntry {V} (k : string) (l : list (string * V)) : list (string * V) :=
  List.filter (fun e => negb (String.eqb k (fst e))) l.

Fixpoint lookup (n : Node) (p : path) : option Node :=
  match p with
  | [] => Some n
  | s :: p' =>
      match n with
      | Dir entries =>
          match assoc s entries with
          | Some child => lookup child p'
          | None => None
          end
      | File _ => None
      end
  end.

(** [fs.mkdirSync(dir, { recursive: true })] *)
Fixpoint mkdirSync (n : Node) (p : path) : result Node :=
  match p with
  | [] => match n with
          | Dir _ => Ok n
          | File _ => Throw "EEXIST: file already exists"
          end
  | s :: p' =>
      match n with
      | File _ => Throw "ENOTDIR: not a directory"
      | Dir entries =>
          let child := match assoc s entries with
                       | Some c => c
                       | None => Dir []
                       end in
          let* child' := mkdirSync child p' in
          Ok (Dir (setEntry s child' entries))
      end
  end.

(** [fs.writeFileSync(p, data)] *)
Fixpoint writeFileSync (n : Node) (p : path) (data : string) : result Node :=
  match p with
  | [] => Throw "EISDIR: illegal operation on a directory"
  | [s] =>
      match n with
      | File _ => Throw "ENOTDIR: not a directory"
      | Dir entries =>
          match assoc s entries with
          | Some (Dir _) => Throw "EISDIR: illegal operation on a directory"
          | _ => Ok (Dir (setEntry s (File data) entries))
          end
      end
  | s :: p' =>
      match n with
      | File _ => Throw "ENOTDIR: not a directory"
      | Dir entries =>
          match assoc s entries with
          | Some child =>
              let* child' := writeFileSync child p' data in
              Ok (Dir (setEntry s child' entries))
          | None => Throw "ENOENT: no such file or directory"
          end
      end
  end.

(** [fs.readFileSync(p)] *)
Definition readFileSync (n : Node) (p : path) : result string :=
  match lookup n p with
  | Some (File data) => Ok data
  | Some (Dir _) => Throw "EISDIR: illegal operation on a directory"
  | None => Throw "ENOENT: no such file or directory"
  end.

(** [fs.rmSync(p, { recursive: true })] *)
Fixpoint rmSync (n : Node) (p : path) : result Node :=
  match p with
  | [] => Throw "EBUSY: resource busy or locked"
  | [s] =>
      match n with
      | File _ => Throw "ENOTDIR: not a directory"
      | Dir entries =>
          match assoc s entries with
          | Some _ => Ok (Dir (removeEntry s entries))
          | None => Throw "ENOENT: no such file or directory"
          end
      end
  | s :: p' =>
      match n with
      | File _ => Throw "ENOTDIR: not a directory"
      | Dir entries =>
          match assoc s entries with
          | Some child =>
              let* child' := rmSync child p' in
              Ok (Dir (setEntry s child' entries))
          | None => Throw "ENOENT: no such file or directory"
          end
      end
  end.

(** [walk(dir)] on the directory [n] found at [dir] *)
Fixpoint walkNode (dir : path) (n : Node) : list path :=
  match n with
  | File _ => []
  | Dir entries =>
      flat_map (fun e =>
                  match snd e with
                  | Dir _ => walkNode (dir ++ [fst e]) (snd e)
                  | File _ => [dir ++ [fst e]]
                  end) entries
  end.

(** ** Programs on the file system: state and exceptions *)

Definition IO (A : Type) : Type := Node -> Node * result A.

Definition ret {A} (a : A) : IO A := fun fs => (fs, Ok a).
Definition throw {A} (msg : string) : IO A := fun fs => (fs, Throw msg).
Definition bind {A B} (m : IO A) (k : A -> IO B) : IO B :=
  fun fs => match m fs with
            | (fs', Ok a) => k a fs'
            | (fs', Throw e) => (fs', Throw e)
            end.
(** [try { m } catch (err) { h err }] *)
Definition tryCatch {A} (m : IO A) (h : string -> IO A) : IO A :=
  fun fs => match m fs with
            | (fs', Ok a) => (fs', Ok a)
            | (fs', Throw e) => h e fs'
            end.
(** a computation that only reads the file system *)
Definition liftR {A} (f : Node -> result A) : IO A := fun fs => (fs, f fs).
(** a system call that changes the file system, or throws and leaves it *)
Definition liftW (f : Node -> result Node) : IO unit :=
  fun fs => match f fs with
            | Ok fs' => (fs', Ok tt)
            | Throw e => (fs, Throw e)
            end.

Notation "'do' x '<-' m ';' k" := (bind m (fun x => k))
  (at level 10, x pattern, m at level 100, k at level 200).
Notation "m ';;;' k" := (bind m (fun _ => k))
  (at level 100, k at level 200, right associativity).

Fixpoint forEach {A} (body : A -> IO unit) (l : list A) : IO unit :=
  match l with
  | [] => ret tt
  | x :: l' => body x ;;; forEach body l'
  end.

Definition existsSync (p : path) : IO bool :=
  fun fs => (fs, Ok (match lookup fs p with Some _ => true | None => false end)).
Definition mkdirp (dir : path) : IO unit := liftW (fun fs => mkdirSync fs dir).
Definition writeFile (p : path) (data : string) : IO unit :=
  liftW (fun fs => writeFileSync fs p data).
Definition copyFileSync (src dst : path) : IO unit :=
  do data <- liftR (fun fs => readFileSync fs src); writeFile dst data.
(** [fs.rmSync(p, { recursive: true })] as a step of a run.  The content
    of a directory goes before the directory itself: on the root the
    content is gone when removing the root fails. *)
Definition rmRecursive (p : path) : IO unit :=
  match p with
  | [] => fun _ => (Dir [], Throw "EBUSY: resource busy or locked")
  | _ => liftW (fun fs => rmSync fs p)
  end.
Definition walk (dir : path) : IO (list path) :=
  liftR (fun fs => match lookup fs dir with
                   | Some (Dir entries) => Ok (walkNode dir (Dir entries))
                   | Some (File _) => Throw "ENOTDIR: not a directory"
                   | None => Throw "ENOENT: no such file or directory"
                   end).

(** ** Functions of the [path] module on one path segment *)

(** [path.dirname(p)] *)
Definition dirname (p : path) : path := removelast p.
(** [path.basename(p)] *)
Definition basename (p : path) : string := List.last p ""%string.

(** the index of the last dot of [s], counted from [i], if any *)
Fixpoint lastDot (i : nat) (s : string) : option nat :=
  match s with
  | EmptyString => None
  | String a s' =>
      match lastDot (S i) s' with
      | Some j => Some j
      | None => if Ascii.eqb a "." then Some i else None
      end
  end.

(** [path.extname(name)]: from the last dot, unless that dot starts the
    name or the name is [..] *)
Definition extname (name : string) : string :=
  match lastDot 0 name with
  | None => ""
  | Some O => ""
  | Some j => if String.eqb name ".." then "" else Js.drop j name
  end.

Definition stripSuffix (suffix s : string) : string :=
  if Js.endsWith s suffix
  then Js.take (String.length s - String.length suffix) s
  else s.

(** [path.basename(p, ext)] *)
Definition basenameExt (p : path) (ext : string) : string :=
  let name := basename p in
  if nonEmpty ext && Js.endsWith name ext
  then (if String.eqb name ext then "" else stripSuffix ext name)
  else name.

(** [s.replace(/\.(e1|e2)$/i, repl)] for extensions given in lower case *)
Definition replaceExt (exts : list string) (repl s : string) : string :=
  match List.find (fun e => Js.endsWith (Js.toLowerCase s) e) exts with
  | Some e => (Js.take (String.length s - String.length e) s +:+ repl)%string
  | None => s
  end.

(** the same replacement in the last segment of a relative path *)
Definition replaceExtPath (exts : list string) (repl : string) (rel : path) : path :=
  match rel with
  | [] => []
  | _ => removelast rel ++ [replaceExt exts repl (List.last rel ""%string)]
  end.

(** [path.relative(base, p)] for a path found under [base] *)
Definition relative (base p : path) : path := List.skipn (List.length base) p.

(** ** Sidebar Index Builder *)

Inductive SidebarItem : Type :=
| Link (text link : string)
| Group (text : string) (items : list SidebarItem).

(** A directory entry as [readdirSync(dir, { withFileTypes: true })] gives
    it, together with the items that [buildItems] yields for it when it is
    a directory: the recursive call of the source is made where the entry
    is taken from the tree, and carried through the filter and the sort. *)
Record Dirent := {
  name : string;
  isDirectory : bool;
  subItems : list SidebarItem
}.

Definition hexDigit (n : nat) : ascii :=
  ascii_of_nat (if (n <? 10)%nat then 48 + n else 55 + n).

Section Sidebar.
(** [a.localeCompare(b)], which depends on the locale of the host *)
Variable localeCompare : string -> string -> Z.

Definition compareDirents (a b : Dirent) : Z :=
  if xorb (isDirectory a) (isDirectory b)
  then (if isDirectory a then (-1)%Z else 1%Z)
  else localeCompare (name a) (name b).

(** the callback of [entries.flatMap] *)
Definition itemsOfEntry (xlsx : bool) (urlBase : string) (entry : Dirent)
  : list SidebarItem :=
  let urlPath := (urlBase +:+ name entry)%string in
  if isDirectory entry then [Group (name entry) (subItems entry)]
  else if Js.endsWith (name entry) ".md"
  then [Link (stripSuffix ".md" (name entry)) (stripSuffix ".md" urlPath)]
  else if xlsx && Js.endsWith (name entry) ".xlsx"
  then [Link ("📥 " +:+ stripSuffix ".xlsx" (name entry))%string urlPath]
  else [].

(** [buildItems(dir, urlBase)] for the directory node found at [dir];
    [keep] is the filter on the names and [xlsx] tells whether the
    variant links spreadsheets. *)
Fixpoint buildItemsWith (keep : string -> bool) (xlsx : bool)
    (dir : Node) (urlBase : string) : list SidebarItem :=
  match dir with
  | File _ => []
  | Dir entries =>
      let dirents :=
        map (fun e =>
               {| name := fst e;
                  isDirectory := isDir (snd e);
                  subItems := buildItemsWith keep xlsx (snd e)
                                (urlBase +:+ fst e +:+ "/")%string |})
            entries in
      let sorted :=
        sortBy compareDirents (List.filter (fun e => keep (name e)) dirents) in
      flat_map (itemsOfEntry xlsx urlBase) sorted
  end.

Definition keepMd (n : string) : bool :=
  negb (String.eqb n "sidebar.ts") && negb (String.eqb n "index.md").

Definition keepHtml (n : string) : bool :=
  negb (String.eqb n "sidebar.ts") && negb (String.eqb n "index.md") &&
  negb (String.eqb n "public").

(** [buildItems] of [buildSidebar] in the Markdown variant *)
Definition buildItemsMd : Node -> string -> list SidebarItem :=
  buildItemsWith keepMd true.
(** [buildItems] of [buildSidebar] in the HTML-viewer variant *)
Definition buildItemsHtml : Node -> string -> list SidebarItem :=
  buildItemsWith keepHtml true.
(** [buildSidebarItems] of the VitePress configuration *)
Definition buildSidebarItems : Node -> string -> list SidebarItem :=
  buildItemsWith keepMd false.

(** [JSON.stringify(s)] for a string *)
Fixpoint jsonEscape (s : string) : string :=
  match s with
  | EmptyString => EmptyString
  | String a s' =>
      let n := nat_of_ascii a in
      let e :=
        if (n =? 34)%nat then String "\" dq
        else if (n =? 92)%nat then "\\"
        else if (n =? 8)%nat then "\b"
        else if (n =? 12)%nat then "\f"
        else if (n =? 10)%nat then "\n"
        else if (n =? 13)%nat then "\r"
        else if (n =? 9)%nat then "\t"
        else if (n <? 32)%nat
        then "\u00" +:+ Js.chr (hexDigit (n / 16)) +:+
             Js.chr (Js.lowerChar (hexDigit (n mod 16)))
        else Js.chr a in
      (e +:+ jsonEscape s')%string
  end.

Definition jsonString (s : string) : string := (dq +:+ jsonEscape s +:+ dq)%string.

(** [JSON.stringify(item, null, 2)] at the indentation [ind] *)
Fixpoint jsonItem (ind : string) (item : SidebarItem) : string :=
  let ind2 := (ind +:+ "  ")%string in
  match item with
  | Link t l =>
      ("{" +:+ Js.nl +:+
       ind2 +:+ jsonString "text" +:+ ": " +:+ jsonString t +:+ "," +:+ Js.nl +:+
       ind2 +:+ jsonString "link" +:+ ": " +:+ jsonString l +:+ Js.nl +:+
       ind +:+ "}")%string
  | Group t items =>
      let ind4 := (ind2 +:+ "  ")%string in
      let arr :=
        match items with
        | [] => "[]"%string
        | _ =>
            ("[" +:+ Js.nl +:+
             Js.join ("," +:+ Js.nl)
               (map (fun it => (ind4 +:+ jsonItem ind4 it)%string) items) +:+
             Js.nl +:+ ind2 +:+ "]")%string
        end in
      ("{" +:+ Js.nl +:+
       ind2 +:+ jsonString "text" +:+ ": " +:+ jsonString t +:+ "," +:+ Js.nl +:+
       ind2 +:+ jsonString "collapsed" +:+ ": true," +:+ Js.nl +:+
       ind2 +:+ jsonString "items" +:+ ": " +:+ arr +:+ Js.nl +:+
       ind +:+ "}")%string
  end.

(** [JSON.stringify(items, null, 2)] *)
Definition jsonItems (items : list SidebarItem) : string :=
  match items with
  | [] => "[]"%string
  | _ =>
      ("[" +:+ Js.nl +:+
       Js.join ("," +:+ Js.nl) (map (fun it => ("  " +:+ jsonItem "  " it)%string) items) +:+
       Js.nl +:+ "]")%string
  end.

(** the TypeScript source that [buildSidebar] returns for the items *)
Definition sidebarSource (items : list SidebarItem) : string :=
  ("// Auto-generated by convert.ts — do not edit by hand." +:+ Js.nl +:+
   "// Place this in your VitePress config's sidebar field, e.g.:" +:+ Js.nl +:+
   "//" +:+ Js.nl +:+
   "//   import sidebar from './sidebar'" +:+ Js.nl +:+
   "//   export default defineConfig({ themeConfig: { sidebar } })" +:+ Js.nl +:+
   Js.nl +:+
   "export default " +:+ jsonItems items +:+ " as const;" +:+ Js.nl)%string.

(** [buildSidebar(outDir)], with the [buildItems] of the variant *)
Definition buildSidebar (buildItems : Node -> string -> list SidebarItem)
    (outDir : path) : IO string :=
  liftR (fun fs =>
           match lookup fs outDir with
           | Some (Dir entries) => Ok (sidebarSource (buildItems (Dir entries) "/"))
           | Some (File _) => Throw "ENOTDIR: not a directory"
           | None => Throw "ENOENT: no such file or directory"
           end).
End Sidebar.

(** ** Orchestrator *)

(** how a run of [main] ends when no exception escapes *)
Inductive Status : Type :=
| InputMissing            (* "Input directory not found", [process.exit(1)] *)
| NoFiles                 (* "No ... files found.", early [return] *)
| Done (ok fail : nat).   (* "Done. ok converted, fail failed." *)

Fixpoint foldIO {A S} (body : S -> A -> IO S) (l : list A) (s : S) : IO S :=
  match l with
  | [] => ret s
  | x :: l' => do s' <- body s x; foldIO body l' s'
  end.

(** [path.join(base, rel)] normalises: empty and [.] segments vanish and
    [..] removes the segment before it *)
Definition joinStep (acc : path) (s : string) : path :=
  if String.eqb s "" || String.eqb s "." then acc
  else if String.eqb s ".." then removelast acc
  else acc ++ [s].

Definition pathJoin (base : path) (segs : list string) : path :=
  fold_left joinStep segs base.

(** the frontmatter of a converted page *)
Definition frontmatter (title baseName : string) : string :=
  Js.join Js.nl
    [ "---"%string;
      ("title: " +:+ dq +:+ Js.replaceChar (ascii_of_nat 34) (String "\" dq) title +:+ dq)%string;
      ("source: " +:+ dq +:+ baseName +:+ dq)%string;
      "---"%string;
      ""%string ].

Definition extLower (f : path) : string := Js.toLowerCase (extname (basename f)).

(** the filter on the walked files of the Markdown and HTML variants *)
Definition isInputFile (f : path) : bool :=
  if Js.startsWith (basename f) "~$" then false
  else String.eqb (extLower f) ".docx" || String.eqb (extLower f) ".pptx" ||
       String.eqb (extLower f) ".xlsx".

Definition isXlsx (f : path) : bool := String.eqb (extLower f) ".xlsx".

(** [encodeURIComponent(seg)] on the bytes of the UTF-8 encoding *)
Definition uriUnreserved (a : ascii) : bool :=
  let n := nat_of_ascii a in
  ((65 <=? n) && (n <=? 90) || (97 <=? n) && (n <=? 122) || (48 <=? n) && (n <=? 57) ||
   (n =? 45) || (n =? 95) || (n =? 46) || (n =? 33) || (n =? 126) || (n =? 42) ||
   (n =? 39) || (n =? 40) || (n =? 41))%nat.

Fixpoint encodeURIComponent (s : string) : string :=
  match s with
  | EmptyString => EmptyString
  | String a s' =>
      let n := nat_of_ascii a in
      if uriUnreserved a then String a (encodeURIComponent s')
      else String "%" (String (hexDigit (n / 16)) (String (hexDigit (n mod 16))
             (encodeURIComponent s')))
  end.

(** *** [slugify] (docx-only variant) *)

(** [s.replace(/\s+/g, '-')] *)
Fixpoint dashSpaces (skip : nat) (inRun : bool) (s : string) : string :=
  match s with
  | EmptyString => EmptyString
  | String a s' =>
      match skip with
      | S k => dashSpaces k inRun s'
      | O =>
          match Js.wsLen s with
          | O => String a (dashSpaces 0 false s')
          | S k => ((if inRun then "" else "-") +:+ dashSpaces k true s')%string
          end
      end
  end.

Definition slugSafe (a : ascii) : bool :=
  let n := nat_of_ascii a in
  ((97 <=? n) && (n <=? 122) || (48 <=? n) && (n <=? 57) ||
   (n =? 45) || (n =? 95) || (n =? 46))%nat.

(** [s.replace(/[^a-z0-9\-_.]/g, '-')]; a character outside ASCII gives
    one dash per byte here and one per code unit in the source, a
    difference that the next replacement removes *)
Fixpoint dashUnsafe (s : string) : string :=
  match s with
  | EmptyString => EmptyString
  | String a s' => String (if slugSafe a then a else "-"%char) (dashUnsafe s')
  end.

(** [s.replace(/-{2,}/g, '-')] *)
Fixpoint squeezeDashes (prevDash : bool) (s : string) : string :=
  match s with
  | EmptyString => EmptyString
  | String a s' =>
      if Ascii.eqb a "-"
      then (if prevDash then squeezeDashes true s' else String a (squeezeDashes true s'))
      else String a (squeezeDashes false s')
  end.

Fixpoint dropDashes (s : string) : string :=
  match s with
  | String "-" s' => dropDashes s'
  | _ => s
  end.

(** [s.replace(/^-+|-+$/g, '')] *)
Definition trimDashes (s : string) : string :=
  Js.rev_string (dropDashes (Js.rev_string (dropDashes s))).

(** [slugify(name)] *)
Definition slugify (n : string) : string :=
  trimDashes (squeezeDashes false (dashUnsafe (dashSpaces 0 false (Js.toLowerCase n)))).

(** [slugifyRelativePath(relPath)], as the list of the joined segments *)
Definition slugifyRelativePath (rel : path) : list string :=
  match rel with
  | [] => [slugify ""]
  | _ =>
      map slugify (removelast rel) ++
      [ let seg := List.last rel ""%string in
        let ext := extname seg in
        (slugify (basenameExt [seg] ext) +:+ ext)%string ]
  end.

Section Run.
(** [path.resolve(process.argv[2] ?? ...)] and [path.resolve(process.argv[3] ?? ...)] *)
Variable INPUT_DIR OUTPUT_DIR : path.
(** [mammoth.convertToHtml] on the bytes of a document: the HTML, or an
    exception for a document it cannot read *)
Variable mammoth : string -> result string.
(** [turndown.turndown] *)
Variable turndown : string -> string.
(** [JSZip.loadAsync] *)
Variable loadAsync : string -> result Zip.
Variable parseStringPromise : string -> result JsVal.
Variable buildPresentationHtml : string -> list HtmlSlide -> Z -> Z -> string.
Variable localeCompare : string -> string -> Z.

(** [convertDocx(filePath)] *)
Definition convertDocx (filePath : path) : IO string :=
  do raw <- liftR (fun fs => readFileSync fs filePath);
  do html <- liftR (fun _ => mammoth raw);
  ret (turndown html).

(** [convertPptx(filePath)] *)
Definition convertPptx (filePath : path) : IO string :=
  do raw <- liftR (fun fs => readFileSync fs filePath);
  do zip <- liftR (fun _ => loadAsync raw);
  liftR (fun _ => convertPptxZip parseStringPromise zip).

(** [convertPptxToHtml(filePath, title)] *)
Definition convertPptxToHtml (filePath : path) (title : string) : IO string :=
  do raw <- liftR (fun fs => readFileSync fs filePath);
  do zip <- liftR (fun _ => loadAsync raw);
  liftR (fun _ => convertPptxToHtmlZip parseStringPromise buildPresentationHtml title zip).

(** the loop that copies the spreadsheets *)
Definition copyXlsx (filePath : path) : IO unit :=
  let rel := relative INPUT_DIR filePath in
  let outPath := OUTPUT_DIR ++ rel in
  mkdirp (dirname outPath) ;;;
  copyFileSync filePath outPath.

(** "Generate sidebar config" *)
Definition writeSidebar (buildItems : Node -> string -> list SidebarItem) : IO unit :=
  let sidebarPath := OUTPUT_DIR ++ ["sidebar.ts"%string] in
  do src <- buildSidebar buildItems OUTPUT_DIR;
  writeFile sidebarPath src.

(** *** Markdown variant *)

Definition outPathMd (filePath : path) : path :=
  OUTPUT_DIR ++ replaceExtPath [".docx"; ".pptx"]%string ".md" (relative INPUT_DIR filePath).

(** the body of the conversion loop *)
Definition convertOneMd (counts : nat * nat) (filePath : path) : IO (nat * nat) :=
  let '(ok, fail) := counts in
  let ext := extLower filePath in
  let outPath := outPathMd filePath in
  mkdirp (dirname outPath) ;;;
  let baseName := basename filePath in
  let title := basenameExt filePath ext in
  tryCatch
    (do body <- (if String.eqb ext ".docx" then convertDocx filePath
                 else convertPptx filePath);
     writeFile outPath (frontmatter title baseName +:+ body +:+ Js.nl)%string ;;;
     ret (S ok, fail))
    (fun _ => ret (ok, S fail)).

Definition mainMd : IO Status :=
  do found <- existsSync INPUT_DIR;
  if negb found then ret InputMissing
  else
    mkdirp OUTPUT_DIR ;;;
    do files <- walk INPUT_DIR;
    let allFiles := List.filter isInputFile files in
    match allFiles with
    | [] => ret NoFiles
    | _ =>
        let convertFiles := List.filter (fun f => negb (isXlsx f)) allFiles in
        let xlsxFiles := List.filter isXlsx allFiles in
        forEach copyXlsx xlsxFiles ;;;
        do counts <- foldIO convertOneMd convertFiles (0, 0)%nat;
        writeSidebar (buildItemsMd localeCompare) ;;;
        ret (Done (fst counts) (snd counts))
    end.

(** *** HTML-viewer variant *)

Definition htmlRelFwd (filePath : path) : list string :=
  let relFwd := flat_map (Js.split "\") (relative INPUT_DIR filePath) in
  replaceExtPath [".pptx"%string] ".html" relFwd.

Definition htmlOutPath (filePath : path) : path :=
  pathJoin (OUTPUT_DIR ++ ["public"; "slides"]%string) (htmlRelFwd filePath).

Definition mdOutPath (filePath : path) : path :=
  OUTPUT_DIR ++ replaceExtPath [".pptx"%string] ".md" (relative INPUT_DIR filePath).

Definition iframePage (title baseName encodedUrl : string) : string :=
  Js.join Js.nl
    [ "---"%string;
      ("title: " +:+ dq +:+ Js.replaceChar (ascii_of_nat 34) (String "\" dq) title +:+ dq)%string;
      ("source: " +:+ dq +:+ baseName +:+ dq)%string;
      "---"%string;
      ""%string;
      ("<div style=" +:+ dq +:+ "width:100%;height:75vh;" +:+ dq +:+ ">")%string;
      ("  <iframe src=" +:+ dq +:+ encodedUrl +:+ dq +:+ " style=" +:+ dq +:+
       "width:100%;height:100%;border:none;" +:+ dq +:+ " title=" +:+ dq +:+
       escapeHtml title +:+ dq +:+ "></iframe>")%string;
      "</div>"%string;
      ""%string ].

Definition convertOneHtml (counts : nat * nat) (filePath : path) : IO (nat * nat) :=
  let '(ok, fail) := counts in
  let ext := extLower filePath in
  let baseName := basename filePath in
  let title := basenameExt filePath ext in
  if String.eqb ext ".pptx" then
    mkdirp (dirname (htmlOutPath filePath)) ;;;
    mkdirp (dirname (mdOutPath filePath)) ;;;
    tryCatch
      (do html <- convertPptxToHtml filePath title;
       writeFile (htmlOutPath filePath) html ;;;
       let encodedUrl :=
         ("/slides/" +:+ Js.join "/" (map encodeURIComponent (htmlRelFwd filePath)))%string in
       writeFile (mdOutPath filePath) (iframePage title baseName encodedUrl) ;;;
       ret (S ok, fail))
      (fun _ => ret (ok, S fail))
  else
    let outPath :=
      OUTPUT_DIR ++ replaceExtPath [".docx"%string] ".md" (relative INPUT_DIR filePath) in
    mkdirp (dirname outPath) ;;;
    tryCatch
      (do body <- convertDocx filePath;
       writeFile outPath (frontmatter title baseName +:+ body +:+ Js.nl)%string ;;;
       ret (S ok, fail))
      (fun _ => ret (ok, S fail)).

Definition mainHtml : IO Status :=
  do found <- existsSync INPUT_DIR;
  if negb found then ret InputMissing
  else
    mkdirp OUTPUT_DIR ;;;
    do files <- walk INPUT_DIR;
    let allFiles := List.filter isInputFile files in
    match allFiles with
    | [] => ret NoFiles
    | _ =>
        let convertFiles := List.filter (fun f => negb (isXlsx f)) allFiles in
        let xlsxFiles := List.filter isXlsx allFiles in
        forEach copyXlsx xlsxFiles ;;;
        do counts <- foldIO convertOneHtml convertFiles (0, 0)%nat;
        writeSidebar (buildItemsHtml localeCompare) ;;;
        ret (Done (fst counts) (snd counts))
    end.

(** *** docx-only variant *)

Definition isDocxFile (f : path) : bool :=
  if Js.startsWith (basename f) "~$" then false
  else String.eqb (extLower f) ".docx".

Definition outPathDocx (filePath : path) : path :=
  pathJoin OUTPUT_DIR
    (slugifyRelativePath
       (replaceExtPath [".docx"%string] ".md" (relative INPUT_DIR filePath))).

Definition convertOneDocx (counts : nat * nat) (filePath : path) : IO (nat * nat) :=
  let '(ok, fail) := counts in
  let ext := extname (basename filePath) in
  let outPath := outPathDocx filePath in
  let title := basenameExt filePath ext in
  let baseName := basename filePath in
  mkdirp (dirname outPath) ;;;
  tryCatch
    (do body <- convertDocx filePath;
     writeFile outPath (frontmatter title baseName +:+ body +:+ Js.nl)%string ;;;
     ret (S ok, fail))
    (fun _ => ret (ok, S fail)).

(** the first file-system change of the docx-only [main]: the output
    directory is removed when it exists *)
Definition clearOutput : IO unit :=
  do present <- existsSync OUTPUT_DIR;
  if present then rmRecursive OUTPUT_DIR else ret tt.

(** what [main] does once the output directory is cleared *)
Definition convertAllDocx : IO Status :=
  mkdirp OUTPUT_DIR ;;;
  do files <- walk INPUT_DIR;
  let docxFiles := List.filter isDocxFile files in
  match docxFiles with
  | [] => ret NoFiles
  | _ =>
      do counts <- foldIO convertOneDocx docxFiles (0, 0)%nat;
      ret (Done (fst counts) (snd counts))
  end.

Definition mainDocx : IO Status :=
  do found <- existsSync INPUT_DIR;
  if negb found then ret InputMissing
  else clearOutput ;;; convertAllDocx.
End Run.


(** * Reference definitions, in the words of the specification *)

(** ** Path resolution (§4.2) *)

Fixpoint hasSlash (s : string) : bool :=
  match s with
  | EmptyString => false
  | String a s' => Ascii.eqb a "/" || hasSlash s'
  end.

(** "the directory portion of basePath": what stands before its last
    separator, nothing when there is no separator *)
Fixpoint dirPortion (s : string) : string :=
  match s with
  | EmptyString => EmptyString
  | String a s' => if hasSlash s' then String a (dirPortion s') else EmptyString
  end.

(** "fold left-to-right: [..] pops the last accumulated segment, [.] is
    dropped, all else is pushed", on a stack whose top is the head *)
Definition foldSegment (stack : list string) (seg : string) : list string :=
  if String.eqb seg ".." then
    match stack with
    | [] => []
    | _ :: below => below
    end
  else if String.eqb seg "." then stack
  else seg :: stack.

Definition resolveSpec (basePath relativeTarget : string) : string :=
  Js.join "/"
    (rev (fold_left foldSegment
            (Js.split "/" (dirPortion basePath +:+ "/" +:+ relativeTarget)%string) [])).

(** a segment that is pushed as it is: neither [.] nor [..] *)
Definition plainSegment (seg : string) : Prop := seg <> "."%string /\ seg <> ".."%string.

(** the cache entry [k -> uri] stands for an image of the package: a
    file under [ppt/media/] whose extension has a MIME type, as a data
    URI of its base64 decoding *)
Definition mediaEntryOf (zip : Zip) (k uri : string) : Prop :=
  Js.startsWith k "ppt/media/" = true /\
  exists entry mime,
    In (k, entry) zip /\ zdir entry = false /\
    getMimeType (List.last (Js.split "." k) ""%string) = Some mime /\
    uri = ("data:" +:+ mime +:+ ";base64," +:+ asBase64 entry)%string.

(** ** Blank lines of a body block (§4.4) *)

(** [pending] blank lines, as a rule that collapses the runs of at least
    [k] blank lines to one blank line leaves them *)
Definition flushBlank (k pending : nat) : list string :=
  if (k <=? pending)%nat then [""%string] else List.repeat ""%string pending.

(** "Runs of [k]+ consecutive blank lines collapse to exactly one blank
    line", shorter runs being left as they are *)
Fixpoint squeezeLines (k pending : nat) (lines : list string) : list string :=
  match lines with
  | [] => flushBlank k pending
  | l :: rest =>
      if String.eqb l "" then squeezeLines k (S pending) rest
      else flushBlank k pending ++ l :: squeezeLines k 0 rest
  end.

(** the text starts, or ends, with a character that is not a line feed *)
Definition startsOpen (s : string) : bool :=
  match s with
  | String a _ => negb (Ascii.eqb a Js.LF)
  | EmptyString => false
  end.

Fixpoint endsOpen (s : string) : bool :=
  match s with
  | EmptyString => false
  | String a EmptyString => negb (Ascii.eqb a Js.LF)
  | String _ s' => endsOpen s'
  end.

(** the text holds three line feeds in a row, [run] of them standing
    just before it *)
Fixpoint tripleLF (run : nat) (s : string) : bool :=
  match s with
  | EmptyString => false
  | String a s' =>
      if Ascii.eqb a Js.LF
      then (2 <=? run)%nat || tripleLF (S run) s'
      else tripleLF 0 s'
  end.

(** a paragraph with one run that holds the text [t] *)
Definition paraOf (t : string) : JsVal :=
  JObj [("a:r"%string, JArr [JObj [("a:t"%string, JArr [JStr t])]])].

(** a paragraph without a run, as xml2js gives an empty [a:p] *)
Definition emptyPara : JsVal := JStr "".

Definition blankPara (p : JsVal) : Prop := Js.isBlank (text (parseParagraph p)) = true.

(** ** Title and body of a slide (§4.3) *)

(** the non-empty paragraph texts of a shape, none without a text body *)
Definition textsOfShape (sp : JsVal) : list string :=
  match get sp ["p:txBody"%string] with
  | Some tx => if truthy tx then shapeTexts (concatArr (prop tx "a:p")) else []
  | None => []
  end.

(** the extracted text of a shape taken as the title *)
Definition titleText (sp : JsVal) : string := Js.join " " (textsOfShape sp).

(** "placeholder-type attribute is one of {title, center-title, subtitle}
    AND has non-empty extracted text" *)
Definition isTitleShape (sp : JsVal) : bool :=
  isTitleType (phTypeOf sp) &&
  match textsOfShape sp with
  | [] => false
  | _ => true
  end.

(** the body blocks that a shape yields when it is rendered as body
    content: its paragraphs through the paragraph renderer, whatever its
    placeholder type, and nothing for a shape without text *)
Definition bodyBlocksOf (sp : JsVal) : result (list string) :=
  match get sp ["p:txBody"%string] with
  | None => Ok []
  | Some tx =>
      if negb (truthy tx) then Ok []
      else
        let paragraphs := concatArr (prop tx "a:p") in
        match shapeTexts paragraphs with
        | [] => Ok []
        | _ =>
            let* block := paragraphsToMarkdown paragraphs in
            Ok (if Js.isBlank block then [] else [block])
        end
  end.

Definition bodyBlocksOfAll (shapes : list JsVal) : result (list string) :=
  let* blocks := mapM bodyBlocksOf shapes in
  Ok (List.concat blocks).

(** ** Sample documents *)

(** a shape with the placeholder type [phType] and one paragraph per text *)
Definition shapeOf (phType : option string) (texts : list string) : JsVal :=
  JObj [ ("p:nvSpPr"%string,
          JArr [JObj [("p:nvPr"%string,
                       JArr [JObj match phType with
                                  | Some t =>
                                      [("p:ph"%string,
                                        JArr [JObj [("$"%string, JObj [("type"%string, JStr t)])]])]
                                  | None => []
                                  end])]]);
         ("p:txBody"%string, JArr [JObj [("a:p"%string, JArr (map paraOf texts))]]) ].

(** a slide document with the given [p:sp] and [p:pic] children *)
Definition slideDocOf (sps pics : list JsVal) : JsVal :=
  JObj [("p:sld"%string,
         JObj [("p:cSld"%string,
                JArr [JObj [("p:spTree"%string,
                             JArr [JObj [("p:sp"%string, JArr sps);
                                         ("p:pic"%string, JArr pics)]])]])])].

(** a parser that knows the documents of a table, and throws on the rest *)
Definition parseTable (table : list (string * JsVal)) (xml : string) : result JsVal :=
  match assoc xml table with
  | Some doc => Ok doc
  | None => Throw "Error: Non-whitespace before first tag."
  end.

Definition textEntry (s : string) : ZipObject :=
  {| zdir := false; asString := s; asBase64 := "" |}.

(** a transform at the origin, one inch wide and high *)
Definition xfrmOf : (string * JsVal) :=
  ("p:spPr"%string,
   JArr [JObj [("a:xfrm"%string,
                JArr [JObj [("a:off"%string,
                             JArr [JObj [("$"%string,
                                          JObj [("x"%string, JStr "0"); ("y"%string, JStr "0")])]]);
                            ("a:ext"%string,
                             JArr [JObj [("$"%string,
                                          JObj [("cx"%string, JStr "914400");
                                                ("cy"%string, JStr "914400")])]])]])]]).

(** a picture that embeds the relationship [rId] *)
Definition picOf (rId : string) : JsVal :=
  JObj [ xfrmOf;
         ("p:blipFill"%string,
          JArr [JObj [("a:blip"%string,
                       JArr [JObj [("$"%string, JObj [("r:embed"%string, JStr rId)])]])]]) ].

(** a picture without a relationship identifier *)
Definition picWithoutId : JsVal :=
  JObj [ xfrmOf; ("p:blipFill"%string, JArr [JObj [("a:blip"%string, JArr [JStr ""])]]) ].

(** a manifest with one relationship, its root wrapped in an array *)
Definition relsDocOf (id target : string) : JsVal :=
  JObj [("Relationships"%string,
         JArr [JObj [("Relationship"%string,
                      JArr [JObj [("$"%string,
                                   JObj [("Id"%string, JStr id);
                                         ("Target"%string, JStr target)])]])]])].

Definition imageEntry (b64 : string) : ZipObject :=
  {| zdir := false; asString := ""; asBase64 := b64 |}.

(** the entry of the slide numbered [n] *)
Definition slideKeyOf (n : nat) : string :=
  ("ppt/slides/slide" +:+ Js.natToString n +:+ ".xml")%string.

(** a deck with the slides 1 and 3: the numbers of its slide entries have
    a gap, and slide 3 has a relationship manifest *)
Definition gapDeck (manifest : string) : Zip :=
  [ ("ppt/slides/slide1.xml"%string, textEntry "slide-1");
    ("ppt/slides/slide3.xml"%string, textEntry "slide-3");
    ("ppt/slides/_rels/slide3.xml.rels"%string, textEntry manifest);
    ("ppt/media/image1.png"%string, imageEntry "iVBORw0KGgo=") ].

Definition gapDocs : list (string * JsVal) :=
  [ ("slide-1"%string, slideDocOf [] []);
    ("slide-3"%string, slideDocOf [] [picOf "rId1"]);
    ("rels-3"%string, relsDocOf "rId1" "../media/image1.png") ].

(** ** Pictures that cannot be resolved (§4.3, §7) *)

(** the relationship identifier is missing or empty, or it is not in the
    relationship map, or the path it resolves to is not in the media cache *)
Definition unresolvedPicture (rels mediaCache : gmap string string) (pic : JsVal) : Prop :=
  match embedId pic with
  | None => True
  | Some rId =>
      truthy rId = false \/
      rels !! toStr rId = None \/
      exists zipPath, rels !! toStr rId = Some zipPath /\ mediaCache !! zipPath = None
  end.

(** ** Entries of the sidebar (§4.6) *)

(** the directory entry that a builder sees for the binding [e] of a
    directory listed under [urlBase] *)
Definition direntOf (build : Node -> string -> list SidebarItem) (urlBase : string)
    (e : string * Node) : Dirent :=
  {| name := fst e;
     isDirectory := isDir (snd e);
     subItems := build (snd e) (urlBase +:+ fst e +:+ "/")%string |}.

(** What a builder that keeps the names [keep], and links spreadsheets
    when [xlsx] holds, makes of a directory: nothing for the names it
    omits, a group for every other directory, a link for every other
    Markdown file and, when [xlsx] holds, for every other spreadsheet;
    nothing else. *)
Definition representsEntries (keep : string -> bool) (xlsx : bool)
    (build : Node -> string -> list SidebarItem) : Prop :=
  forall (entries : list (string * Node)) (urlBase : string),
    let items := build (Dir entries) urlBase in
    (* the omitted names leave no trace *)
    items = build (Dir (List.filter (fun e => keep (fst e)) entries)) urlBase /\
    (* every item comes from an entry that is kept *)
    (forall item, In item items ->
       exists e, In e entries /\ keep (fst e) = true /\
                 In item (itemsOfEntry xlsx urlBase (direntOf build urlBase e))) /\
    (* every kept directory, Markdown file and linked spreadsheet is there *)
    (forall nm node, In (nm, node) entries -> keep nm = true ->
       match node with
       | Dir _ => In (Group nm (build node (urlBase +:+ nm +:+ "/")%string)) items
       | File _ =>
           (Js.endsWith nm ".md" = true ->
            In (Link (stripSuffix ".md" nm) (stripSuffix ".md" (urlBase +:+ nm)%string)) items) /\
           (xlsx = true -> Js.endsWith nm ".md" = false -> Js.endsWith nm ".xlsx" = true ->
            In (Link ("📥 " +:+ stripSuffix ".xlsx" nm)%string (urlBase +:+ nm)%string) items)
       end).

(** the names of every directory of the tree are distinct, as they are
    in a file system *)
Inductive distinctNames : Node -> Prop :=
| distinct_file data : distinctNames (File data)
| distinct_dir entries :
    List.NoDup (map fst entries) ->
    Forall (fun e => distinctNames (snd e)) entries ->
    distinctNames (Dir entries).

(** a file stands on the way to [dir] *)
Definition fileOnPath (fs : Node) (dir : path) : Prop :=
  exists pre rest data, dir = pre ++ rest /\ lookup fs pre = Some (File data).

(** the path is not [out], nor below it *)
Definition outsideOf (out q : path) : Prop := forall rest, q <> out ++ rest.

(** outside [out], the two states hold the same files with the same
    content *)
Definition untouchedOutside (out : path) (fs fs' : Node) : Prop :=
  forall q data, outsideOf out q ->
    (lookup fs' q = Some (File data) <-> lookup fs q = Some (File data)).

(** every run of [m] ends in a state related to the one it started in *)
Definition keeps (R : Node -> Node -> Prop) {A} (m : IO A) : Prop :=
  forall fs fs' r, m fs = (fs', r) -> R fs fs'.

(** the paragraphs of the text body of a shape *)
Definition paragraphsOf (sp : JsVal) : list JsVal :=
  match get sp ["p:txBody"%string] with
  | Some tx => concatArr (prop tx "a:p")
  | None => []
  end.

(** the paragraph holds no field ([a:fld]) *)
Definition noField (para : JsVal) : Prop := concatArr (prop para "a:fld") = [].

(** a paragraph with one run and one field *)
Definition paraWithField (t f : string) : JsVal :=
  JObj [("a:r"%string, JArr [JObj [("a:t"%string, JArr [JStr t])]]);
        ("a:fld"%string, JArr [JObj [("a:t"%string, JArr [JStr f])]])].

(** a notes document whose body shape holds the paragraphs [ps] *)
Definition notesDocOf (ps : list JsVal) : JsVal :=
  JObj [("p:notes"%string,
         JArr [JObj [("p:cSld"%string,
                      JArr [JObj [("p:spTree"%string,
                                   JArr [JObj [("p:sp"%string,
                                     JArr [JObj [("p:nvSpPr"%string,
                                                  JArr [JObj [("p:nvPr"%string,
                                                    JArr [JObj [("p:ph"%string,
                                                      JArr [JObj [("$"%string,
                                                        JObj [("idx"%string, JStr "1")])]])]])]]);
                                                 ("p:txBody"%string,
                                                  JArr [JObj [("a:p"%string, JArr ps)]])]])]])]])]])].

(** the [Relationship] elements that the loop over a manifest meets *)
Definition relationshipsOf (relsDoc : JsVal) : list JsVal :=
  match prop relsDoc "Relationships" with
  | Some v => concatArr (oprop (index0 v) "Relationship")
  | None => []
  end.

(** the entry [id -> zipPath] comes from the element [rel] of the
    manifest of [slideKey] *)
Definition relationshipEntry (slideKey : string) (rel : JsVal) (id zipPath : string) : Prop :=
  exists i t,
    oprop (prop rel "$") "Id" = Some i /\ oprop (prop rel "$") "Target" = Some t /\
    truthy i = true /\ truthy t = true /\
    id = toStr i /\ id <> "__proto__"%string /\
    zipPath = resolveZipPath slideKey (toStr t).

(** the item is a group, not a link *)
Definition isGroup (item : SidebarItem) : bool :=
  match item with
  | Group _ _ => true
  | Link _ _ => false
  end.

(** every link of the item, at any depth, starts with [pre] *)
Fixpoint linksUnder (pre : string) (item : SidebarItem) : bool :=
  match item with
  | Link _ l => Js.startsWith l pre
  | Group _ items => forallb (linksUnder pre) items
  end.

(** ** Output files (§6, §7) *)

(** the two states hold the same files with the same content; the
    directories may differ *)
Definition sameFiles (fs fs' : Node) : Prop :=
  forall p data, lookup fs' p = Some (File data) <-> lookup fs p = Some (File data).

(** A step of the conversion loop leaves no output for a conversion that
    throws: once the directories are prepared, the step ends in the state
    where the conversion started, counts a failure, and no file has been
    written, changed or removed since the step began. *)
Definition leavesNoOutput (step : IO (nat * nat)) (prepare : IO unit)
    (convert : IO string) (counts : nat * nat) : Prop :=
  forall fs fs1 e,
    prepare fs = (fs1, Ok tt) ->
    snd (convert fs1) = Throw e ->
    step fs = (fs1, Ok (fst counts, S (snd counts))) /\ sameFiles fs fs1.

(** A step of the conversion loop that counts a failure, whatever threw
    in its [try] block, has left every file as it was. *)
Definition failureLeavesFiles (step : IO (nat * nat)) (counts : nat * nat) : Prop :=
  forall fs fs',
    step fs = (fs', Ok (fst counts, S (snd counts))) -> sameFiles fs fs'.

(** what the status of a run tells: whether the input directory was
    there and, once the output directory is created, whether the walk of
    the input found a file to convert or to copy *)
Definition statusMeans (inputDir outDir : path) (fs : Node) (st : Status) : Prop :=
  match st with
  | InputMissing => lookup fs inputDir = None
  | NoFiles =>
      lookup fs inputDir <> None /\
      exists fs1 files, mkdirSync fs outDir = Ok fs1 /\
                        walk inputDir fs1 = (fs1, Ok files) /\
                        List.filter isInputFile files = []
  | Done _ _ =>
      lookup fs inputDir <> None /\
      exists fs1 files, mkdirSync fs outDir = Ok fs1 /\
                        walk inputDir fs1 = (fs1, Ok files) /\
                        List.filter isInputFile files <> []
  end.

(** the navigation index has just been written at the root of [outDir]
    from the listing of [outDir] *)
Definition sidebarWritten (build : Node -> string -> list SidebarItem)
    (outDir : path) (fs' : Node) : Prop :=
  exists fs0 entries,
    lookup fs0 outDir = Some (Dir entries) /\
    writeFileSync fs0 (outDir ++ ["sidebar.ts"%string])
      (sidebarSource (build (Dir entries) "/")) = Ok fs' /\
    lookup fs' (outDir ++ ["sidebar.ts"%string]) =
      Some (File (sidebarSource (build (Dir entries) "/"))).

(** ** Characters of a text *)

(** the character [c] occurs in [s] *)
Fixpoint hasChar (c : ascii) (s : string) : bool :=
  match s with
  | EmptyString => false
  | String a s' => Ascii.eqb a c || hasChar c s'
  end.

(** every character of [s] satisfies [p] *)
Fixpoint allChars (p : ascii -> bool) (s : string) : bool :=
  match s with
  | EmptyString => true
  | String a s' => p a && allChars p s'
  end.

(** a key of a parsed document that names no built-in property of a
    string, an array or an object: the name of an element with its
    prefix, or the [$] and [_] of the parser.  On such a key a lookup
    finds own properties only. *)
Definition xmlKey (k : string) : Prop :=
  hasChar ":" k = true \/ k = "$"%string \/ k = "_"%string.

(** a name that [slugify] has nothing to change in: only the characters
    of a slug, no dash at either end and no two dashes in a row *)
Definition cleanSlug (s : string) : Prop :=
  allChars slugSafe s = true /\
  Js.startsWith s "-" = false /\
  Js.endsWith s "-" = false /\
  forall x y, s <> (x +:+ "--" +:+ y)%string.

(** a paragraph with a text that is not blank and a negative level *)
Definition negativeLevel (para : JsVal) : Prop :=
  Js.isBlank (text (parseParagraph para)) = false /\
  exists z, level (parseParagraph para) = Some z /\ (z < 0)%Z.

(** a paragraph with the attribute [lvl] and one run that holds [t] *)
Definition paraAt (lvl t : string) : JsVal :=
  JObj [("a:pPr"%string, JArr [JObj [("$"%string, JObj [("lvl"%string, JStr lvl)])]]);
        ("a:r"%string, JArr [JObj [("a:t"%string, JArr [JStr t])]])].

(** the four quotients of a shape are taken over the slide size *)
Definition placedOn (slideW slideH : Z) (s : HtmlShape) : Prop :=
  pden (xPct s) = slideW /\ pden (wPct s) = slideW /\
  pden (yPct s) = slideH /\ pden (hPct s) = slideH.

(** * Properties *)

(** ** Strings and lists *)

Lemma split_not_nil c s : Js.split c s <> [].
Proof.
  destruct s as [|a s]; simpl; [discriminate|].
  destruct (Ascii.eqb a c); [discriminate|].
  destruct (Js.split c s); discriminate.
Qed.

Lemma split_no_slash s : hasSlash s = false -> Js.split "/" s = [s].
Proof.
  induction s as [|a s IH]; simpl; intros H; [reflexivity|].
  apply orb_false_iff in H as [Ha Hs].
  rewrite Ha, (IH Hs). reflexivity.
Qed.

Lemma split_has_slash s :
  hasSlash s = true -> exists h t, Js.split "/" s = h :: t /\ t <> [].
Proof.
  induction s as [|a s IH]; simpl; intros H; [discriminate|].
  destruct (Ascii.eqb a "/") eqn:Ha.
  - exists EmptyString, (Js.split "/" s). split; [reflexivity|apply split_not_nil].
  - simpl in H. destruct (IH H) as (h & t & -> & Ht).
    exists (String a h), t. split; [reflexivity|exact Ht].
Qed.

Lemma removelast_cons {A} (x : A) l : l <> [] -> removelast (x :: l) = x :: removelast l.
Proof. destruct l; [congruence|reflexivity]. Qed.

Lemma join_cons_char sep a h l :
  Js.join sep (String a h :: l) = String a (Js.join sep (h :: l)).
Proof. destruct l; reflexivity. Qed.

Lemma join_cons_sep sep x l :
  l <> [] -> Js.join sep (x :: l) = (x +:+ sep +:+ Js.join sep l)%string.
Proof. destruct l; [congruence|reflexivity]. Qed.

(** The directory that [resolveZipPath] computes with [split], [slice]
    and [join] is the directory portion of the key. *)
Lemma dir_is_dirPortion s :
  Js.join "/" (Js.slice_0_m1 (Js.split "/" s)) = dirPortion s.
Proof.
  unfold Js.slice_0_m1.
  induction s as [|a s IH]; [reflexivity|].
  cbn [Js.split dirPortion].
  destruct (hasSlash s) eqn:Hs.
  - destruct (split_has_slash s Hs) as (h & t & E & Ht).
    rewrite E in IH |- *.
    rewrite (removelast_cons h t Ht) in IH.
    destruct (Ascii.eqb a "/") eqn:Ha.
    + apply Ascii.eqb_eq in Ha; subst a.
      rewrite removelast_cons by discriminate.
      rewrite (removelast_cons h t Ht).
      rewrite join_cons_sep by discriminate. rewrite IH. reflexivity.
    + rewrite (removelast_cons _ t Ht), join_cons_char, IH. reflexivity.
  - rewrite (split_no_slash s Hs).
    destruct (Ascii.eqb a "/"); reflexivity.
Qed.

Lemma removelast_rev {A} (st : list A) :
  removelast (rev st) = rev (match st with [] => [] | _ :: below => below end).
Proof.
  destruct st as [|x st]; [reflexivity|].
  simpl. apply removelast_last.
Qed.

Lemma fold_resolve_stack parts : forall st,
  fold_left resolveStep parts (rev st) = rev (fold_left foldSegment parts st).
Proof.
  induction parts as [|p parts IH]; intros st; [reflexivity|].
  simpl. unfold resolveStep at 2, foldSegment at 2.
  destruct (String.eqb p "..").
  - rewrite removelast_rev. apply IH.
  - destruct (String.eqb p "."); simpl; [apply IH|].
    change (rev st ++ [p]) with (rev (p :: st)). apply IH.
Qed.

(** ** C6: path resolution *)

(** C6. Resolving ["../media/image1.png"] from ["ppt/slides/slide1.xml"]
    yields ["ppt/media/image1.png"], and on every input the resolver is
    the function that takes the directory portion of the base,
    concatenates the target, splits on the separator and folds the
    segments from left to right, [..] popping the last accumulated
    segment and [.] being dropped. *)
Theorem C6_resolveZipPath :
  resolveZipPath "ppt/slides/slide1.xml" "../media/image1.png" = "ppt/media/image1.png"%string
  /\ forall fromKey target, resolveZipPath fromKey target = resolveSpec fromKey target.
Proof.
  split; [reflexivity|].
  intros fromKey target. unfold resolveZipPath, resolveSpec.
  rewrite dir_is_dirPortion.
  rewrite <- fold_resolve_stack. reflexivity.
Qed.

(** ** C3: blank lines of a body block *)

Lemma sapp_assoc (a b c : string) : ((a +:+ b) +:+ c = a +:+ (b +:+ c))%string.
Proof. induction a as [|x a IH]; simpl; [reflexivity|now rewrite IH]. Qed.

Lemma sapp_nil_r (a : string) : (a +:+ "" = a)%string.
Proof. induction a as [|x a IH]; simpl; [reflexivity|now rewrite IH]. Qed.

Lemma mapM_app {A B} (f : A -> result B) l1 l2 :
  mapM f (l1 ++ l2) =
  (let* a := mapM f l1 in let* b := mapM f l2 in Ok (a ++ b)).
Proof.
  induction l1 as [|x l1 IH]; simpl.
  - destruct (mapM f l2); reflexivity.
  - destruct (f x) as [y|e]; simpl; [|reflexivity].
    rewrite IH. destruct (mapM f l1) as [ys|e]; simpl; [|reflexivity].
    destruct (mapM f l2); reflexivity.
Qed.

Lemma mapM_blank bs :
  Forall blankPara bs ->
  mapM paragraphLine bs = Ok (List.repeat ""%string (List.length bs)).
Proof.
  induction 1 as [|p bs Hp _ IH]; simpl; [reflexivity|].
  unfold paragraphLine at 1. rewrite Hp. simpl. rewrite IH. reflexivity.
Qed.

Lemma join_app sep l1 l2 :
  l1 <> [] -> l2 <> [] ->
  Js.join sep (l1 ++ l2) = (Js.join sep l1 +:+ sep +:+ Js.join sep l2)%string.
Proof.
  intros H1 H2. induction l1 as [|x l1 IH]; [congruence|].
  destruct l1 as [|y l1].
  - simpl. apply join_cons_sep. exact H2.
  - change ((x :: y :: l1) ++ l2) with (x :: (y :: l1) ++ l2).
    rewrite join_cons_sep by discriminate.
    rewrite IH by discriminate.
    rewrite (join_cons_sep sep x (y :: l1)) by discriminate.
    now rewrite !sapp_assoc.
Qed.

Lemma join_blank_lines k l :
  l <> [] ->
  Js.join Js.nl (List.repeat ""%string k ++ l) = (Js.repeat Js.nl k +:+ Js.join Js.nl l)%string.
Proof.
  intros Hl. induction k as [|k IH]; [reflexivity|].
  change (List.repeat ""%string (S k) ++ l) with (""%string :: (List.repeat ""%string k ++ l)).
  rewrite join_cons_sep.
  - rewrite IH. reflexivity.
  - destruct k; simpl; [exact Hl|discriminate].
Qed.

Lemma collapse_app_open s : forall n t,
  endsOpen s = true ->
  collapseFrom n (s +:+ t) = (collapseFrom n s +:+ collapseFrom 0 t)%string.
Proof.
  induction s as [|a s IH]; intros n t H; [discriminate|].
  destruct s as [|b s].
  - simpl in H. apply negb_true_iff in H. simpl. rewrite H.
    rewrite sapp_assoc. reflexivity.
  - change (endsOpen (String a (String b s))) with (endsOpen (String b s)) in H.
    change ((String a (String b s) +:+ t)%string) with (String a (String b s +:+ t)%string).
    cbn [collapseFrom]. fold collapseFrom.
    destruct (Ascii.eqb a Js.LF).
    + apply (IH (S n) t H).
    + change (collapseFrom n (String a (String b s))) with (collapseFrom n (String a (String b s))).
      rewrite (IH 0%nat t H). rewrite sapp_assoc. reflexivity.
Qed.

Lemma collapse_newlines m : forall n t,
  collapseFrom n (Js.repeat Js.nl m +:+ t) = collapseFrom (n + m) t.
Proof.
  induction m as [|m IH]; intros n t.
  - simpl. now rewrite Nat.add_0_r.
  - simpl. rewrite IH. f_equal. lia.
Qed.

Lemma collapse_open_start m t :
  startsOpen t = true ->
  collapseFrom m t = (flushNewlines m +:+ collapseFrom 0 t)%string.
Proof.
  destruct t as [|a t]; [discriminate|].
  simpl. intros H. apply negb_true_iff in H. rewrite H. reflexivity.
Qed.

Lemma endsOpen_repeat_nl n : endsOpen (Js.repeat Js.nl n) = false.
Proof.
  induction n as [|n IH]; [reflexivity|].
  simpl. destruct (Js.repeat Js.nl n); [reflexivity|exact IH].
Qed.

Lemma endsOpen_flush n : endsOpen (flushNewlines n) = false.
Proof.
  unfold flushNewlines. destruct (3 <=? n)%nat; [reflexivity|apply endsOpen_repeat_nl].
Qed.

Lemma endsOpen_app s t : t <> ""%string -> endsOpen (s +:+ t) = endsOpen t.
Proof.
  intros Ht. induction s as [|a s IH]; [reflexivity|].
  simpl. destruct (s +:+ t)%string eqn:E.
  - destruct s; simpl in E; [congruence|discriminate].
  - exact IH.
Qed.

Lemma collapse_empty_inv s : forall n, collapseFrom n s = ""%string -> s = ""%string.
Proof.
  induction s as [|a s IH]; intros n H; [reflexivity|].
  simpl in H. destruct (Ascii.eqb a Js.LF) eqn:Ha.
  - specialize (IH _ H). subst s. simpl in H. unfold flushNewlines in H.
    destruct (3 <=? S n)%nat; discriminate.
  - destruct (flushNewlines n); discriminate.
Qed.

Lemma endsOpen_collapse s : forall n, endsOpen (collapseFrom n s) = endsOpen s.
Proof.
  induction s as [|a s IH]; intros n; [apply endsOpen_flush|].
  cbn [collapseFrom]. destruct (Ascii.eqb a Js.LF) eqn:Ha.
  - rewrite IH. destruct s; [simpl; now rewrite Ha|reflexivity].
  - rewrite endsOpen_app by discriminate.
    destruct s as [|b s].
    + simpl. now rewrite Ha.
    + change (endsOpen (String a (String b s))) with (endsOpen (String b s)).
      rewrite <- (IH 0%nat).
      destruct (collapseFrom 0 (String b s)) eqn:E; [|reflexivity].
      apply collapse_empty_inv in E. discriminate.
Qed.

Lemma startsOpen_collapse_pending s : forall n, startsOpen (collapseFrom (S n) s) = false.
Proof.
  induction s as [|a s IH]; intros n.
  - simpl. unfold flushNewlines. destruct (3 <=? S n)%nat; reflexivity.
  - simpl. destruct (Ascii.eqb a Js.LF); [apply IH|].
    unfold flushNewlines. destruct (3 <=? S n)%nat; reflexivity.
Qed.

Lemma startsOpen_collapse s : startsOpen (collapseFrom 0 s) = startsOpen s.
Proof.
  destruct s as [|a s]; [reflexivity|].
  simpl. destruct (Ascii.eqb a Js.LF) eqn:Ha; [apply startsOpen_collapse_pending|].
  simpl. now rewrite Ha.
Qed.

Lemma tripleLF_cons_LF run t :
  tripleLF run (String Js.LF t) = ((2 <=? run)%nat || tripleLF (S run) t).
Proof. reflexivity. Qed.

Lemma flush_cases n t :
  (flushNewlines n +:+ t)%string =
  match n with
  | 0%nat => t
  | 1%nat => String Js.LF t
  | _ => String Js.LF (String Js.LF t)
  end.
Proof. destruct n as [|[|[|n]]]; reflexivity. Qed.

Lemma tripleLF_flush n run t :
  (run + Nat.min n 2 <= 2)%nat ->
  startsOpen t = true \/ t = ""%string ->
  tripleLF run (flushNewlines n +:+ t) = tripleLF 0 t.
Proof.
  intros Hn Ht. rewrite flush_cases.
  assert (E0 : forall r, tripleLF r t = tripleLF 0 t).
  { intros r. destruct Ht as [Ht| ->]; [|reflexivity].
    destruct t as [|a t]; [discriminate|]. simpl in *.
    apply negb_true_iff in Ht. now rewrite Ht. }
  destruct n as [|[|n]].
  - apply E0.
  - rewrite tripleLF_cons_LF.
    replace (2 <=? run)%nat with false by (symmetry; apply Nat.leb_gt; simpl in Hn; lia).
    apply E0.
  - rewrite !tripleLF_cons_LF.
    assert (run = 0)%nat as -> by (simpl in Hn; lia).
    apply E0.
Qed.

(** No three line feeds in a row are left in a block: every run of three
    or more line feeds has been collapsed. *)
Lemma collapse_no_triple s : forall n, tripleLF 0 (collapseFrom n s) = false.
Proof.
  induction s as [|a s IH]; intros n.
  - simpl. rewrite <- (sapp_nil_r (flushNewlines n)).
    rewrite tripleLF_flush; [reflexivity|simpl; lia|now right].
  - simpl. destruct (Ascii.eqb a Js.LF) eqn:Ha; [apply IH|].
    rewrite tripleLF_flush; [|simpl; lia|left; simpl; now rewrite Ha].
    simpl. rewrite Ha. apply IH.
Qed.

Lemma markdown_lines ps out :
  paragraphsToMarkdown ps = Ok out ->
  exists lines, mapM paragraphLine ps = Ok lines /\
                out = collapseNewlines (Js.join Js.nl lines).
Proof.
  unfold paragraphsToMarkdown. destruct (mapM paragraphLine ps) as [lines|e]; simpl.
  - intros [= <-]. now exists lines.
  - discriminate.
Qed.

(** C3 (as amended). In the block rendered for a list of paragraphs, a run
    of blank paragraphs that stands between a text that does not end with
    a line feed and a text that does not start with one is rendered as
    exactly one blank line as soon as the run has a blank paragraph: a
    single blank line is kept, two or more consecutive blank lines
    collapse to one, and no blank paragraph leaves the single line feed
    that separates two lines. *)
Theorem C3_blank_runs (ps bs qs : list JsVal) (a b : string) :
  paragraphsToMarkdown ps = Ok a ->
  paragraphsToMarkdown qs = Ok b ->
  Forall blankPara bs ->
  endsOpen a = true ->
  startsOpen b = true ->
  paragraphsToMarkdown (ps ++ bs ++ qs) =
  Ok (a +:+ match bs with
            | [] => Js.nl
            | _ => Js.nl +:+ Js.nl
            end +:+ b)%string.
Proof.
  intros Ha Hb Hbs Hea Hsb.
  destruct (markdown_lines _ _ Ha) as (lp & Hlp & ->).
  destruct (markdown_lines _ _ Hb) as (lq & Hlq & ->).
  unfold collapseNewlines in *.
  rewrite endsOpen_collapse in Hea. rewrite startsOpen_collapse in Hsb.
  assert (Hp : lp <> []) by (intros ->; discriminate).
  assert (Hq : lq <> []) by (intros ->; discriminate).
  unfold paragraphsToMarkdown.
  rewrite !mapM_app, Hlp, Hlq, (mapM_blank bs Hbs). simpl.
  f_equal. unfold collapseNewlines.
  rewrite join_app; [|exact Hp|destruct (List.length bs); simpl; [exact Hq|discriminate]].
  rewrite join_blank_lines by exact Hq.
  rewrite collapse_app_open by exact Hea. f_equal.
  change (Js.nl +:+ Js.repeat Js.nl (List.length bs) +:+ Js.join Js.nl lq)%string
    with (Js.repeat Js.nl (S (List.length bs)) +:+ Js.join Js.nl lq)%string.
  rewrite collapse_newlines. simpl.
  rewrite collapse_open_start by exact Hsb. f_equal.
  destruct bs as [|x [|y bs]]; reflexivity.
Qed.

Lemma C3_blank_runs_witness :
  paragraphsToMarkdown [paraOf "a"] = Ok "- a"%string /\
  paragraphsToMarkdown [paraOf "b"] = Ok "- b"%string /\
  Forall blankPara [emptyPara; emptyPara] /\
  paragraphsToMarkdown ([paraOf "a"] ++ [emptyPara; emptyPara] ++ [paraOf "b"]) =
  Ok ("- a" +:+ (Js.nl +:+ Js.nl) +:+ "- b")%string.
Proof.
  assert (Hb : Forall blankPara [emptyPara; emptyPara])
    by (repeat constructor).
  split; [reflexivity|]. split; [reflexivity|]. split; [exact Hb|].
  apply (C3_blank_runs [paraOf "a"] [emptyPara; emptyPara] [paraOf "b"] "- a" "- b");
    [reflexivity|reflexivity|exact Hb|reflexivity|reflexivity].
Defined.

(** C3, as stated, fails: two consecutive blank lines (a run of fewer than
    three) do not stay as they are, the block keeps only one of them. *)
Lemma C3_counterexample :
  mapM paragraphLine [paraOf "a"; emptyPara; emptyPara; paraOf "b"] =
    Ok ["- a"; ""; ""; "- b"]%string /\
  squeezeLines 3 0 ["- a"; ""; ""; "- b"]%string = ["- a"; ""; ""; "- b"]%string /\
  paragraphsToMarkdown [paraOf "a"; emptyPara; emptyPara; paraOf "b"] =
    Ok (Js.join Js.nl ["- a"; ""; "- b"]%string) /\
  paragraphsToMarkdown [paraOf "a"; emptyPara; emptyPara; paraOf "b"] <>
    Ok (Js.join Js.nl (squeezeLines 3 0 ["- a"; ""; ""; "- b"]%string)).
Proof.
  repeat split; try reflexivity.
  vm_compute. discriminate.
Qed.

(** ** C4: the title of a slide *)

Lemma parseSlideDoc_shapes slideDoc :
  parseSlideDoc slideDoc = parseShapes (slideTextNodes slideDoc).
Proof.
  unfold parseSlideDoc, slideTextNodes.
  destruct (get slideDoc _) as [spTree|]; [|reflexivity].
  destruct (truthy spTree); reflexivity.
Qed.

Lemma foldM_app {A S} (f : S -> A -> result S) l1 l2 s :
  foldM f (l1 ++ l2) s = (let* s' := foldM f l1 s in foldM f l2 s').
Proof.
  revert s. induction l1 as [|x l1 IH]; intros s; simpl; [reflexivity|].
  destruct (f s x); simpl; [apply IH|reflexivity].
Qed.

Lemma join_nonempty sep x l : nonEmpty x = true -> nonEmpty (Js.join sep (x :: l)) = true.
Proof.
  destruct x as [|a x]; [discriminate|]. intros _.
  rewrite join_cons_char. reflexivity.
Qed.

Lemma titleText_nonempty sp : isTitleShape sp = true -> nonEmpty (titleText sp) = true.
Proof.
  unfold isTitleShape, titleText, textsOfShape. intros H.
  apply andb_true_iff in H as [_ H].
  destruct (get sp _) as [tx|]; [|discriminate].
  destruct (truthy tx); [|discriminate].
  unfold shapeTexts in *.
  destruct (List.filter nonEmpty _) as [|x l] eqn:E; [discriminate|].
  apply join_nonempty.
  assert (Hin : In x (List.filter nonEmpty
                        (map (fun p => text (parseParagraph p)) (concatArr (prop tx "a:p")))))
    by (rewrite E; now left).
  apply filter_In in Hin. tauto.
Qed.

Ltac same_blocks := simpl; rewrite ?app_nil_r; reflexivity.

(** A shape that is not taken as the title goes through the body path. *)
Lemma step_body acc sp :
  nonEmpty (title acc) = true \/ isTitleShape sp = false ->
  slideDocStep acc sp =
  (let* b := bodyBlocksOf sp in
   Ok {| title := title acc; bodyBlocks := bodyBlocks acc ++ b |}).
Proof.
  intros H. destruct acc as [ttl blocks]. simpl in H.
  unfold slideDocStep, bodyBlocksOf, isTitleShape, textsOfShape in *. simpl.
  destruct (get sp ["p:txBody"%string]) as [tx|]; [|same_blocks].
  destruct (truthy tx); simpl; [|same_blocks].
  destruct (shapeTexts (concatArr (prop tx "a:p"))) as [|t ts]; [same_blocks|].
  assert (Hc : isTitleType (phTypeOf sp) && negb (nonEmpty ttl) = false).
  { destruct H as [H|H].
    - rewrite H. apply andb_false_r.
    - rewrite andb_true_r in H. now rewrite H. }
  rewrite Hc.
  destruct (paragraphsToMarkdown (concatArr (prop tx "a:p"))) as [block|e]; simpl; [|reflexivity].
  destruct (Js.isBlank block); same_blocks.
Qed.

(** The first title shape gives the title, and no body block. *)
Lemma step_title acc sp :
  nonEmpty (title acc) = false -> isTitleShape sp = true ->
  slideDocStep acc sp = Ok {| title := titleText sp; bodyBlocks := bodyBlocks acc |}.
Proof.
  intros Ht H. unfold slideDocStep, isTitleShape, titleText, textsOfShape in *.
  apply andb_true_iff in H as [Hty H].
  destruct (get sp ["p:txBody"%string]) as [tx|]; [|discriminate].
  destruct (truthy tx); [|discriminate]. simpl.
  destruct (shapeTexts (concatArr (prop tx "a:p"))) as [|t ts]; [discriminate|].
  now rewrite Hty, Ht.
Qed.

Lemma fold_body l : forall acc,
  nonEmpty (title acc) = true \/ Forall (fun sp => isTitleShape sp = false) l ->
  foldM slideDocStep l acc =
  (let* b := bodyBlocksOfAll l in
   Ok {| title := title acc; bodyBlocks := bodyBlocks acc ++ b |}).
Proof.
  induction l as [|sp l IH]; intros acc H.
  - simpl. rewrite app_nil_r. now destruct acc.
  - simpl. rewrite step_body.
    2:{ destruct H as [H|H]; [now left|right; now inversion H]. }
    unfold bodyBlocksOfAll. simpl.
    destruct (bodyBlocksOf sp) as [b|e]; simpl; [|reflexivity].
    rewrite IH.
    2:{ simpl. destruct H as [H|H]; [now left|right; now inversion H]. }
    unfold bodyBlocksOfAll. simpl.
    destruct (mapM bodyBlocksOf l) as [bs|e]; simpl; [|reflexivity].
    now rewrite app_assoc.
Qed.

(** Without a title shape the title stays empty and every shape is
    rendered as body content. *)
Lemma no_title_shape slideDoc :
  Forall (fun s => isTitleShape s = false) (slideTextNodes slideDoc) ->
  parseSlideDoc slideDoc =
  (let* b := bodyBlocksOfAll (slideTextNodes slideDoc) in
   Ok {| title := ""; bodyBlocks := b |}).
Proof.
  intros H. rewrite parseSlideDoc_shapes. unfold parseShapes.
  rewrite fold_body by (right; exact H). reflexivity.
Qed.

(** C4. The title of a slide is the extracted text of the first shape, in
    shape order, that is title-typed ([title], [ctrTitle] or [subTitle])
    with a non-empty extracted text; every other shape, the title-typed
    shapes that follow included, is rendered as body content. *)
Theorem C4_first_title (slideDoc : JsVal) (before after : list JsVal) (sp : JsVal) :
  slideTextNodes slideDoc = before ++ sp :: after ->
  Forall (fun s => isTitleShape s = false) before ->
  isTitleShape sp = true ->
  parseSlideDoc slideDoc =
  (let* b1 := bodyBlocksOfAll before in
   let* b2 := bodyBlocksOfAll after in
   Ok {| title := titleText sp; bodyBlocks := b1 ++ b2 |}).
Proof.
  intros Hs Hb Ht.
  rewrite parseSlideDoc_shapes, Hs. unfold parseShapes.
  rewrite foldM_app. rewrite fold_body by (right; exact Hb). simpl.
  destruct (bodyBlocksOfAll before) as [b1|e]; simpl; [|reflexivity].
  rewrite step_title by (exact Ht || reflexivity). simpl.
  rewrite fold_body by (left; simpl; now apply titleText_nonempty). simpl.
  destruct (bodyBlocksOfAll after); reflexivity.
Qed.

Lemma C4_first_title_witness :
  let intro := shapeOf None ["Intro text"%string] in
  let ttl := shapeOf (Some "title"%string) ["Hello"%string] in
  let sub := shapeOf (Some "subTitle"%string) ["World"%string] in
  let doc := slideDocOf [intro; ttl; sub] [] in
  slideTextNodes doc = [intro] ++ ttl :: [sub] /\
  Forall (fun s => isTitleShape s = false) [intro] /\
  isTitleShape ttl = true /\
  isTitleShape sub = true /\
  parseSlideDoc doc = Ok {| title := "Hello"; bodyBlocks := ["- Intro text"; "- World"]%string |}.
Proof.
  intros intro ttl sub doc.
  assert (Hb : Forall (fun s => isTitleShape s = false) [intro]) by (repeat constructor).
  split; [reflexivity|]. split; [exact Hb|]. split; [reflexivity|]. split; [reflexivity|].
  exact (C4_first_title doc [intro] [sub] ttl eq_refl Hb eq_refl).
Defined.

(** ** C5: one section per slide entry, in numeric order *)

Lemma insertSorted_perm {A} (cmp : A -> A -> Z) x l :
  Permutation (insertSorted cmp x l) (x :: l).
Proof.
  induction l as [|y l IH]; simpl; [reflexivity|].
  destruct (cmp x y <=? 0)%Z; [reflexivity|].
  rewrite IH. apply perm_swap.
Qed.

Lemma sortBy_perm {A} (cmp : A -> A -> Z) l : Permutation (sortBy cmp l) l.
Proof.
  induction l as [|x l IH]; simpl; [reflexivity|].
  rewrite insertSorted_perm. now constructor.
Qed.

Section SortedByKey.
Context {A : Type} (key : A -> Z).
Let cmp (a b : A) : Z := (key a - key b)%Z.
Let le (a b : A) : Prop := (key a <= key b)%Z.

Lemma insertSorted_sorted x l :
  StronglySorted le l -> StronglySorted le (insertSorted cmp x l).
Proof.
  induction 1 as [|y l Hs IH Hy]; simpl.
  - repeat constructor.
  - subst cmp; simpl in *. destruct (key x - key y <=? 0)%Z eqn:E.
    + apply Z.leb_le in E. constructor; [now constructor|].
      constructor; [unfold le; lia|].
      eapply List.Forall_impl; [|exact Hy]. unfold le. intros; lia.
    + apply Z.leb_gt in E. constructor; [exact IH|].
      eapply Permutation_Forall; [symmetry; apply insertSorted_perm|].
      constructor; [unfold le; lia|exact Hy].
Qed.

Lemma sortBy_sorted l : StronglySorted le (sortBy cmp l).
Proof.
  induction l as [|x l IH]; simpl; [constructor|now apply insertSorted_sorted].
Qed.
End SortedByKey.

Lemma mapM_Forall2 {A B} (f : A -> result B) l r :
  mapM f l = Ok r -> Forall2 (fun x y => f x = Ok y) l r.
Proof.
  revert r. induction l as [|x l IH]; simpl; intros r H.
  - injection H as <-. constructor.
  - destruct (f x) as [y|] eqn:E; [|discriminate]. simpl in H.
    destruct (mapM f l) as [ys|]; [|discriminate]. simpl in H.
    injection H as <-. constructor; [exact E|now apply IH].
Qed.

Lemma indexed_length {A} (l : list A) i : List.length (indexed i l) = List.length l.
Proof. revert i. induction l as [|x l IH]; intros i; simpl; [reflexivity|now rewrite IH]. Qed.

Lemma prefix_drop p : forall s,
  String.prefix p s = true -> s = (p +:+ Js.drop (String.length p) s)%string.
Proof.
  induction p as [|a p IH]; intros s H; [reflexivity|].
  destruct s as [|b s]; [discriminate|]. simpl in H.
  destruct (ascii_dec a b) as [->|]; [|discriminate].
  simpl. f_equal. now apply IH.
Qed.

Lemma spanDigits_app s : forall d r,
  Js.spanDigits s = (d, r) -> s = (d +:+ r)%string.
Proof.
  induction s as [|a s IH]; simpl; intros d r H.
  - now injection H as <- <-.
  - destruct (Js.isDigit a).
    + destruct (Js.spanDigits s) as [d' r']. injection H as <- <-.
      simpl. f_equal. now apply IH.
    + now injection H as <- <-.
Qed.

Lemma match_skip a s :
  Js.startsWith (String a s) "slide" = false ->
  matchSlideDigits (String a s) = matchSlideDigits s.
Proof. intros H. cbn [matchSlideDigits]. now rewrite H. Qed.

Lemma match_retry a s :
  fst (Js.spanDigits (Js.drop 5 (String a s))) = ""%string ->
  matchSlideDigits (String a s) = matchSlideDigits s.
Proof.
  intros H. cbn [matchSlideDigits].
  destruct (Js.startsWith (String a s) "slide"); [|reflexivity].
  destruct (Js.spanDigits (Js.drop 5 (String a s))) as [d r].
  simpl in H. now subst d.
Qed.

Lemma match_hit a s d r :
  Js.startsWith (String a s) "slide" = true ->
  Js.spanDigits (Js.drop 5 (String a s)) = (d, r) ->
  nonEmpty d = true ->
  matchSlideDigits (String a s) = Some d.
Proof. intros H E Hd. cbn [matchSlideDigits]. now rewrite H, E, Hd. Qed.

Lemma match_slide_key rest d r :
  Js.spanDigits rest = (d, r) -> nonEmpty d = true ->
  matchSlideDigits ("ppt/slides/slide" +:+ rest)%string = Some d.
Proof.
  intros E Hd.
  destruct rest as [|c rest]; [simpl in E; injection E as <- <-; discriminate|].
  cbn [String.append].
  do 4 (rewrite match_skip by reflexivity).
  rewrite match_retry by reflexivity.
  do 6 (rewrite match_skip by reflexivity).
  apply (match_hit _ _ d r); [reflexivity|exact E|exact Hd].
Qed.

(** A key that passes the filter is [ppt/slides/slide<digits>.xml], and
    the number it is sorted by is the value of these digits. *)
Lemma slide_key_number k :
  isSlideKey k = true ->
  exists d, k = ("ppt/slides/slide" +:+ d +:+ ".xml")%string /\
            nonEmpty d = true /\
            Js.spanDigits (d +:+ ".xml")%string = (d, ".xml"%string) /\
            slideDigitsValue k = Js.digitsValue 0 d.
Proof.
  unfold isSlideKey, Js.startsWith. intros H.
  apply andb_true_iff in H as [Hp H].
  apply prefix_drop in Hp.
  destruct (Js.spanDigits (Js.drop _ k)) as [d r] eqn:E.
  apply andb_true_iff in H as [Hd Hr]. apply String.eqb_eq in Hr. subst r.
  pose proof (spanDigits_app _ _ _ E) as Hk. rewrite Hk in E, Hp.
  exists d. split; [exact Hp|]. split; [exact Hd|]. split; [exact E|].
  clear Hk. subst k. unfold slideDigitsValue.
  now rewrite (match_slide_key _ _ _ E Hd).
Qed.

Lemma slideKeys_perm zip :
  Permutation (slideKeys zip) (List.filter isSlideKey (zipKeys zip)).
Proof. apply sortBy_perm. Qed.

Lemma slideKeys_sorted zip :
  StronglySorted (fun a b => (slideNumOf a <= slideNumOf b)%Z) (slideKeys zip).
Proof. apply (sortBy_sorted slideNumOf). Qed.

Lemma mapM_returns {A B} (f : A -> result B) l :
  Forall (fun x => exists y, f x = Ok y) l -> exists r, mapM f l = Ok r.
Proof.
  induction 1 as [|x l [y Hy] _ [r Hr]]; simpl; [eauto|].
  rewrite Hy, Hr. simpl. eauto.
Qed.

(** The conversion of a deck returns as soon as each of its slide entries
    renders. *)
Lemma convertPptxZip_returns parseStringPromise zip :
  Forall (fun ik => exists s, renderSection parseStringPromise zip ik = Ok s)
         (indexed 0 (slideKeys zip)) ->
  exists md, convertPptxZip parseStringPromise zip = Ok md.
Proof.
  intros H. unfold convertPptxZip, convertPptxSections.
  destruct (mapM_returns _ _ H) as [sections ->]. simpl. eauto.
Qed.

Lemma toNumber_small z : (z < 2 ^ 53)%Z -> Js.toNumber z = z.
Proof. intros H. unfold Js.toNumber. apply Z.ltb_lt in H. now rewrite H. Qed.

Lemma sorted_by_digits l :
  Forall (fun k => (slideDigitsValue k < 2 ^ 53)%Z) l ->
  StronglySorted (fun a b => (slideNumOf a <= slideNumOf b)%Z) l ->
  StronglySorted (fun a b => (slideDigitsValue a <= slideDigitsValue b)%Z) l.
Proof.
  intros Hs H. induction H as [|x l _ IH Hx]; [constructor|].
  inversion Hs as [|? ? Hsx Hsl]; subst. constructor; [now apply IH|].
  rewrite List.Forall_forall in Hx, Hsl |- *. intros y Hy.
  specialize (Hx y Hy). unfold slideNumOf in Hx.
  now rewrite !toNumber_small in Hx by auto.
Qed.

(** C5 (as amended). When [convertPptx] returns for a file, the file
    holds a package that opens, and the Markdown output is the sections
    joined by the separator, with exactly one section per entry of the
    package that matches [ppt/slides/slide<digits>.xml]: the section at
    position [i] renders the [i]-th of these entries in ascending order
    of the Number that [parseInt] reads from the digits of the entry
    name, which is the ascending order of the numbers themselves when
    they are below 2^53. *)
Theorem C5_sections_in_parsed_order
    (loadAsync : string -> result Zip) (parseStringPromise : string -> result JsVal)
    (filePath : path) (fs fs' : Node) (md : string) :
  convertPptx loadAsync parseStringPromise filePath fs = (fs', Ok md) ->
  exists raw zip sections,
    readFileSync fs filePath = Ok raw /\ loadAsync raw = Ok zip /\
    md = Js.join sectionSeparator sections /\
    List.length sections = List.length (List.filter isSlideKey (zipKeys zip)) /\
    Forall2 (fun ik s => renderSection parseStringPromise zip ik = Ok s)
            (indexed 0 (slideKeys zip)) sections /\
    Permutation (slideKeys zip) (List.filter isSlideKey (zipKeys zip)) /\
    StronglySorted (fun a b => (slideNumOf a <= slideNumOf b)%Z) (slideKeys zip) /\
    (forall k, In k (slideKeys zip) ->
       exists d, k = ("ppt/slides/slide" +:+ d +:+ ".xml")%string /\
                 nonEmpty d = true /\
                 Js.spanDigits (d +:+ ".xml")%string = (d, ".xml"%string) /\
                 slideNumOf k = Js.toNumber (Js.digitsValue 0 d)) /\
    (Forall (fun k => (slideDigitsValue k < 2 ^ 53)%Z) (slideKeys zip) ->
     StronglySorted (fun a b => (slideDigitsValue a <= slideDigitsValue b)%Z)
       (slideKeys zip)).
Proof.
  unfold convertPptx, bind, liftR. intros H.
  destruct (readFileSync fs filePath) as [raw|e] eqn:Er; [|discriminate].
  destruct (loadAsync raw) as [zip|e] eqn:Ez; [|discriminate].
  injection H as _ H. exists raw, zip.
  unfold convertPptxZip, convertPptxSections in H.
  destruct (mapM _ _) as [sections|e] eqn:E; [|discriminate].
  simpl in H. injection H as <-.
  pose proof (mapM_Forall2 _ _ _ E) as HF.
  exists sections. split; [first [reflexivity|exact Er]|].
  split; [first [reflexivity|exact Ez]|].
  split; [reflexivity|]. split.
  - rewrite <- (Forall2_length _ _ _ HF), indexed_length.
    apply Permutation_length, slideKeys_perm.
  - split; [exact HF|]. split; [apply slideKeys_perm|]. split; [apply slideKeys_sorted|].
    split.
    + intros k Hk.
      apply (Permutation_in _ (slideKeys_perm zip)) in Hk.
      apply filter_In in Hk as [_ Hk].
      destruct (slide_key_number k Hk) as (d & E1 & E2 & E3 & E4).
      exists d. unfold slideNumOf. rewrite E4. auto.
    + intros Hs. apply sorted_by_digits; [exact Hs|apply slideKeys_sorted].
Qed.

Lemma C5_sections_in_parsed_order_witness :
  let docs := [ ("ten"%string, slideDocOf [shapeOf (Some "title"%string) ["Ten"%string]] []);
                ("two"%string, slideDocOf [shapeOf (Some "title"%string) ["Two"%string]] []) ] in
  let zip := [ ("ppt/slides/slide10.xml"%string, textEntry "ten");
               ("ppt/slides/slide2.xml"%string, textEntry "two");
               ("ppt/media/image1.png"%string, textEntry "png") ] in
  let fs := Dir [("deck.pptx"%string, File "raw")] in
  let md := ("## Two" +:+ sectionSeparator +:+ "## Ten")%string in
  convertPptx (fun _ => Ok zip) (parseTable docs) ["deck.pptx"%string] fs = (fs, Ok md) /\
  slideKeys zip = ["ppt/slides/slide2.xml"; "ppt/slides/slide10.xml"]%string /\
  exists raw zip' sections,
    readFileSync fs ["deck.pptx"%string] = Ok raw /\ Ok zip = Ok zip' /\
    md = Js.join sectionSeparator sections /\
    List.length sections = List.length (List.filter isSlideKey (zipKeys zip')).
Proof.
  intros docs zip fs md.
  assert (H : convertPptx (fun _ => Ok zip) (parseTable docs) ["deck.pptx"%string] fs
              = (fs, Ok md)) by reflexivity.
  split; [exact H|]. split; [reflexivity|].
  destruct (C5_sections_in_parsed_order (fun _ => Ok zip) (parseTable docs)
              ["deck.pptx"%string] fs fs md H)
    as (raw & zip' & sections & Hr & Hz & Hmd & Hlen & _).
  exists raw, zip', sections. auto.
Defined.

(** C5, as stated, fails: two entries whose numbers differ above 2^53
    only are read as the same Number, and keep the order in which the
    package lists them.  The section of the entry numbered
    9007199254740993 comes before the section of the entry numbered
    9007199254740992. *)
Lemma C5_counterexample :
  let docs := [ ("a"%string, slideDocOf [shapeOf (Some "title"%string) ["A"%string]] []);
                ("b"%string, slideDocOf [shapeOf (Some "title"%string) ["B"%string]] []) ] in
  let zip := [ ("ppt/slides/slide9007199254740993.xml"%string, textEntry "a");
               ("ppt/slides/slide9007199254740992.xml"%string, textEntry "b") ] in
  let fs := Dir [("deck.pptx"%string, File "raw")] in
  convertPptx (fun _ => Ok zip) (parseTable docs) ["deck.pptx"%string] fs
    = (fs, Ok ("## A" +:+ sectionSeparator +:+ "## B")%string) /\
  slideKeys zip = ["ppt/slides/slide9007199254740993.xml";
                   "ppt/slides/slide9007199254740992.xml"]%string /\
  slideDigitsValue "ppt/slides/slide9007199254740993.xml" = 9007199254740993%Z /\
  slideDigitsValue "ppt/slides/slide9007199254740992.xml" = 9007199254740992%Z /\
  slideNumOf "ppt/slides/slide9007199254740993.xml" = 9007199254740992%Z /\
  ~ StronglySorted (fun a b => (slideDigitsValue a <= slideDigitsValue b)%Z) (slideKeys zip).
Proof.
  intros docs zip fs.
  assert (K : slideKeys zip = ["ppt/slides/slide9007199254740993.xml";
                               "ppt/slides/slide9007199254740992.xml"]%string)
    by (vm_compute; reflexivity).
  split; [vm_compute; reflexivity|]. split; [exact K|].
  split; [vm_compute; reflexivity|]. split; [vm_compute; reflexivity|].
  split; [vm_compute; reflexivity|].
  rewrite K. intros H. inversion H as [|? ? _ Hx]; subst.
  inversion Hx as [|? ? Hle _]; subst. vm_compute in Hle. now apply Hle.
Qed.

(** ** C7: pictures that cannot be resolved *)

(** A picture that cannot be resolved is dropped, as long as neither its
    identifier nor the path it resolves to names a member of
    [Object.prototype]. *)
Lemma pictureShape_unresolved rels mediaCache slideW slideH pic :
  unresolvedPicture rels mediaCache pic ->
  (forall rId, embedId pic = Some rId -> protoMember (toStr rId) = None) ->
  (forall rId zipPath, embedId pic = Some rId -> rels !! toStr rId = Some zipPath ->
                       protoMember zipPath = None) ->
  pictureShape rels mediaCache slideW slideH pic = [].
Proof.
  unfold unresolvedPicture, pictureShape, pictureDataUri, dictGet. intros H Hi Hp.
  destruct (getTransform pic slideW slideH); [|reflexivity].
  destruct (embedId pic) as [rId|]; [|reflexivity].
  specialize (Hi rId eq_refl). specialize (Hp rId).
  destruct H as [H|[H|(zipPath & H1 & H2)]].
  - now rewrite H.
  - rewrite H, Hi. now destruct (truthy rId).
  - rewrite H1, H2, (Hp zipPath eq_refl H1). destruct (truthy rId); simpl; [|reflexivity].
    now destruct (nonEmpty zipPath).
Qed.


(** ** C1: the relationship map of a slide *)

(** When the parser gives the root element itself (and not an array that
    wraps it), [relsDoc.Relationships[0]] is undefined and the map stays
    empty. *)
Lemma relsOfDoc_root_object slideKey fields :
  assoc "0" fields = None ->
  relsOfDoc slideKey (JObj [("Relationships"%string, JObj fields)]) = ∅.
Proof. intros H. unfold relsOfDoc. simpl. rewrite H. reflexivity. Qed.

(** C1 (the code departs from the claim). In a deck with the slides 1 and
    3, slide 3 stands at position 2 and the loop reads the manifest
    [ppt/slides/_rels/slide2.xml.rels]: the relationship map of
    [slide3.xml] is empty whatever its own manifest holds, and its picture
    is dropped although its own manifest resolves it. *)
Theorem C1_gap_deck_reads_other_manifest :
  (forall (parseStringPromise : string -> result JsVal) (manifest : string),
     indexed 0 (slideKeys (gapDeck manifest)) =
       [(0%nat, "ppt/slides/slide1.xml"%string); (1%nat, "ppt/slides/slide3.xml"%string)] /\
     assoc "ppt/slides/_rels/slide3.xml.rels" (gapDeck manifest) = Some (textEntry manifest) /\
     relKeyOf 2 = "ppt/slides/_rels/slide2.xml.rels"%string /\
     loadRels parseStringPromise (gapDeck manifest) "ppt/slides/slide3.xml" 2 = Ok ∅) /\
  convertPptxToHtmlSlides (parseTable gapDocs) (gapDeck "rels-3") =
    Ok (9144000%Z, 6858000%Z,
        [ {| background := ""; shapes := []; notes := "" |};
          {| background := ""; shapes := []; notes := "" |} ]) /\
  relsOfDoc "ppt/slides/slide3.xml" (relsDocOf "rId1" "../media/image1.png") !! "rId1"%string
    = Some "ppt/media/image1.png"%string /\
  List.length
    (shapes (parseSlide (slideDocOf [] [picOf "rId1"])
               (relsOfDoc "ppt/slides/slide3.xml" (relsDocOf "rId1" "../media/image1.png"))
               (loadMedia (gapDeck "rels-3")) 9144000 6858000)) = 1%nat.
Proof.
  split; [|repeat split; reflexivity].
  intros parse manifest. repeat split; reflexivity.
Qed.

(** ** C10: entries of the sidebar *)

Lemma filter_map_comm {A B} (f : A -> B) (p : B -> bool) l :
  List.filter p (map f l) = map f (List.filter (fun x => p (f x)) l).
Proof.
  induction l as [|x l IH]; simpl; [reflexivity|].
  destruct (p (f x)); simpl; now rewrite IH.
Qed.

Lemma filter_idem {A} (p : A -> bool) l :
  List.filter p (List.filter p l) = List.filter p l.
Proof.
  induction l as [|x l IH]; simpl; [reflexivity|].
  destruct (p x) eqn:E; simpl; [rewrite E|]; now rewrite IH.
Qed.

Section SidebarProperties.
Variable localeCompare : string -> string -> Z.
Variables (keep : string -> bool) (xlsx : bool).
Let build := buildItemsWith localeCompare keep xlsx.

Lemma buildItems_unfold entries urlBase :
  build (Dir entries) urlBase =
  flat_map (itemsOfEntry xlsx urlBase)
    (sortBy (compareDirents localeCompare)
       (List.filter (fun d => keep (name d)) (map (direntOf build urlBase) entries))).
Proof. reflexivity. Qed.

Lemma buildItems_In entries urlBase item :
  In item (build (Dir entries) urlBase) <->
  exists e, In e entries /\ keep (fst e) = true /\
            In item (itemsOfEntry xlsx urlBase (direntOf build urlBase e)).
Proof.
  rewrite buildItems_unfold, in_flat_map. split.
  - intros (d & Hd & Hi).
    apply (Permutation_in _ (sortBy_perm _ _)) in Hd.
    apply filter_In in Hd as [Hd Hk]. apply in_map_iff in Hd as (e & <- & He).
    exists e. auto.
  - intros (e & He & Hk & Hi). exists (direntOf build urlBase e). split; [|exact Hi].
    apply (Permutation_in _ (Permutation_sym (sortBy_perm _ _))).
    apply filter_In. split; [|exact Hk]. apply in_map_iff. eauto.
Qed.

Lemma buildItems_represents : representsEntries keep xlsx build.
Proof.
  intros entries urlBase items. subst items. split; [|split].
  - rewrite !buildItems_unfold. do 2 f_equal.
    rewrite !filter_map_comm. simpl. now rewrite filter_idem.
  - intros item H. now apply buildItems_In.
  - intros nm node He Hk.
    assert (Hin : forall item,
               In item (itemsOfEntry xlsx urlBase (direntOf build urlBase (nm, node))) ->
               In item (build (Dir entries) urlBase)).
    { intros item Hi. apply buildItems_In. exists (nm, node). auto. }
    destruct node as [data|sub].
    + split.
      * intros Hmd. apply Hin. unfold itemsOfEntry. simpl. rewrite Hmd. now left.
      * intros -> Hmd Hx. apply Hin. unfold itemsOfEntry. simpl. rewrite Hmd, Hx. now left.
    + apply Hin. unfold itemsOfEntry. simpl. now left.
Qed.
End SidebarProperties.

Lemma keepMd_omits n :
  keepMd n = false <-> n = "sidebar.ts"%string \/ n = "index.md"%string.
Proof.
  unfold keepMd. rewrite andb_false_iff, !negb_false_iff, !String.eqb_eq. tauto.
Qed.

Lemma keepHtml_omits n :
  keepHtml n = false <->
  n = "sidebar.ts"%string \/ n = "index.md"%string \/ n = "public"%string.
Proof.
  unfold keepHtml. rewrite !andb_false_iff, !negb_false_iff, !String.eqb_eq. tauto.
Qed.

(** C10 (as amended). At every directory level each builder omits the
    entries named [sidebar.ts] and [index.md] (and [public] in the
    HTML-viewer variant); every other directory is a group and every other
    [.md] file a link in the three builders, every other [.xlsx] file is a
    link in the two builders of [convert.ts], and [buildSidebarItems] of
    the VitePress configuration leaves out every file that is not [.md]. *)
Theorem C10_sidebar_entries (localeCompare : string -> string -> Z) :
  (forall n, keepMd n = false <-> n = "sidebar.ts"%string \/ n = "index.md"%string) /\
  (forall n, keepHtml n = false <->
             n = "sidebar.ts"%string \/ n = "index.md"%string \/ n = "public"%string) /\
  representsEntries keepMd true (buildItemsMd localeCompare) /\
  representsEntries keepHtml true (buildItemsHtml localeCompare) /\
  representsEntries keepMd false (buildSidebarItems localeCompare) /\
  (forall urlBase entry,
     isDirectory entry = false -> Js.endsWith (name entry) ".md" = false ->
     itemsOfEntry false urlBase entry = []).
Proof.
  split; [exact keepMd_omits|]. split; [exact keepHtml_omits|].
  split; [apply buildItems_represents|]. split; [apply buildItems_represents|].
  split; [apply buildItems_represents|].
  intros urlBase entry Hd Hmd. unfold itemsOfEntry. now rewrite Hd, Hmd.
Qed.

Lemma C10_sidebar_entries_witness :
  let lc : string -> string -> Z := fun _ _ => 0%Z in
  let entries := [ ("index.md"%string, File "home"); ("a.md"%string, File "A");
                   ("data.xlsx"%string, File "X"); ("sub"%string, Dir [("b.md"%string, File "B")]);
                   ("public"%string, Dir []) ] in
  In ("sub"%string, Dir [("b.md"%string, File "B")]) entries /\
  keepHtml "sub" = true /\
  In (Group "sub" (buildItemsHtml lc (Dir [("b.md"%string, File "B")]) "/sub/"))
     (buildItemsHtml lc (Dir entries) "/") /\
  buildItemsHtml lc (Dir entries) "/" =
    [ Group "sub" [Link "b" "/sub/b"]; Link "a" "/a"; Link "📥 data" "/data.xlsx" ].
Proof.
  intros lc entries.
  assert (Hin : In ("sub"%string, Dir [("b.md"%string, File "B")]) entries)
    by (simpl; tauto).
  split; [exact Hin|]. split; [reflexivity|]. split; [|reflexivity].
  destruct (C10_sidebar_entries lc) as (_ & _ & _ & Hhtml & _ & _).
  destruct (Hhtml entries "/"%string) as (_ & _ & Hrep).
  exact (Hrep "sub"%string (Dir [("b.md"%string, File "B")]) Hin eq_refl).
Defined.

(** C10, as stated, fails for [buildSidebarItems]: a spreadsheet that is
    not omitted by name has no item, while [buildSidebar] links it. *)
Lemma C10_counterexample :
  keepMd "data.xlsx" = true /\
  Js.endsWith "data.xlsx" ".xlsx" = true /\
  buildSidebarItems (fun _ _ => 0%Z) (Dir [("data.xlsx"%string, File "X")]) "/" = [] /\
  buildItemsMd (fun _ _ => 0%Z) (Dir [("data.xlsx"%string, File "X")]) "/" =
    [Link "📥 data" "/data.xlsx"].
Proof. repeat split; reflexivity. Qed.

(** ** The file system *)

Lemma assoc_setEntry {V} k s (v : V) l :
  assoc k (setEntry s v l) = if String.eqb k s then Some v else assoc k l.
Proof.
  induction l as [|[k' v'] l IH]; simpl.
  - destruct (String.eqb k s); reflexivity.
  - destruct (String.eqb s k') eqn:E; simpl.
    + apply String.eqb_eq in E; subst k'. destruct (String.eqb k s); reflexivity.
    + destruct (String.eqb k k') eqn:E'; [|exact IH].
      apply String.eqb_eq in E'; subst k'.
      rewrite String.eqb_sym in E. now rewrite E.
Qed.

Lemma assoc_removeEntry {V} s (l : list (string * V)) : assoc s (removeEntry s l) = None.
Proof.
  unfold removeEntry. induction l as [|[k' v'] l IH]; simpl; [reflexivity|].
  destruct (String.eqb s k') eqn:E; simpl; [exact IH|]. now rewrite E.
Qed.

Lemma lookup_app_none p : forall n q, lookup n p = None -> lookup n (p ++ q) = None.
Proof.
  induction p as [|s p IH]; intros n q H; [discriminate|].
  simpl in *. destruct n as [|entries]; [reflexivity|].
  destruct (assoc s entries); [now apply IH|reflexivity].
Qed.

Lemma rmSync_exists p : forall n,
  p <> [] -> lookup n p <> None -> exists n', rmSync n p = Ok n'.
Proof.
  induction p as [|s p IH]; intros n Hp H; [congruence|].
  simpl in H. destruct n as [|entries]; [congruence|].
  destruct (assoc s entries) as [child|] eqn:E; [|congruence].
  destruct p as [|s' p].
  - simpl. rewrite E. eauto.
  - destruct (IH child ltac:(discriminate) H) as [child' Hc].
    change (rmSync (Dir entries) (s :: s' :: p))
      with (match assoc s entries with
            | Some child => let* child' := rmSync child (s' :: p) in
                            Ok (Dir (setEntry s child' entries))
            | None => Throw "ENOENT: no such file or directory"
            end).
    rewrite E, Hc. simpl. eauto.
Qed.

Lemma rmSync_gone p : forall n n' q, rmSync n p = Ok n' -> lookup n' (p ++ q) = None.
Proof.
  induction p as [|s p IH]; intros n n' q H; [discriminate|].
  destruct n as [|entries]; [destruct p; discriminate|].
  destruct p as [|s' p].
  - simpl in H. destruct (assoc s entries); [|discriminate].
    injection H as <-. simpl. now rewrite assoc_removeEntry.
  - change (rmSync (Dir entries) (s :: s' :: p))
      with (match assoc s entries with
            | Some child => let* child' := rmSync child (s' :: p) in
                            Ok (Dir (setEntry s child' entries))
            | None => Throw "ENOENT: no such file or directory"
            end) in H.
    destruct (assoc s entries) as [child|]; [|discriminate].
    destruct (rmSync child (s' :: p)) as [child'|] eqn:Hc; [|discriminate].
    simpl in H. injection H as <-.
    change (lookup (Dir (setEntry s child' entries)) ((s :: s' :: p) ++ q))
      with (match assoc s (setEntry s child' entries) with
            | Some c => lookup c ((s' :: p) ++ q)
            | None => None
            end).
    rewrite assoc_setEntry, String.eqb_refl. now apply (IH child).
Qed.

Lemma mkdirSync_fresh p : forall n n',
  mkdirSync n p = Ok n' ->
  lookup n p = None \/ lookup n p = Some (Dir []) ->
  lookup n' p = Some (Dir []).
Proof.
  induction p as [|s p IH]; intros n n' H Hl.
  - simpl in *. destruct Hl as [Hl|Hl]; [discriminate|].
    injection Hl as ->. now injection H as <-.
  - simpl in H. destruct n as [|entries]; [discriminate|].
    simpl in Hl.
    destruct (mkdirSync _ p) as [child'|] eqn:Hc; [|discriminate].
    simpl in H. injection H as <-.
    simpl. rewrite assoc_setEntry, String.eqb_refl.
    apply (IH _ _ Hc).
    destruct (assoc s entries) as [child|]; [exact Hl|].
    destruct p; [now right|now left].
Qed.

Lemma mkdirSync_sameFiles d : forall n n', mkdirSync n d = Ok n' -> sameFiles n n'.
Proof.
  induction d as [|s d IH]; intros n n' H.
  - simpl in H. destruct n; [discriminate|]. injection H as <-. intros p data. reflexivity.
  - simpl in H. destruct n as [|entries]; [discriminate|].
    destruct (mkdirSync _ d) as [child'|] eqn:Hc; [|discriminate].
    simpl in H. injection H as <-.
    specialize (IH _ _ Hc).
    intros [|k p] data; simpl; [split; discriminate|].
    rewrite assoc_setEntry. destruct (String.eqb k s) eqn:E; [|reflexivity].
    apply String.eqb_eq in E; subst k.
    rewrite (IH p data).
    destruct (assoc s entries) as [child|]; [reflexivity|].
    destruct p; simpl; split; discriminate.
Qed.

Lemma writeFileSync_lookup p : forall n n' data,
  writeFileSync n p data = Ok n' -> lookup n' p = Some (File data).
Proof.
  induction p as [|s p IH]; intros n n' data H; [discriminate|].
  destruct n as [|entries]; [destruct p; discriminate|].
  destruct p as [|s' p].
  - simpl in H.
    assert (E : n' = Dir (setEntry s (File data) entries)).
    { destruct (assoc s entries) as [[|]|]; congruence. }
    subst n'. simpl. now rewrite assoc_setEntry, String.eqb_refl.
  - change (writeFileSync (Dir entries) (s :: s' :: p) data)
      with (match assoc s entries with
            | Some child => let* child' := writeFileSync child (s' :: p) data in
                            Ok (Dir (setEntry s child' entries))
            | None => Throw "ENOENT: no such file or directory"
            end) in H.
    destruct (assoc s entries) as [child|]; [|discriminate].
    destruct (writeFileSync child (s' :: p) data) as [child'|] eqn:Hc; [|discriminate].
    simpl in H. injection H as <-.
    change (lookup (Dir (setEntry s child' entries)) (s :: s' :: p))
      with (match assoc s (setEntry s child' entries) with
            | Some c => lookup c (s' :: p)
            | None => None
            end).
    rewrite assoc_setEntry, String.eqb_refl. now apply (IH child).
Qed.

(** ** C9: the docx-only variant clears the output directory *)

Lemma mainDocx_after_validation INPUT_DIR OUTPUT_DIR mammoth turndown fs :
  lookup fs INPUT_DIR <> None ->
  mainDocx INPUT_DIR OUTPUT_DIR mammoth turndown fs =
  match clearOutput OUTPUT_DIR fs with
  | (fs1, Ok _) => convertAllDocx INPUT_DIR OUTPUT_DIR mammoth turndown fs1
  | (fs1, Throw e) => (fs1, Throw e)
  end.
Proof.
  intros H. unfold mainDocx, bind, existsSync.
  destruct (lookup fs INPUT_DIR); [reflexivity|congruence].
Qed.

(** C9. In the docx-only variant a run that passes the check of the input
    directory starts by removing the output directory with everything
    under it when it exists: nothing that was under the output directory
    is left when the directory is created anew (empty) and the conversion
    starts, whatever the input holds. *)
Theorem C9_output_cleared_first
    (INPUT_DIR OUTPUT_DIR : path) (mammoth : string -> result string)
    (turndown : string -> string) (fs : Node) :
  lookup fs INPUT_DIR <> None ->
  exists fs1 r,
    clearOutput OUTPUT_DIR fs = (fs1, r) /\
    (forall s p, lookup fs1 (OUTPUT_DIR ++ s :: p) = None) /\
    (OUTPUT_DIR <> [] -> r = Ok tt /\ lookup fs1 OUTPUT_DIR = None) /\
    (forall fs2, mkdirSync fs1 OUTPUT_DIR = Ok fs2 -> lookup fs2 OUTPUT_DIR = Some (Dir [])) /\
    mainDocx INPUT_DIR OUTPUT_DIR mammoth turndown fs =
      match r with
      | Ok _ => convertAllDocx INPUT_DIR OUTPUT_DIR mammoth turndown fs1
      | Throw e => (fs1, Throw e)
      end.
Proof.
  intros Hin. rewrite (mainDocx_after_validation _ _ _ _ _ Hin).
  unfold clearOutput, bind, existsSync.
  destruct (lookup fs OUTPUT_DIR) as [found|] eqn:Hout.
  - destruct OUTPUT_DIR as [|s out].
    + exists (Dir []), (Throw "EBUSY: resource busy or locked").
      split; [reflexivity|]. split; [reflexivity|]. split; [congruence|].
      split; [|reflexivity]. intros fs2 [= <-]. reflexivity.
    + destruct (rmSync_exists (s :: out) fs ltac:(discriminate) ltac:(congruence))
        as [fs1 Hrm].
      exists fs1, (Ok tt). unfold rmRecursive, liftW. rewrite Hrm.
      split; [reflexivity|]. split; [intros; now apply (rmSync_gone _ fs)|].
      assert (Hgone : lookup fs1 (s :: out) = None).
      { rewrite <- (app_nil_r (s :: out)). now apply (rmSync_gone _ fs). }
      split; [now split|]. split; [|reflexivity].
      intros fs2 Hmk. apply (mkdirSync_fresh _ _ _ Hmk). now left.
  - exists fs, (Ok tt). split; [reflexivity|].
    split; [intros; now apply lookup_app_none|].
    split; [now split|]. split; [|reflexivity].
    intros fs2 Hmk. apply (mkdirSync_fresh _ _ _ Hmk). now left.
Qed.

Lemma C9_output_cleared_first_witness :
  let fs := Dir [ ("docs"%string, Dir [ ("old.md"%string, File "stale");
                                        ("keep"%string, Dir [("notes.txt"%string, File "mine")]) ]);
                  ("in"%string, Dir [("a.docx"%string, File "A")]) ] in
  lookup fs ["in"%string] <> None /\
  mainDocx ["in"%string] ["docs"%string] (fun raw => Ok raw) (fun html => html) fs =
    (Dir [ ("in"%string, Dir [("a.docx"%string, File "A")]);
           ("docs"%string,
            Dir [("a.md"%string,
                  File (frontmatter "a" "a.docx" +:+ "A" +:+ Js.nl)%string)]) ],
     Ok (Done 1 0)) /\
  exists fs1, clearOutput ["docs"%string] fs = (fs1, Ok tt) /\
              lookup fs1 ["docs"; "keep"; "notes.txt"]%string = None.
Proof.
  intros fs.
  assert (Hin : lookup fs ["in"%string] <> None) by discriminate.
  split; [exact Hin|]. split; [reflexivity|].
  destruct (C9_output_cleared_first ["in"%string] ["docs"%string]
              (fun raw => Ok raw) (fun html => html) fs Hin)
    as (fs1 & r & Hc & Hgone & Hr & _).
  destruct (Hr ltac:(discriminate)) as [-> _].
  exists fs1. split; [exact Hc|].
  exact (Hgone "keep"%string ["notes.txt"%string]).
Defined.

(** ** Runs in the state and exception monad *)

Lemma bind_Ok {A B} (m : IO A) (k : A -> IO B) fs fs' b :
  bind m k fs = (fs', Ok b) ->
  exists a fs1, m fs = (fs1, Ok a) /\ k a fs1 = (fs', Ok b).
Proof.
  unfold bind. destruct (m fs) as [fs1 [a|e]]; [eauto|discriminate].
Qed.

Ltac inv_bind H a fs1 H1 :=
  apply bind_Ok in H; destruct H as (a & fs1 & H1 & H).

Lemma liftR_Ok {A} (f : Node -> result A) fs fs' a :
  liftR f fs = (fs', Ok a) -> fs' = fs /\ f fs = Ok a.
Proof. unfold liftR. intros [= <- H]. auto. Qed.

Lemma liftW_Ok f fs fs' u : liftW f fs = (fs', Ok u) -> f fs = Ok fs'.
Proof. unfold liftW. destruct (f fs); [intros [= <-]; reflexivity|discriminate]. Qed.

(** ** C8: a failed conversion writes nothing *)

Ltac case_matches :=
  repeat match goal with
         | |- context [match ?x with _ => _ end] => destruct x
         end.

Lemma convertDocx_reads mammoth turndown f fs :
  fst (convertDocx mammoth turndown f fs) = fs.
Proof. unfold convertDocx, bind, liftR, ret. case_matches; reflexivity. Qed.

Lemma convertPptx_reads loadAsync parse f fs :
  fst (convertPptx loadAsync parse f fs) = fs.
Proof. unfold convertPptx, bind, liftR, ret. case_matches; reflexivity. Qed.

Lemma convertPptxToHtml_reads loadAsync parse build f ttl fs :
  fst (convertPptxToHtml loadAsync parse build f ttl fs) = fs.
Proof. unfold convertPptxToHtml, bind, liftR, ret. case_matches; reflexivity. Qed.

Lemma mkdirp_sameFiles d fs fs1 : mkdirp d fs = (fs1, Ok tt) -> sameFiles fs fs1.
Proof.
  unfold mkdirp, liftW. destruct (mkdirSync fs d) as [n|] eqn:E; [|discriminate].
  intros [= <-]. now apply (mkdirSync_sameFiles d).
Qed.

Lemma sameFiles_trans a b c : sameFiles a b -> sameFiles b c -> sameFiles a c.
Proof. intros H1 H2 p data. rewrite (H2 p data). apply H1. Qed.

(** the shape of every conversion step: prepare the directories, then try
    to convert and to write, and count a failure on an exception *)
Lemma attempt_fails (prepare : IO unit) (convert : IO string)
    (finish : string -> IO (nat * nat)) (failed : nat * nat) fs fs1 e :
  prepare fs = (fs1, Ok tt) ->
  fst (convert fs1) = fs1 ->
  snd (convert fs1) = Throw e ->
  (prepare ;;; tryCatch (do out <- convert; finish out) (fun _ => ret failed)) fs
  = (fs1, Ok failed).
Proof.
  intros Hp Hs He. unfold bind at 1. rewrite Hp.
  unfold tryCatch, bind. destruct (convert fs1) as [fs' r]. simpl in *. subst. reflexivity.
Qed.

(** a step with one write: when it counts a failure, the exception came
    from the conversion or from the write, and neither changed a file *)
Lemma single_write_failure (d p : path) (convert : IO string)
    (content : string -> string) (ok fail : nat) fs fs' :
  (forall fs0, fst (convert fs0) = fs0) ->
  (mkdirp d ;;;
   tryCatch (do out <- convert; writeFile p (content out) ;;; ret (S ok, fail))
            (fun _ => ret (ok, S fail))) fs = (fs', Ok (ok, S fail)) ->
  sameFiles fs fs'.
Proof.
  intros Hconv H. inv_bind H u fs1 H1. destruct u.
  assert (Hfs : fs' = fs1); [|subst fs'; now apply (mkdirp_sameFiles d)].
  revert H. unfold tryCatch, bind, writeFile, liftW, ret.
  pose proof (Hconv fs1) as Hc.
  destruct (convert fs1) as [fs2 [out|e]]; simpl in Hc; subst fs2.
  - destruct (writeFileSync fs1 p (content out)).
    + intros [= _ Hn]. exfalso. induction ok; congruence.
    + now intros [= <-].
  - now intros [= <-].
Qed.

(** C8 (as amended). When the converter called for an input file throws,
    the step of the loop for that file writes no output file, in the
    three variants: the exception comes before the write, the step counts
    a failure, and the files are the ones that were there before the step
    (only directories of the output path have been created).  A step
    with a single write leaves the files as they were whenever it counts
    a failure, also when the write itself throws; the step of the
    HTML-viewer variant for a deck writes two files, and promises this
    only when the converter throws. *)
Theorem C8_failed_conversion_writes_nothing
    (INPUT_DIR OUTPUT_DIR : path)
    (mammoth : string -> result string) (turndown : string -> string)
    (loadAsync : string -> result Zip)
    (parseStringPromise : string -> result JsVal)
    (buildPresentationHtml : string -> list HtmlSlide -> Z -> Z -> string)
    (counts : nat * nat) (filePath : path) :
  let stepMd := convertOneMd INPUT_DIR OUTPUT_DIR mammoth turndown loadAsync
                  parseStringPromise counts filePath in
  let stepDocx := convertOneDocx INPUT_DIR OUTPUT_DIR mammoth turndown counts filePath in
  let stepHtml := convertOneHtml INPUT_DIR OUTPUT_DIR mammoth turndown loadAsync
                    parseStringPromise buildPresentationHtml counts filePath in
  (leavesNoOutput stepMd
     (mkdirp (dirname (outPathMd INPUT_DIR OUTPUT_DIR filePath)))
     (if String.eqb (extLower filePath) ".docx"
      then convertDocx mammoth turndown filePath
      else convertPptx loadAsync parseStringPromise filePath)
     counts /\
   failureLeavesFiles stepMd counts) /\
  (leavesNoOutput stepDocx
     (mkdirp (dirname (outPathDocx INPUT_DIR OUTPUT_DIR filePath)))
     (convertDocx mammoth turndown filePath)
     counts /\
   failureLeavesFiles stepDocx counts) /\
  (extLower filePath <> ".pptx"%string ->
   leavesNoOutput stepHtml
     (mkdirp (dirname (OUTPUT_DIR ++
                       replaceExtPath [".docx"%string] ".md" (relative INPUT_DIR filePath))))
     (convertDocx mammoth turndown filePath)
     counts /\
   failureLeavesFiles stepHtml counts) /\
  (extLower filePath = ".pptx"%string ->
   leavesNoOutput stepHtml
     (mkdirp (dirname (htmlOutPath INPUT_DIR OUTPUT_DIR filePath)) ;;;
      mkdirp (dirname (mdOutPath INPUT_DIR OUTPUT_DIR filePath)))
     (convertPptxToHtml loadAsync parseStringPromise buildPresentationHtml filePath
        (basenameExt filePath (extLower filePath)))
     counts).
Proof.
  intros stepMd stepDocx stepHtml. subst stepMd stepDocx stepHtml.
  destruct counts as [ok fail].
  split; [|split; [|split]].
  - split.
    + intros fs fs1 e Hp He. split; [|now apply (mkdirp_sameFiles _ _ _ Hp)].
      unfold convertOneMd.
      apply (attempt_fails _ _ _ _ _ _ e Hp); [|exact He].
      destruct (String.eqb (extLower filePath) ".docx");
        [apply convertDocx_reads|apply convertPptx_reads].
    + intros fs fs'. unfold convertOneMd. apply single_write_failure.
      intros fs0. destruct (String.eqb (extLower filePath) ".docx");
        [apply convertDocx_reads|apply convertPptx_reads].
  - split.
    + intros fs fs1 e Hp He. split; [|now apply (mkdirp_sameFiles _ _ _ Hp)].
      unfold convertOneDocx.
      apply (attempt_fails _ _ _ _ _ _ e Hp); [apply convertDocx_reads|exact He].
    + intros fs fs'. unfold convertOneDocx. apply single_write_failure.
      intros fs0. apply convertDocx_reads.
  - intros Hext.
    assert (E : String.eqb (extLower filePath) ".pptx" = false).
    { destruct (String.eqb (extLower filePath) ".pptx") eqn:E; [|reflexivity].
      apply String.eqb_eq in E. congruence. }
    split.
    + intros fs fs1 e Hp He. split; [|now apply (mkdirp_sameFiles _ _ _ Hp)].
      unfold convertOneHtml. rewrite E.
      apply (attempt_fails _ _ _ _ _ _ e Hp); [apply convertDocx_reads|exact He].
    + intros fs fs'. unfold convertOneHtml. rewrite E. apply single_write_failure.
      intros fs0. apply convertDocx_reads.
  - intros Hext fs fs2 e Hp He.
    unfold bind in Hp.
    destruct (mkdirp _ fs) as [fs1 [[]|]] eqn:H1; [|discriminate].
    split.
    + unfold convertOneHtml. rewrite Hext in *. rewrite String.eqb_refl.
      unfold bind at 1. rewrite H1.
      apply (attempt_fails _ _ _ _ _ _ e Hp); [apply convertPptxToHtml_reads|exact He].
    + apply (sameFiles_trans _ fs1);
        [now apply (mkdirp_sameFiles _ _ _ H1)|now apply (mkdirp_sameFiles _ _ _ Hp)].
Qed.

Lemma C8_failed_conversion_writes_nothing_witness :
  let fs := Dir [ ("in"%string, Dir [("sub"%string, Dir [("a.docx"%string, File "not a document")])]);
                  ("out"%string, Dir [("sub"%string, Dir [("a.md"%string, File "previous")])]) ] in
  let mammoth : string -> result string := fun _ => Throw "Can't find end of central directory" in
  let f := ["in"; "sub"; "a.docx"]%string in
  mkdirp (dirname (outPathMd ["in"%string] ["out"%string] f)) fs = (fs, Ok tt) /\
  snd (convertDocx mammoth (fun html => html) f fs) = Throw "Can't find end of central directory" /\
  convertOneMd ["in"%string] ["out"%string] mammoth (fun html => html)
    (fun _ => Throw "zip") (parseTable []) (2, 0)%nat f fs = (fs, Ok (2, 1)%nat) /\
  sameFiles fs fs.
Proof.
  intros fs mammoth f.
  assert (Hp : mkdirp (dirname (outPathMd ["in"%string] ["out"%string] f)) fs = (fs, Ok tt))
    by reflexivity.
  assert (He : snd (convertDocx mammoth (fun html => html) f fs)
               = Throw "Can't find end of central directory") by reflexivity.
  split; [exact Hp|]. split; [exact He|].
  exact (proj1 (proj1 (C8_failed_conversion_writes_nothing ["in"%string] ["out"%string] mammoth
                         (fun html => html) (fun _ => Throw "zip") (parseTable [])
                         (fun _ _ _ _ => ""%string) (2, 0)%nat f))
               fs fs _ Hp He).
Defined.

(** C8, as stated, fails in the HTML-viewer variant: the wrapper page of
    [deck.pptx] cannot be written where the output holds the directory
    [deck.md]; the file is counted as failed, and the viewer page written
    just before stays. *)
Lemma C8_counterexample :
  let fs := Dir [ ("in"%string,
                   Dir [ ("deck.md"%string, Dir [("x.xlsx"%string, File "X")]);
                         ("deck.pptx"%string, File "PK") ]) ] in
  let run := mainHtml ["in"%string] ["out"%string] (fun raw => Ok raw) (fun html => html)
               (fun _ => Ok []) (parseTable []) (fun _ _ _ _ => "<html>"%string)
               (fun _ _ => 0%Z) in
  snd (run fs) = Ok (Done 0 1) /\
  lookup fs ["out"; "public"; "slides"; "deck.html"]%string = None /\
  lookup (fst (run fs)) ["out"; "public"; "slides"; "deck.html"]%string
    = Some (File "<html>") /\
  lookup (fst (run fs)) ["out"; "deck.md"]%string
    = Some (Dir [("x.xlsx"%string, File "X")]).
Proof. repeat split; reflexivity. Qed.

(** ** C2: the navigation index *)

Lemma writeSidebar_written OUTPUT_DIR build fs fs' u :
  writeSidebar OUTPUT_DIR build fs = (fs', Ok u) -> sidebarWritten build OUTPUT_DIR fs'.
Proof.
  unfold writeSidebar, buildSidebar, writeFile. intros H.
  inv_bind H src fs0 H0.
  apply liftR_Ok in H0 as [-> H0]. apply liftW_Ok in H.
  destruct (lookup fs OUTPUT_DIR) as [[|entries]|] eqn:E; try discriminate.
  injection H0 as <-.
  exists fs, entries. split; [exact E|]. split; [exact H|].
  now apply (writeFileSync_lookup _ fs).
Qed.

Section MainRuns.
Variables (INPUT_DIR OUTPUT_DIR : path).
Variables (copy : path -> IO unit) (convertOne : nat * nat -> path -> IO (nat * nat)).
Variable build : Node -> string -> list SidebarItem.

(** the run that the Markdown and the HTML-viewer [main] share *)
Let run : IO Status :=
  do found <- existsSync INPUT_DIR;
  if negb found then ret InputMissing
  else
    mkdirp OUTPUT_DIR ;;;
    do files <- walk INPUT_DIR;
    let allFiles := List.filter isInputFile files in
    match allFiles with
    | [] => ret NoFiles
    | _ =>
        let convertFiles := List.filter (fun f => negb (isXlsx f)) allFiles in
        let xlsxFiles := List.filter isXlsx allFiles in
        forEach copy xlsxFiles ;;;
        do counts <- foldIO convertOne convertFiles (0, 0)%nat;
        writeSidebar OUTPUT_DIR build ;;;
        ret (Done (fst counts) (snd counts))
    end.

Lemma run_Done fs fs' ok fail :
  run fs = (fs', Ok (Done ok fail)) -> sidebarWritten build OUTPUT_DIR fs'.
Proof.
  unfold run. intros H.
  inv_bind H found fs1 H1.
  destruct (negb found); [discriminate|].
  inv_bind H u fs2 H2. inv_bind H files fs3 H3.
  destruct (List.filter isInputFile files); [discriminate|].
  inv_bind H u' fs4 H4. inv_bind H counts fs5 H5. inv_bind H u'' fs6 H6.
  injection H as <- _ _.
  now apply (writeSidebar_written _ _ fs5 fs6 u'').
Qed.

Lemma run_NoFiles fs fs' :
  run fs = (fs', Ok NoFiles) -> mkdirSync fs OUTPUT_DIR = Ok fs' /\ sameFiles fs fs'.
Proof.
  unfold run. intros H.
  inv_bind H found fs1 H1.
  injection H1 as <- _.
  destruct (negb found); [discriminate|].
  inv_bind H u fs2 H2. inv_bind H files fs3 H3.
  apply liftR_Ok in H3 as [-> _].
  assert (Hfs : fs2 = fs').
  { destruct (List.filter isInputFile files).
    - now injection H as <-.
    - inv_bind H u' fs4 H4. inv_bind H counts fs5 H5. inv_bind H u'' fs6 H6.
      discriminate. }
  subst fs2. split; [exact (liftW_Ok _ _ _ _ H2)|].
  destruct u. now apply (mkdirp_sameFiles OUTPUT_DIR).
Qed.
Lemma run_status fs fs' st :
  run fs = (fs', Ok st) -> statusMeans INPUT_DIR OUTPUT_DIR fs st.
Proof.
  unfold run. intros H.
  inv_bind H found fs1 H1. unfold existsSync in H1.
  injection H1 as <- Hfound.
  destruct (lookup fs INPUT_DIR) as [n|] eqn:Hin; subst found; simpl in H.
  - inv_bind H u fs2 H2. inv_bind H files fs3 H3.
    pose proof (liftW_Ok _ _ _ _ H2) as Hmk.
    pose proof H3 as H3'. apply liftR_Ok in H3' as [-> _].
    destruct (List.filter isInputFile files) as [|f l] eqn:Hf.
    + unfold ret in H. injection H as Hfs Hst; subst st. simpl.
      split; [congruence|]. exists fs2, files. auto.
    + inv_bind H u' fs4 H4. inv_bind H counts fs5 H5. inv_bind H u'' fs6 H6.
      unfold ret in H. injection H as Hfs Hst; subst st. simpl. split; [congruence|].
      exists fs2, files. split; [exact Hmk|]. split; [exact H3|]. rewrite Hf. discriminate.
  - unfold ret in H. injection H as Hfs Hst; subst st. exact Hin.
Qed.
End MainRuns.

(** C2 (as amended). A run of the Markdown or of the HTML-viewer variant
    that reaches its summary (the input directory exists, at least one
    .docx, .pptx or .xlsx file was found, no exception escaped) has
    written the navigation index at the output root, from the listing of
    the output directory; a run that finds no such file returns once the
    output directory is created, and writes no file. *)
Theorem C2_sidebar_written_when_files_found
    (INPUT_DIR OUTPUT_DIR : path)
    (mammoth : string -> result string) (turndown : string -> string)
    (loadAsync : string -> result Zip)
    (parseStringPromise : string -> result JsVal)
    (buildPresentationHtml : string -> list HtmlSlide -> Z -> Z -> string)
    (localeCompare : string -> string -> Z) (fs fs' : Node) :
  let mainMd' := mainMd INPUT_DIR OUTPUT_DIR mammoth turndown loadAsync
                   parseStringPromise localeCompare in
  let mainHtml' := mainHtml INPUT_DIR OUTPUT_DIR mammoth turndown loadAsync
                     parseStringPromise buildPresentationHtml localeCompare in
  (forall ok fail, mainMd' fs = (fs', Ok (Done ok fail)) ->
     sidebarWritten (buildItemsMd localeCompare) OUTPUT_DIR fs') /\
  (forall ok fail, mainHtml' fs = (fs', Ok (Done ok fail)) ->
     sidebarWritten (buildItemsHtml localeCompare) OUTPUT_DIR fs') /\
  (mainMd' fs = (fs', Ok NoFiles) ->
     mkdirSync fs OUTPUT_DIR = Ok fs' /\ sameFiles fs fs') /\
  (mainHtml' fs = (fs', Ok NoFiles) ->
     mkdirSync fs OUTPUT_DIR = Ok fs' /\ sameFiles fs fs') /\
  (forall st, mainMd' fs = (fs', Ok st) -> statusMeans INPUT_DIR OUTPUT_DIR fs st) /\
  (forall st, mainHtml' fs = (fs', Ok st) -> statusMeans INPUT_DIR OUTPUT_DIR fs st).
Proof.
  intros mainMd' mainHtml'. subst mainMd' mainHtml'.
  split; [|split; [|split; [|split; [|split]]]].
  - intros ok fail. apply run_Done.
  - intros ok fail. apply run_Done.
  - apply run_NoFiles.
  - apply run_NoFiles.
  - intros st. apply run_status.
  - intros st. apply run_status.
Qed.

Lemma C2_sidebar_written_when_files_found_witness :
  let fs := Dir [ ("in"%string, Dir [("a.docx"%string, File "<p>A</p>")]) ] in
  let lc : string -> string -> Z := fun _ _ => 0%Z in
  let run := mainMd ["in"%string] ["out"%string] (fun raw => Ok raw) (fun html => html)
               (fun _ => Throw "zip") (parseTable []) lc in
  snd (run fs) = Ok (Done 1 0) /\
  sidebarWritten (buildItemsMd lc) ["out"%string] (fst (run fs)) /\
  lookup (fst (run fs)) ["out"; "sidebar.ts"]%string =
    Some (File (sidebarSource [Link "a" "/a"])).
Proof.
  intros fs lc run.
  assert (H : run fs = (fst (run fs), Ok (Done 1 0))) by reflexivity.
  split; [reflexivity|]. split; [|reflexivity].
  exact (proj1 (C2_sidebar_written_when_files_found ["in"%string] ["out"%string]
                  (fun raw => Ok raw) (fun html => html) (fun _ => Throw "zip")
                  (parseTable []) (fun _ _ _ _ => ""%string) lc fs (fst (run fs)))
               1%nat 0%nat H).
Defined.

(** C2, as stated, fails: the input directory exists and holds no .docx,
    .pptx or .xlsx file; the run ends normally and there is no navigation
    index at the output root, in the Markdown and in the HTML-viewer
    variant. *)
Lemma C2_counterexample :
  let fs := Dir [ ("in"%string, Dir [("readme.txt"%string, File "hello")]);
                  ("out"%string, Dir [("old.md"%string, File "earlier run")]) ] in
  let lc : string -> string -> Z := fun _ _ => 0%Z in
  lookup fs ["in"%string] <> None /\
  mainMd ["in"%string] ["out"%string] (fun raw => Ok raw) (fun html => html)
    (fun _ => Throw "zip") (parseTable []) lc fs = (fs, Ok NoFiles) /\
  mainHtml ["in"%string] ["out"%string] (fun raw => Ok raw) (fun html => html)
    (fun _ => Throw "zip") (parseTable []) (fun _ _ _ _ => ""%string) lc fs = (fs, Ok NoFiles) /\
  lookup fs ["out"; "sidebar.ts"]%string = None.
Proof. repeat split; try reflexivity. discriminate. Qed.

(** * Further properties of the code *)

(** ** The slide size and the placement of the shapes *)

Lemma parseIntOr_nonzero o dflt : dflt <> 0%Z -> parseIntOr o dflt <> 0%Z.
Proof.
  unfold parseIntOr. intros H. destruct (parseIntVal o) as [z|]; [|exact H].
  destruct (z =? 0)%Z eqn:E; [exact H|]. now apply Z.eqb_neq.
Qed.

Lemma slideSize_nonzero parse zip w h :
  slideSize parse zip = Ok (w, h) -> w <> 0%Z /\ h <> 0%Z.
Proof.
  unfold slideSize.
  destruct (assoc "ppt/presentation.xml" zip) as [entry|].
  - destruct (parse (asString entry)) as [presDoc|]; [|discriminate]. simpl.
    destruct (otruthy _).
    + intros [= <- <-]. split; apply parseIntOr_nonzero; discriminate.
    + intros [= <- <-]. split; discriminate.
  - intros [= <- <-]. split; discriminate.
Qed.

Lemma getTransform_placed sp w h xfrm :
  getTransform sp w h = Some xfrm -> placedOn w h xfrm.
Proof.
  unfold getTransform.
  destruct (get sp _) as [x|]; [|discriminate].
  destruct (negb (truthy x)); [discriminate|].
  destruct (_ || _); [discriminate|].
  intros [= <-]. repeat split.
Qed.

Lemma textShape_placed w h sp :
  Forall (placedOn w h) (textShape w h sp).
Proof.
  unfold textShape. destruct (getTransform sp w h) as [xfrm|] eqn:E; [|constructor].
  apply getTransform_placed in E.
  destruct (get sp _) as [tx|]; [|constructor].
  destruct (negb (truthy tx)); [constructor|].
  destruct (Js.isBlank _); constructor; [exact E|constructor].
Qed.

Lemma pictureShape_placed rels media w h pic :
  Forall (placedOn w h) (pictureShape rels media w h pic).
Proof.
  unfold pictureShape. destruct (getTransform pic w h) as [xfrm|] eqn:E; [|constructor].
  apply getTransform_placed in E.
  destruct (embedId pic) as [rId|]; [|constructor].
  destruct (negb (truthy rId)); [constructor|].
  destruct (pictureDataUri rels media rId) as [uri|]; [|constructor].
  destruct (negb (nonEmpty uri)); constructor; [exact E|constructor].
Qed.

Lemma Forall_flat_map_all {A B} (P : B -> Prop) (f : A -> list B) l :
  (forall x, Forall P (f x)) -> Forall P (flat_map f l).
Proof.
  intros H. induction l as [|x l IH]; simpl; [constructor|].
  apply Forall_app. split; [apply H|exact IH].
Qed.

Lemma parseSlide_placed doc rels media w h :
  Forall (placedOn w h) (shapes (parseSlide doc rels media w h)).
Proof.
  unfold parseSlide. simpl. apply Forall_app. split.
  - apply Forall_flat_map_all. intros sp. apply textShape_placed.
  - apply Forall_flat_map_all. intros pic. apply pictureShape_placed.
Qed.

Lemma loadSlide_placed parse zip media w h ik slide :
  loadSlide parse zip media w h ik = Ok slide ->
  Forall (placedOn w h) (shapes slide).
Proof.
  unfold loadSlide. destruct ik as [i key].
  destruct (loadRels parse zip key (S i)) as [rels|]; [|discriminate]. simpl.
  destruct (assoc key zip) as [entry|]; [|discriminate].
  destruct (parse (asString entry)) as [doc|]; [|discriminate]. simpl.
  unfold loadNotesHtml.
  destruct (assoc _ zip) as [n|].
  - destruct (parse (asString n)); [|discriminate]. simpl.
    intros [= <-]. simpl. apply parseSlide_placed.
  - intros [= <-]. apply parseSlide_placed.
Qed.

Lemma mapM_Forall_out {A B} (f : A -> result B) (P : B -> Prop) l r :
  (forall x y, f x = Ok y -> P y) -> mapM f l = Ok r -> Forall P r.
Proof.
  intros H. revert r. induction l as [|x l IH]; simpl; intros r Hr.
  - injection Hr as <-. constructor.
  - destruct (f x) as [y|] eqn:E; [|discriminate]. simpl in Hr.
    destruct (mapM f l) as [ys|]; [|discriminate]. simpl in Hr.
    injection Hr as <-. constructor; [now apply (H x)|now apply IH].
Qed.

(** X1. The slide size that [convertPptxToHtml] uses is never zero in
    either direction (a missing, unreadable or zero size falls back to
    the default), and every shape of every slide has its four
    percentages computed over that size: no percentage divides by
    zero. *)
Theorem X1_slide_size_never_zero
    (parseStringPromise : string -> result JsVal) (zip : Zip)
    (slideW slideH : Z) (slides : list HtmlSlide) :
  convertPptxToHtmlSlides parseStringPromise zip = Ok (slideW, slideH, slides) ->
  slideW <> 0%Z /\ slideH <> 0%Z /\
  Forall (fun slide => Forall (placedOn slideW slideH) (shapes slide)) slides.
Proof.
  unfold convertPptxToHtmlSlides.
  destruct (slideSize parseStringPromise zip) as [[w h]|] eqn:Hs; [|discriminate]. simpl.
  destruct (mapM _ _) as [sl|] eqn:Hm; [|discriminate]. simpl.
  intros [= <- <- <-].
  destruct (slideSize_nonzero _ _ _ _ Hs) as [Hw Hh].
  split; [exact Hw|]. split; [exact Hh|].
  apply (mapM_Forall_out _ _ _ _ (loadSlide_placed parseStringPromise zip _ w h) Hm).
Qed.

Lemma X1_slide_size_never_zero_witness :
  let pres := JObj [("p:presentation"%string,
                     JObj [("p:sldSz"%string,
                            JArr [JObj [("$"%string,
                                         JObj [("cx"%string, JStr "0");
                                               ("cy"%string, JStr "5143500")])]])])] in
  let parse := parseTable [("pres"%string, pres);
                           ("slide"%string, slideDocOf [] [picOf "rId1"])] in
  let zip := [ ("ppt/presentation.xml"%string, textEntry "pres");
               ("ppt/slides/slide1.xml"%string, textEntry "slide") ] in
  let slides := [ {| background := ""; shapes := []; notes := "" |} ] in
  convertPptxToHtmlSlides parse zip = Ok (9144000%Z, 5143500%Z, slides) /\
  9144000%Z <> 0%Z /\ 5143500%Z <> 0%Z.
Proof.
  intros pres parse zip slides.
  assert (H : convertPptxToHtmlSlides parse zip = Ok (9144000%Z, 5143500%Z, slides))
    by reflexivity.
  split; [exact H|].
  destruct (X1_slide_size_never_zero parse zip _ _ _ H) as (Hw & Hh & _).
  split; [exact Hw|exact Hh].
Defined.

(** ** Escaping *)

Lemma hasChar_app c a b : hasChar c (a +:+ b) = hasChar c a || hasChar c b.
Proof.
  induction a as [|x a IH]; simpl; [reflexivity|].
  rewrite IH. now rewrite orb_assoc.
Qed.

Lemma replaceChar_removes c r s :
  hasChar c r = false -> hasChar c (Js.replaceChar c r s) = false.
Proof.
  intros Hr. induction s as [|a s IH]; simpl; [reflexivity|].
  destruct (Ascii.eqb a c) eqn:E.
  - rewrite hasChar_app, Hr, IH. reflexivity.
  - simpl. now rewrite E, IH.
Qed.

Lemma replaceChar_keeps_out d c r s :
  hasChar d r = false -> hasChar d s = false ->
  hasChar d (Js.replaceChar c r s) = false.
Proof.
  intros Hr. induction s as [|a s IH]; simpl; [reflexivity|].
  intros H. apply orb_false_iff in H as [Ha Hs].
  destruct (Ascii.eqb a c).
  - rewrite hasChar_app, Hr, (IH Hs). reflexivity.
  - simpl. now rewrite Ha, (IH Hs).
Qed.

Lemma replaceChar_app c r a b :
  Js.replaceChar c r (a +:+ b) = (Js.replaceChar c r a +:+ Js.replaceChar c r b)%string.
Proof.
  induction a as [|x a IH]; simpl; [reflexivity|].
  destruct (Ascii.eqb x c); rewrite IH; [now rewrite sapp_assoc|reflexivity].
Qed.

Lemma replaceChar_absent c r s : hasChar c s = false -> Js.replaceChar c r s = s.
Proof.
  induction s as [|a s IH]; simpl; [reflexivity|].
  intros H. apply orb_false_iff in H as [Ha Hs]. now rewrite Ha, (IH Hs).
Qed.

(** X2. The text that [escapeHtml] returns holds no [<], no [>] and no
    double quote, whatever the text it is given: it cannot open or close
    a tag, nor end the attribute it is written in. *)
Theorem X2_escapeHtml_no_markup (str : string) :
  hasChar "<" (escapeHtml str) = false /\
  hasChar ">" (escapeHtml str) = false /\
  hasChar (ascii_of_nat 34) (escapeHtml str) = false.
Proof.
  unfold escapeHtml.
  assert (Hlt : hasChar "<" (Js.replaceChar "<" "&lt;" (Js.replaceChar "&" "&amp;" str)) = false)
    by (now apply replaceChar_removes).
  assert (Hgt : hasChar ">" (Js.replaceChar ">" "&gt;"
                  (Js.replaceChar "<" "&lt;" (Js.replaceChar "&" "&amp;" str))) = false)
    by (now apply replaceChar_removes).
  split; [|split].
  - apply replaceChar_keeps_out; [reflexivity|].
    apply replaceChar_keeps_out; [reflexivity|exact Hlt].
  - apply replaceChar_keeps_out; [reflexivity|exact Hgt].
  - now apply replaceChar_removes.
Qed.

(** X3. [escapeHtml] works character by character: the escape of two
    texts put together is the escapes put together, and a text without
    [&], [<], [>] and double quote comes back unchanged. *)
Theorem X3_escapeHtml_compositional :
  (forall a b, escapeHtml (a +:+ b) = (escapeHtml a +:+ escapeHtml b)%string) /\
  (forall str,
     hasChar "&" str = false -> hasChar "<" str = false ->
     hasChar ">" str = false -> hasChar (ascii_of_nat 34) str = false ->
     escapeHtml str = str).
Proof.
  split.
  - intros a b. unfold escapeHtml. now rewrite !replaceChar_app.
  - intros str Ha Hl Hg Hq. unfold escapeHtml.
    now rewrite (replaceChar_absent _ _ _ Ha), (replaceChar_absent _ _ _ Hl),
      (replaceChar_absent _ _ _ Hg), (replaceChar_absent _ _ _ Hq).
Qed.

Lemma X3_escapeHtml_compositional_witness :
  hasChar "&" "Point A" = false /\
  escapeHtml "Point A" = "Point A"%string /\
  escapeHtml ("a<b" +:+ " & c") = (escapeHtml "a<b" +:+ escapeHtml " & c")%string.
Proof.
  split; [reflexivity|]. split.
  - apply (proj2 X3_escapeHtml_compositional); reflexivity.
  - apply (proj1 X3_escapeHtml_compositional).
Defined.

Lemma nat_of_ascii_lt a : (nat_of_ascii a < 256)%nat.
Proof. apply nat_ascii_bounded. Qed.

Lemma hexDigit_unreserved n : (n < 16)%nat -> uriUnreserved (hexDigit n) = true.
Proof.
  intros H. do 16 (destruct n as [|n]; [reflexivity|]). lia.
Qed.

Lemma allChars_absent p c s : allChars p s = true -> p c = false -> hasChar c s = false.
Proof.
  intros H Hc. induction s as [|a s IH]; simpl in *; [reflexivity|].
  apply andb_true_iff in H as [Ha Hs]. rewrite (IH Hs), orb_false_r.
  destruct (Ascii.eqb a c) eqn:E; [|reflexivity].
  apply Ascii.eqb_eq in E. subst. congruence.
Qed.

(** X4. [encodeURIComponent], on the bytes of a segment, returns only
    unreserved characters and percent signs: the encoded segment holds no
    separator, no space, no quote and no character outside ASCII, and a
    segment of unreserved characters is returned as it is. *)
Theorem X4_encodeURIComponent_alphabet (seg : string) :
  allChars (fun c => uriUnreserved c || Ascii.eqb c "%") (encodeURIComponent seg) = true /\
  hasChar "/" (encodeURIComponent seg) = false /\
  hasChar " " (encodeURIComponent seg) = false /\
  hasChar (ascii_of_nat 34) (encodeURIComponent seg) = false /\
  (allChars uriUnreserved seg = true -> encodeURIComponent seg = seg).
Proof.
  assert (H : allChars (fun c => uriUnreserved c || Ascii.eqb c "%")
                (encodeURIComponent seg) = true).
  { induction seg as [|a s IH]; [reflexivity|].
    cbn [encodeURIComponent]. destruct (uriUnreserved a) eqn:E.
    - cbn [allChars]. now rewrite E, IH.
    - cbn [allChars]. rewrite IH.
      pose proof (nat_of_ascii_lt a) as Hlt.
      rewrite !hexDigit_unreserved; [reflexivity| |].
      + apply Nat.mod_upper_bound. discriminate.
      + apply Nat.Div0.div_lt_upper_bound. exact Hlt. }
  split; [exact H|].
  split; [now apply (allChars_absent _ _ _ H)|].
  split; [now apply (allChars_absent _ _ _ H)|].
  split; [now apply (allChars_absent _ _ _ H)|].
  clear H. induction seg as [|a s IH]; [reflexivity|].
  cbn [allChars encodeURIComponent]. intros Hs.
  apply andb_true_iff in Hs as [Ha Hs]. now rewrite Ha, (IH Hs).
Qed.

Lemma X4_encodeURIComponent_alphabet_witness :
  allChars uriUnreserved "deck-1.html" = true /\
  encodeURIComponent "deck-1.html" = "deck-1.html"%string /\
  encodeURIComponent "Q1 plan/é.html" = "Q1%20plan%2F%C3%A9.html"%string.
Proof.
  split; [reflexivity|]. split; [|reflexivity].
  apply (proj2 (proj2 (proj2 (proj2 (X4_encodeURIComponent_alphabet "deck-1.html"))))).
  reflexivity.
Defined.

(** ** The Markdown of a body block *)

Lemma collapse_fixed t : forall n,
  (n <= 2)%nat -> tripleLF n t = false ->
  collapseFrom n t = (flushNewlines n +:+ t)%string.
Proof.
  induction t as [|a t IH]; intros n Hn H.
  - simpl. now rewrite sapp_nil_r.
  - cbn [collapseFrom tripleLF] in *. destruct (Ascii.eqb a Js.LF) eqn:Ha.
    + apply orb_false_iff in H as [H2 H]. apply Nat.leb_gt in H2.
      rewrite (IH (S n)); [|lia|exact H].
      apply Ascii.eqb_eq in Ha. subst a.
      destruct n as [|[|n]]; [reflexivity|reflexivity|lia].
    + now rewrite (IH 0%nat) by (auto; lia).
Qed.

(** X5. The block that [paragraphsToMarkdown] returns never holds three
    line feeds in a row, whatever the texts of the paragraphs hold, and
    collapsing it once more changes nothing. *)
Theorem X5_block_has_no_triple_line_feed (ps : list JsVal) (out : string) :
  paragraphsToMarkdown ps = Ok out ->
  tripleLF 0 out = false /\ collapseNewlines out = out.
Proof.
  intros H. apply markdown_lines in H as (lines & _ & ->).
  assert (T : tripleLF 0 (collapseNewlines (Js.join Js.nl lines)) = false)
    by apply collapse_no_triple.
  split; [exact T|].
  unfold collapseNewlines at 1. now rewrite collapse_fixed by (auto; lia).
Qed.

Lemma X5_block_has_no_triple_line_feed_witness :
  paragraphsToMarkdown
    [paraOf "a"; emptyPara; emptyPara; emptyPara; paraOf ("b" +:+ Js.nl +:+ Js.nl +:+ Js.nl +:+ "c")]
  = Ok ("- a" +:+ Js.nl +:+ Js.nl +:+ "- b" +:+ Js.nl +:+ Js.nl +:+ "c")%string /\
  tripleLF 0 ("- a" +:+ Js.nl +:+ Js.nl +:+ "- b" +:+ Js.nl +:+ Js.nl +:+ "c") = false /\
  collapseNewlines ("- a" +:+ Js.nl +:+ Js.nl +:+ "- b" +:+ Js.nl +:+ Js.nl +:+ "c")
  = ("- a" +:+ Js.nl +:+ Js.nl +:+ "- b" +:+ Js.nl +:+ Js.nl +:+ "c")%string.
Proof.
  split; [reflexivity|].
  exact (X5_block_has_no_triple_line_feed
           [paraOf "a"; emptyPara; emptyPara; emptyPara;
            paraOf ("b" +:+ Js.nl +:+ Js.nl +:+ Js.nl +:+ "c")] _ eq_refl).
Defined.

Lemma paragraphLine_negative p : negativeLevel p -> exists msg, paragraphLine p = Throw msg.
Proof.
  intros [Hb (z & Hz & Hneg)]. unfold paragraphLine, repeatIndent.
  rewrite Hb, Hz. apply Z.ltb_lt in Hneg. rewrite Hneg. simpl. eauto.
Qed.

(** X6. A paragraph whose text is not blank and whose [lvl] attribute
    parses to a negative number makes [paragraphsToMarkdown] throw (the
    count of [repeat] is negative): no block is returned for the shape,
    wherever the paragraph stands in it. *)
Theorem X6_negative_level_throws (ps : list JsVal) :
  Exists negativeLevel ps -> exists msg, paragraphsToMarkdown ps = Throw msg.
Proof.
  intros H. unfold paragraphsToMarkdown.
  assert (E : exists msg, mapM paragraphLine ps = Throw msg).
  { induction H as [p ps Hp|p ps _ IH].
    - destruct (paragraphLine_negative p Hp) as [msg Hm]. simpl. rewrite Hm. simpl. eauto.
    - simpl. destruct (paragraphLine p) as [l|msg]; simpl; [|eauto].
      destruct IH as [msg ->]. simpl. eauto. }
  destruct E as [msg ->]. simpl. eauto.
Qed.

Lemma X6_negative_level_throws_witness :
  Exists negativeLevel [paraOf "a"; paraAt "-1" "b"] /\
  exists msg, paragraphsToMarkdown [paraOf "a"; paraAt "-1" "b"] = Throw msg.
Proof.
  assert (H : Exists negativeLevel [paraOf "a"; paraAt "-1" "b"]).
  { apply Exists_cons_tl, Exists_cons_hd. split; [reflexivity|].
    exists (-1)%Z. split; [reflexivity|reflexivity]. }
  split; [exact H|].
  exact (X6_negative_level_throws _ H).
Defined.

Lemma foldM_inv {A S} (f : S -> A -> result S) (P : S -> Prop) :
  (forall s x s', P s -> f s x = Ok s' -> P s') ->
  forall l s s', P s -> foldM f l s = Ok s' -> P s'.
Proof.
  intros Hf l. induction l as [|x l IH]; simpl; intros s s' Hs H.
  - now injection H as <-.
  - destruct (f s x) as [s1|] eqn:E; [|discriminate]. simpl in H.
    apply (IH s1); [now apply (Hf s x)|exact H].
Qed.

Lemma slideDocStep_blocks (P : string -> Prop) acc sp acc' :
  (forall ps b, paragraphsToMarkdown ps = Ok b -> Js.isBlank b = false -> P b) ->
  Forall P (bodyBlocks acc) -> slideDocStep acc sp = Ok acc' -> Forall P (bodyBlocks acc').
Proof.
  intros HP Hacc. unfold slideDocStep.
  destruct (get sp ["p:txBody"%string]) as [tx|]; [|now intros [= <-]].
  destruct (negb (truthy tx)); [now intros [= <-]|].
  destruct (shapeTexts _); [now intros [= <-]|].
  destruct (_ && _); [now intros [= <-]|].
  destruct (paragraphsToMarkdown _) as [b|] eqn:E; [|discriminate]. simpl.
  destruct (Js.isBlank b) eqn:Eb; simpl; [now intros [= <-]|].
  intros [= <-]. simpl. apply Forall_app. split; [exact Hacc|].
  repeat constructor. now apply (HP _ b E).
Qed.

(** X7. Every body block of a slide that [parseSlideDoc] returns is not
    blank and holds no three line feeds in a row: a shape whose
    paragraphs are all blank adds no block. *)
Theorem X7_body_blocks_not_blank (slideDoc : JsVal) (sd : SlideData) :
  parseSlideDoc slideDoc = Ok sd ->
  Forall (fun b => Js.isBlank b = false /\ tripleLF 0 b = false) (bodyBlocks sd).
Proof.
  unfold parseSlideDoc.
  destruct (get slideDoc _) as [spTree|]; [|intros [= <-]; constructor].
  destruct (negb (truthy spTree)); [intros [= <-]; constructor|].
  unfold parseShapes.
  apply (foldM_inv slideDocStep
           (fun s => Forall (fun b => Js.isBlank b = false /\ tripleLF 0 b = false)
                       (bodyBlocks s))).
  - intros s x s' Hs Hx. apply (slideDocStep_blocks _ s x s'); [|exact Hs|exact Hx].
    intros ps b Hb Hnb. split; [exact Hnb|].
    apply markdown_lines in Hb as (lines & _ & ->). apply collapse_no_triple.
  - constructor.
Qed.

Lemma X7_body_blocks_not_blank_witness :
  parseSlideDoc (slideDocOf [shapeOf (Some "title") ["T"]; shapeOf (Some "body") [" "];
                             shapeOf None ["x"]] [])
  = Ok {| title := "T"; bodyBlocks := ["- x"%string] |} /\
  Forall (fun b => Js.isBlank b = false /\ tripleLF 0 b = false) ["- x"%string].
Proof.
  split; [reflexivity|].
  exact (X7_body_blocks_not_blank
           (slideDocOf [shapeOf (Some "title") ["T"]; shapeOf (Some "body") [" "];
                        shapeOf None ["x"]] []) _ eq_refl).
Defined.

(** ** Navigation in a parsed document *)

Lemma assoc_In {V} k (l : list (string * V)) v : assoc k l = Some v -> In (k, v) l.
Proof.
  induction l as [|[k' v'] l IH]; simpl; [discriminate|].
  destruct (String.eqb k k') eqn:E.
  - apply String.eqb_eq in E. intros [= ->]. left. now subst.
  - intros H. right. now apply IH.
Qed.

Lemma fold_getStep_None ks : fold_left getStep ks None = None.
Proof. induction ks as [|k ks IH]; [reflexivity|exact IH]. Qed.

Lemma unwrapArr_Some c v : unwrapArr c = Some v -> exists w, c = Some w.
Proof. destruct c as [w|]; [eauto|discriminate]. Qed.

(** X8. [get] composes along a path: once a prefix of the keys leads to
    [undefined], every longer path does; and when the prefix leads to a
    value that is not an array, the rest of the keys is followed from
    that value. *)
Theorem X8_get_composes (obj : JsVal) (ks1 ks2 : list string) :
  (get obj ks1 = None -> get obj (ks1 ++ ks2) = None) /\
  (forall v, get obj ks1 = Some v -> (forall items, v <> JArr items) ->
             get obj (ks1 ++ ks2) = get v ks2).
Proof.
  unfold get. rewrite fold_left_app.
  generalize (fold_left getStep ks1 (Some obj)). intros c. split.
  - intros H. destruct ks2 as [|k ks2]; [exact H|].
    cbn [fold_left]. replace (getStep c k) with (@None JsVal).
    + now rewrite fold_getStep_None.
    + unfold getStep. destruct c as [w|]; [|reflexivity]. now rewrite H.
  - intros v H Hv.
    assert (Ev : unwrapArr (Some v) = Some v).
    { destruct v; try reflexivity. now destruct (Hv items). }
    destruct ks2 as [|k ks2]; cbn [fold_left]; [now rewrite Ev|].
    destruct (unwrapArr_Some _ _ H) as [w ->].
    unfold getStep at 2 4. now rewrite H, Ev.
Qed.

Lemma X8_get_composes_witness :
  get (slideDocOf [shapeOf None ["x"]] []) ["p:sld"; "p:cSld"]%string
  = Some (JObj [("p:spTree"%string,
                 JArr [JObj [("p:sp"%string, JArr [shapeOf None ["x"]]);
                             ("p:pic"%string, JArr [])]])]) /\
  get (slideDocOf [shapeOf None ["x"]] []) (["p:sld"; "p:cSld"]%string ++ ["p:spTree"; "p:sp"]%string)%list
  = get (JObj [("p:spTree"%string,
                JArr [JObj [("p:sp"%string, JArr [shapeOf None ["x"]]);
                            ("p:pic"%string, JArr [])]])])
        ["p:spTree"; "p:sp"]%string.
Proof.
  split; [reflexivity|].
  apply (proj2 (X8_get_composes (slideDocOf [shapeOf None ["x"]] [])
                  ["p:sld"; "p:cSld"]%string ["p:spTree"; "p:sp"]%string)).
  - reflexivity.
  - discriminate.
Defined.

Lemma findAll_field fields k1 w1 k v :
  assoc k1 fields = Some w1 -> k1 <> k ->
  In v (findAll w1 k) -> In v (findAll (JObj fields) k).
Proof.
  intros Ha Hk Hv. cbn [findAll]. apply in_flat_map.
  exists (k1, w1). split; [now apply assoc_In|].
  cbn [fst snd]. apply String.eqb_neq in Hk. now rewrite Hk.
Qed.

Lemma findAll_bound fields k val v :
  assoc k fields = Some val -> unwrapArr (Some val) = Some v ->
  In v (findAll (JObj fields) k).
Proof.
  intros Ha Hv. cbn [findAll]. apply in_flat_map.
  exists (k, val). split; [now apply assoc_In|].
  cbn [fst snd]. rewrite String.eqb_refl.
  destruct val as [s|items|fs]; simpl in *.
  - injection Hv as <-. now left.
  - destruct items as [|x items]; [discriminate|]. injection Hv as <-. now left.
  - injection Hv as <-. now left.
Qed.

Lemma getStep_object w k val :
  getStep (Some w) k = Some val ->
  exists fields, assoc k fields = Some val /\
                 forall x key, In x (findAll (JObj fields) key) -> In x (findAll w key).
Proof.
  unfold getStep. destruct w as [s|items|fields]; simpl.
  - discriminate.
  - destruct items as [|u items]; [discriminate|]. simpl.
    destruct u as [s|us|fields]; simpl; try discriminate.
    intros H. exists fields. split; [exact H|].
    intros x key Hx. cbn [findAll flat_map]. apply in_or_app. now left.
  - intros H. exists fields. split; [exact H|]. auto.
Qed.

Lemma findAll_reaches k v ks : forall w,
  ~ In k ks ->
  unwrapArr (fold_left getStep (ks ++ [k]) (Some w)) = Some v ->
  In v (findAll w k).
Proof.
  induction ks as [|k1 ks IH]; intros w Hk H.
  - cbn [app fold_left] in H.
    destruct (getStep (Some w) k) as [val|] eqn:E; [|discriminate].
    destruct (getStep_object _ _ _ E) as (fields & Ha & Hin).
    apply Hin. now apply (findAll_bound fields k val).
  - cbn [app fold_left] in H.
    destruct (getStep (Some w) k1) as [w1|] eqn:E.
    + destruct (getStep_object _ _ _ E) as (fields & Ha & Hin).
      apply Hin. apply (findAll_field fields k1 w1).
      * exact Ha.
      * intros ->. apply Hk. now left.
      * apply IH; [|exact H]. intros Hi. apply Hk. now right.
    + now rewrite fold_getStep_None in H.
Qed.

(** X9. Along a path of keys of the document (element names with their
    prefix, [$], [_]), what [get] reaches is among the values that
    [findAll] collects for the last key, as long as that key does not
    occur earlier on the path ([findAll] does not search below a binding
    of its key). *)
Theorem X9_findAll_holds_what_get_reaches (obj : JsVal) (ks : list string) (k : string) (v : JsVal) :
  Forall xmlKey (ks ++ [k]) ->
  ~ In k ks -> get obj (ks ++ [k]) = Some v -> In v (findAll obj k).
Proof. intros _ Hk H. now apply (findAll_reaches k v ks). Qed.

Lemma X9_findAll_holds_what_get_reaches_witness :
  Forall xmlKey (["p:sld"; "p:cSld"; "p:spTree"]%string ++ ["p:sp"]%string)%list /\
  ~ In "p:sp"%string ["p:sld"; "p:cSld"; "p:spTree"]%string /\
  get (slideDocOf [shapeOf None ["x"]; shapeOf None ["y"]] [])
      (["p:sld"; "p:cSld"; "p:spTree"]%string ++ ["p:sp"]%string)%list = Some (shapeOf None ["x"]) /\
  In (shapeOf None ["x"])
     (findAll (slideDocOf [shapeOf None ["x"]; shapeOf None ["y"]] []) "p:sp").
Proof.
  assert (K : Forall xmlKey (["p:sld"; "p:cSld"; "p:spTree"]%string ++ ["p:sp"]%string)%list).
  { repeat constructor; now left. }
  assert (H : ~ In "p:sp"%string ["p:sld"; "p:cSld"; "p:spTree"]%string).
  { intros [H|[H|[H|[]]]]; discriminate. }
  split; [exact K|]. split; [exact H|]. split; [reflexivity|].
  apply (X9_findAll_holds_what_get_reaches
           (slideDocOf [shapeOf None ["x"]; shapeOf None ["y"]] [])
           ["p:sld"; "p:cSld"; "p:spTree"]%string "p:sp" (shapeOf None ["x"]) K H).
  reflexivity.
Defined.

(** ** Resolved paths *)

Lemma split_app_sep c a b :
  Js.split c (a +:+ String c b) = Js.split c a ++ Js.split c b.
Proof.
  induction a as [|x a IH]; cbn [String.append Js.split].
  - now rewrite Ascii.eqb_refl.
  - destruct (Ascii.eqb x c); [now rewrite IH|].
    rewrite IH. destruct (Js.split c a) as [|h t] eqn:E; [|reflexivity].
    now destruct (split_not_nil c a).
Qed.

Lemma split_segments s : Forall (fun seg => hasSlash seg = false) (Js.split "/" s).
Proof.
  induction s as [|a s IH]; cbn [Js.split]; [repeat constructor|].
  destruct (Ascii.eqb a "/") eqn:Ha; [now constructor|].
  destruct (Js.split "/" s) as [|h t]; [repeat constructor; simpl; now rewrite Ha|].
  inversion IH as [|? ? Hh Ht]; subst. constructor; [|exact Ht].
  simpl. now rewrite Ha, Hh.
Qed.

Lemma join_split s : Js.join "/" (Js.split "/" s) = s.
Proof.
  induction s as [|a s IH]; [reflexivity|]. cbn [Js.split].
  destruct (Ascii.eqb a "/") eqn:Ha.
  - apply Ascii.eqb_eq in Ha. subst a.
    rewrite join_cons_sep by apply split_not_nil. now rewrite IH.
  - destruct (Js.split "/" s) as [|h t] eqn:E; [now destruct (split_not_nil "/" s)|].
    rewrite join_cons_char. now rewrite IH.
Qed.

Lemma split_join l :
  l <> [] -> Forall (fun seg => hasSlash seg = false) l ->
  Js.split "/" (Js.join "/" l) = l.
Proof.
  induction l as [|x l IH]; [congruence|]. intros _ H.
  inversion H as [|? ? Hx Hl]; subst.
  destruct l as [|y l]; [now apply split_no_slash|].
  rewrite join_cons_sep by discriminate.
  change ("/" +:+ Js.join "/" (y :: l))%string with (String "/" (Js.join "/" (y :: l))).
  rewrite split_app_sep, (split_no_slash x Hx), IH; [reflexivity|discriminate|exact Hl].
Qed.

Lemma Forall_removelast {A} (P : A -> Prop) l : Forall P l -> Forall P (removelast l).
Proof.
  induction 1 as [|x l Hx Hl IH]; [constructor|].
  destruct l as [|y l]; [constructor|].
  rewrite removelast_cons by discriminate. now constructor.
Qed.

Lemma resolveStep_normal (P : string -> Prop) parts : forall acc,
  Forall P parts -> Forall (fun seg => plainSegment seg /\ P seg) acc ->
  Forall (fun seg => plainSegment seg /\ P seg) (fold_left resolveStep parts acc).
Proof.
  induction parts as [|p parts IH]; intros acc Hp Hacc; [exact Hacc|].
  inversion Hp as [|? ? Hp1 Hp2]; subst. cbn [fold_left]. apply IH; [exact Hp2|].
  unfold resolveStep. destruct (String.eqb p "..") eqn:E2.
  - now apply Forall_removelast.
  - destruct (String.eqb p ".") eqn:E1; simpl; [exact Hacc|].
    apply Forall_app. split; [exact Hacc|].
    repeat constructor; [now apply String.eqb_neq|now apply String.eqb_neq|exact Hp1].
Qed.

(** X10. The path that [resolveZipPath] returns is normalised: none of
    its segments is [.] or [..], whatever the base and the target are; a
    target that climbs above the root of the package loses the
    references it cannot follow. *)
Theorem X10_resolved_path_is_normalised (fromKey target : string) :
  Forall plainSegment (Js.split "/" (resolveZipPath fromKey target)).
Proof.
  unfold resolveZipPath.
  set (parts := Js.split "/" (_ +:+ _)).
  assert (H : Forall (fun seg => plainSegment seg /\ hasSlash seg = false)
                (fold_left resolveStep parts [])).
  { apply resolveStep_normal; [apply split_segments|constructor]. }
  destruct (fold_left resolveStep parts []) as [|x l] eqn:E.
  - simpl. constructor; [split; discriminate|constructor].
  - rewrite split_join; [|discriminate|].
    + eapply List.Forall_impl; [|exact H]. now intros seg [Hs _].
    + eapply List.Forall_impl; [|exact H]. now intros seg [_ Hs].
Qed.

Lemma resolveStep_plain parts : forall acc,
  Forall plainSegment parts -> fold_left resolveStep parts acc = acc ++ parts.
Proof.
  induction parts as [|p parts IH]; intros acc H; [now rewrite app_nil_r|].
  inversion H as [|? ? [H1 H2] Hp]; subst. cbn [fold_left].
  unfold resolveStep at 2.
  apply String.eqb_neq in H1, H2. rewrite H1, H2. simpl.
  rewrite IH by exact Hp. now rewrite <- app_assoc.
Qed.

(** X11. A target whose segments hold no [.] and no [..] is appended,
    segment by segment, to what the directory of the base resolves to,
    whatever the base is; when the segments of that directory hold no
    [.] and no [..] either, the result is the directory, a separator and
    the target.  This includes a target that starts with a separator,
    which is not taken from the root of the package. *)
Theorem X11_plain_target_is_appended (fromKey target : string) :
  Forall plainSegment (Js.split "/" target) ->
  resolveZipPath fromKey target =
    Js.join "/" (fold_left resolveStep (Js.split "/" (dirPortion fromKey)) [] ++
                 Js.split "/" target) /\
  (Forall plainSegment (Js.split "/" (dirPortion fromKey)) ->
   resolveZipPath fromKey target = (dirPortion fromKey +:+ "/" +:+ target)%string).
Proof.
  intros H. unfold resolveZipPath. rewrite dir_is_dirPortion.
  change (dirPortion fromKey +:+ "/" +:+ target)%string
    with (dirPortion fromKey +:+ String "/" target)%string.
  rewrite split_app_sep, fold_left_app, (resolveStep_plain _ _ H).
  split; [reflexivity|].
  intros Hd. rewrite (resolveStep_plain _ _ Hd). cbn [app].
  rewrite <- split_app_sep. apply join_split.
Qed.

Lemma X11_plain_target_is_appended_witness :
  Forall plainSegment (Js.split "/" "/ppt/media/a.png") /\
  resolveZipPath "ppt/x/../slides/./slide1.xml" "/ppt/media/a.png"
  = "ppt/slides//ppt/media/a.png"%string /\
  resolveZipPath "ppt/x/../slides/./slide1.xml" "/ppt/media/a.png" =
    Js.join "/" (fold_left resolveStep
                   (Js.split "/" (dirPortion "ppt/x/../slides/./slide1.xml")) [] ++
                 Js.split "/" "/ppt/media/a.png").
Proof.
  assert (H : Forall plainSegment (Js.split "/" "/ppt/media/a.png")).
  { repeat constructor; discriminate. }
  split; [exact H|]. split; [reflexivity|].
  exact (proj1 (X11_plain_target_is_appended "ppt/x/../slides/./slide1.xml"
                  "/ppt/media/a.png" H)).
Defined.

Lemma dirPortion_app d file :
  hasSlash file = false -> dirPortion (d +:+ String "/" file) = d.
Proof.
  intros Hf. induction d as [|a d IH]; cbn [String.append dirPortion].
  - now rewrite Hf.
  - rewrite IH. replace (hasSlash (d +:+ String "/" file)) with true; [reflexivity|].
    clear. induction d as [|b d IH]; simpl; [reflexivity|]. rewrite <- IH. now rewrite orb_true_r.
Qed.

Lemma fold_resolve_app l1 l2 acc :
  fold_left resolveStep (l1 ++ l2) acc = fold_left resolveStep l2 (fold_left resolveStep l1 acc).
Proof. apply fold_left_app. Qed.

(** X12. A leading [..] of the target cancels the last directory of the
    base: from a file of the directory [d/sub], the target [../rest]
    resolves as [rest] does from a file of [d]. *)
Theorem X12_parent_reference_cancels_directory (d sub file file' rest : string) :
  plainSegment sub -> hasSlash sub = false ->
  hasSlash file = false -> hasSlash file' = false ->
  resolveZipPath (d +:+ "/" +:+ sub +:+ "/" +:+ file) ("../" +:+ rest) =
  resolveZipPath (d +:+ "/" +:+ file') rest.
Proof.
  intros [Hs1 Hs2] Hsub Hf Hf'. unfold resolveZipPath. rewrite !dir_is_dirPortion.
  assert (E1 : (d +:+ "/" +:+ sub +:+ "/" +:+ file)%string
               = ((d +:+ String "/" sub) +:+ String "/" file)%string)
    by (now rewrite sapp_assoc).
  rewrite E1, (dirPortion_app (d +:+ String "/" sub) file Hf).
  change (d +:+ "/" +:+ file')%string with (d +:+ String "/" file')%string.
  rewrite (dirPortion_app d file' Hf').
  f_equal.
  assert (E2 : ((d +:+ String "/" sub) +:+ "/" +:+ "../" +:+ rest)%string
               = (d +:+ String "/" (sub +:+ String "/" (".." +:+ String "/" rest)))%string)
    by (now rewrite sapp_assoc).
  rewrite E2.
  change (d +:+ "/" +:+ rest)%string with (d +:+ String "/" rest)%string.
  rewrite !split_app_sep. rewrite (split_no_slash sub Hsub).
  change (Js.split "/" "..") with [".."%string].
  rewrite !fold_resolve_app. f_equal.
  cbn [fold_left]. unfold resolveStep at 1 2.
  apply String.eqb_neq in Hs1, Hs2. rewrite Hs1, Hs2. simpl.
  now rewrite removelast_last.
Qed.

Lemma X12_parent_reference_cancels_directory_witness :
  plainSegment "slides" /\
  resolveZipPath ("ppt" +:+ "/" +:+ "slides" +:+ "/" +:+ "slide1.xml") ("../" +:+ "media/a.png") =
  resolveZipPath ("ppt" +:+ "/" +:+ "presentation.xml") "media/a.png" /\
  resolveZipPath "ppt/slides/slide1.xml" "../media/a.png" = "ppt/media/a.png"%string.
Proof.
  assert (H : plainSegment "slides") by (split; discriminate).
  split; [exact H|]. split; [|reflexivity].
  exact (X12_parent_reference_cancels_directory "ppt" "slides" "slide1.xml" "presentation.xml"
           "media/a.png" H eq_refl eq_refl eq_refl).
Defined.

(** ** The media cache *)

Lemma mediaStep_sound (zipAll : Zip) l : forall cache,
  incl l zipAll ->
  (forall k uri, cache !! k = Some uri -> mediaEntryOf zipAll k uri) ->
  forall k uri, fold_left mediaStep l cache !! k = Some uri -> mediaEntryOf zipAll k uri.
Proof.
  induction l as [|[zipPath zipFile] l IH]; intros cache Hl Hc; [exact Hc|].
  cbn [fold_left]. apply IH; [intros x Hx; apply Hl; now right|].
  unfold mediaStep.
  destruct (Js.startsWith zipPath "ppt/media/") eqn:Es; simpl; [|exact Hc].
  destruct (zdir zipFile) eqn:Ed; [exact Hc|].
  destruct (getMimeType _) as [mime|] eqn:Em; [|exact Hc].
  intros k uri Hk. apply lookup_insert_Some in Hk as [[<- <-]|[_ Hk]]; [|now apply Hc].
  split; [exact Es|]. exists zipFile, mime.
  split; [apply Hl; now left|]. now repeat split.
Qed.

Lemma mediaStep_keeps l : forall cache k,
  is_Some (cache !! k) -> is_Some (fold_left mediaStep l cache !! k).
Proof.
  induction l as [|[zipPath zipFile] l IH]; intros cache k Hk; [exact Hk|].
  cbn [fold_left]. apply IH. unfold mediaStep.
  destruct (negb _); [exact Hk|]. destruct (zdir zipFile); [exact Hk|].
  destruct (getMimeType _); [|exact Hk].
  destruct (decide (zipPath = k)) as [->|Hne].
  - rewrite lookup_insert_eq. eauto.
  - now rewrite lookup_insert_ne.
Qed.

Lemma mediaStep_complete l : forall cache k entry mime,
  In (k, entry) l -> Js.startsWith k "ppt/media/" = true -> zdir entry = false ->
  getMimeType (List.last (Js.split "." k) ""%string) = Some mime ->
  is_Some (fold_left mediaStep l cache !! k).
Proof.
  induction l as [|e l IH]; intros cache k entry mime Hin Hs Hd Hm; [destruct Hin|].
  cbn [fold_left]. destruct Hin as [->|Hin]; [|now apply (IH _ k entry mime)].
  apply mediaStep_keeps. unfold mediaStep. rewrite Hs, Hd, Hm. simpl.
  rewrite lookup_insert_eq. eauto.
Qed.

(** X13. The media cache of [convertPptxToHtml] holds exactly the
    entries of the package under [ppt/media/] for which [getMimeType]
    returns a type: every key of the cache is such a file, bound to the
    data URI of its base64 decoding (never an empty string), and every
    such file has an entry; a directory, and a file for which
    [getMimeType] returns nothing, is never cached.  The type is found
    in the table of [getMimeType] or, the table being a plain object,
    among the members of [Object.prototype]: a file named
    [x.constructor] is cached, with the text of a function as its
    type. *)
Theorem X13_media_cache_holds_the_images (zip : Zip) :
  (forall k uri, loadMedia zip !! k = Some uri ->
                 mediaEntryOf zip k uri /\ nonEmpty uri = true) /\
  (forall k entry mime,
     In (k, entry) zip -> Js.startsWith k "ppt/media/" = true -> zdir entry = false ->
     getMimeType (List.last (Js.split "." k) ""%string) = Some mime ->
     is_Some (loadMedia zip !! k)) /\
  (forall k, getMimeType (List.last (Js.split "." k) ""%string) = None ->
             loadMedia zip !! k = None) /\
  (forall ext, getMimeType ext = None <->
               assoc (Js.toLowerCase ext) mimeTable = None /\
               protoMember (Js.toLowerCase ext) = None).
Proof.
  assert (S : forall k uri, loadMedia zip !! k = Some uri -> mediaEntryOf zip k uri).
  { intros k uri H. apply (mediaStep_sound zip zip ∅); [apply incl_refl| |exact H].
    intros k' uri' H'. now rewrite lookup_empty in H'. }
  split; [|split; [|split]].
  - intros k uri H. pose proof (S k uri H) as M.
    split; [exact M|]. destruct M as (_ & entry & mime & _ & _ & _ & ->). reflexivity.
  - intros k entry mime. apply mediaStep_complete.
  - intros k Hn. destruct (loadMedia zip !! k) as [uri|] eqn:E; [|reflexivity].
    destruct (S k uri E) as (_ & entry & mime & _ & _ & Hm & _). congruence.
  - intros ext. unfold getMimeType. cbv zeta.
    destruct (assoc (Js.toLowerCase ext) mimeTable) as [m|].
    + split; [discriminate|]. intros [H _]. discriminate.
    + split; [auto|]. now intros [_ H].
Qed.

Lemma X13_media_cache_holds_the_images_witness :
  let zip : Zip :=
    [("ppt/media/a.PNG"%string, {| zdir := false; asString := ""; asBase64 := "QQ==" |});
     ("ppt/media/"%string, {| zdir := true; asString := ""; asBase64 := "" |});
     ("ppt/media/b.emf"%string, {| zdir := false; asString := ""; asBase64 := "Qg==" |});
     ("ppt/media/c.constructor"%string, {| zdir := false; asString := ""; asBase64 := "Qw==" |})] in
  loadMedia zip !! "ppt/media/a.PNG"%string = Some "data:image/png;base64,QQ=="%string /\
  mediaEntryOf zip "ppt/media/a.PNG" "data:image/png;base64,QQ==" /\
  getMimeType (List.last (Js.split "." "ppt/media/b.emf") ""%string) = None /\
  loadMedia zip !! "ppt/media/b.emf"%string = None /\
  loadMedia zip !! "ppt/media/c.constructor"%string
  = Some "data:function Object() { [native code] };base64,Qw=="%string.
Proof.
  intros zip.
  assert (H : loadMedia zip !! "ppt/media/a.PNG"%string
              = Some "data:image/png;base64,QQ=="%string) by (vm_compute; reflexivity).
  assert (N : getMimeType (List.last (Js.split "." "ppt/media/b.emf") ""%string) = None)
    by reflexivity.
  split; [exact H|]. split.
  - exact (proj1 (proj1 (X13_media_cache_holds_the_images zip) _ _ H)).
  - split; [exact N|]. split; [|vm_compute; reflexivity].
    exact (proj1 (proj2 (proj2 (X13_media_cache_holds_the_images zip))) _ N).
Defined.

(** ** Prefixes and suffixes of strings *)

Lemma rev_string_app a b :
  Js.rev_string (a +:+ b) = (Js.rev_string b +:+ Js.rev_string a)%string.
Proof.
  induction a as [|x a IH]; simpl; [now rewrite sapp_nil_r|].
  now rewrite IH, sapp_assoc.
Qed.

Lemma rev_string_involutive s : Js.rev_string (Js.rev_string s) = s.
Proof.
  induction s as [|x s IH]; [reflexivity|].
  simpl. rewrite rev_string_app, IH. reflexivity.
Qed.

Lemma prefix_app p x : String.prefix p (p +:+ x) = true.
Proof.
  induction p as [|a p IH]; simpl; [now destruct x|].
  destruct (ascii_dec a a); [exact IH|congruence].
Qed.

Lemma prefix_trans p q s :
  String.prefix (p +:+ q) s = true -> String.prefix p s = true.
Proof.
  intros H. rewrite (prefix_drop _ _ H), sapp_assoc. apply prefix_app.
Qed.

Lemma endsWith_app t p : Js.endsWith (t +:+ p) p = true.
Proof. unfold Js.endsWith. rewrite rev_string_app. apply prefix_app. Qed.

Lemma endsWith_split s p : Js.endsWith s p = true -> exists t, s = (t +:+ p)%string.
Proof.
  unfold Js.endsWith. intros H. apply prefix_drop in H.
  exists (Js.rev_string (Js.drop (String.length (Js.rev_string p)) (Js.rev_string s))).
  rewrite <- (rev_string_involutive s) at 1. rewrite H at 1.
  now rewrite rev_string_app, rev_string_involutive.
Qed.

Lemma length_app a b : String.length (a +:+ b) = (String.length a + String.length b)%nat.
Proof. induction a as [|x a IH]; simpl; [reflexivity|now rewrite IH]. Qed.

Lemma take_app a b : Js.take (String.length a) (a +:+ b) = a.
Proof.
  unfold Js.take. induction a as [|x a IH]; simpl; [now destruct b|now rewrite IH].
Qed.

Lemma stripSuffix_app suffix t : stripSuffix suffix (t +:+ suffix) = t.
Proof.
  unfold stripSuffix. rewrite endsWith_app, length_app.
  replace (String.length t + String.length suffix - String.length suffix)%nat
    with (String.length t) by lia.
  apply take_app.
Qed.

(** ** The order and the links of the sidebar *)

Lemma SidebarItem_nested_ind (P : SidebarItem -> Prop) :
  (forall t l, P (Link t l)) ->
  (forall t items, Forall P items -> P (Group t items)) ->
  forall item, P item.
Proof.
  intros HL HG. fix IH 1. intros [t l|t items]; [apply HL|].
  apply HG. induction items as [|x r IHr]; constructor; [apply IH|exact IHr].
Qed.

Lemma Node_nested_ind (P : Node -> Prop) :
  (forall data, P (File data)) ->
  (forall entries, Forall (fun e => P (snd e)) entries -> P (Dir entries)) ->
  forall n, P n.
Proof.
  intros HF HD. fix IH 1. intros [data|entries]; [apply HF|].
  apply HD. induction entries as [|[k x] r IHr]; constructor; [apply IH|exact IHr].
Qed.

Lemma Forall_flat_map_each {A B} (P : B -> Prop) (f : A -> list B) l :
  Forall (fun x => Forall P (f x)) l -> Forall P (flat_map f l).
Proof.
  induction 1 as [|x l Hx _ IH]; simpl; [constructor|].
  apply Forall_app. now split.
Qed.

Section SidebarOrder.
Variable localeCompare : string -> string -> Z.

Lemma insertSorted_dirsFirst x ds : forall fs,
  Forall (fun d => isDirectory d = true) ds ->
  Forall (fun d => isDirectory d = false) fs ->
  exists ds' fs',
    insertSorted (compareDirents localeCompare) x (ds ++ fs) = ds' ++ fs' /\
    Forall (fun d => isDirectory d = true) ds' /\
    Forall (fun d => isDirectory d = false) fs'.
Proof.
  induction ds as [|y ds IH]; intros fs Hds Hfs.
  - cbn [app]. destruct (isDirectory x) eqn:Ex.
    + exists [x], fs. split; [|split; [now repeat constructor|exact Hfs]].
      destruct fs as [|f fs]; [reflexivity|].
      inversion Hfs as [|? ? Hf _]; subst.
      cbn [insertSorted]. unfold compareDirents. now rewrite Ex, Hf.
    + exists [], (insertSorted (compareDirents localeCompare) x fs).
      split; [reflexivity|]. split; [constructor|].
      apply List.Forall_forall. intros d Hd.
      apply (Permutation_in _ (insertSorted_perm _ x fs)) in Hd.
      destruct Hd as [<-|Hd]; [exact Ex|].
      revert d Hd. now apply List.Forall_forall.
  - inversion Hds as [|? ? Hy Hds']; subst. cbn [app insertSorted].
    destruct (compareDirents localeCompare x y <=? 0)%Z eqn:E.
    + destruct (isDirectory x) eqn:Ex.
      * exists (x :: y :: ds), fs. split; [reflexivity|].
        split; [now repeat constructor|exact Hfs].
      * unfold compareDirents in E. rewrite Ex, Hy in E. discriminate.
    + destruct (IH fs Hds' Hfs) as (ds' & fs' & -> & Hd' & Hf').
      exists (y :: ds'), fs'. split; [reflexivity|]. split; [now constructor|exact Hf'].
Qed.

Lemma sortBy_dirsFirst l :
  exists ds fs,
    sortBy (compareDirents localeCompare) l = ds ++ fs /\
    Forall (fun d => isDirectory d = true) ds /\
    Forall (fun d => isDirectory d = false) fs.
Proof.
  induction l as [|x l (ds & fs & E & Hd & Hf)].
  - exists [], []. now repeat split.
  - cbn [sortBy]. rewrite E. now apply insertSorted_dirsFirst.
Qed.

Lemma itemsOfEntry_kind xlsx urlBase d :
  Forall (fun i => isGroup i = isDirectory d) (itemsOfEntry xlsx urlBase d).
Proof.
  unfold itemsOfEntry. destruct (isDirectory d); [now repeat constructor|].
  destruct (Js.endsWith (name d) ".md"); [now repeat constructor|].
  destruct (xlsx && _); now repeat constructor.
Qed.
End SidebarOrder.

(** X14. In the list that a sidebar builder returns for a directory, the
    groups (the sub-directories) all come before the links (the files),
    whatever the collation order of the host is.  This holds for the two
    builders of [convert.ts] and for [buildSidebarItems]. *)
Theorem X14_groups_before_links (localeCompare : string -> string -> Z)
    (keep : string -> bool) (xlsx : bool) (dir : Node) (urlBase : string) :
  exists groups links,
    buildItemsWith localeCompare keep xlsx dir urlBase = groups ++ links /\
    Forall (fun i => isGroup i = true) groups /\
    Forall (fun i => isGroup i = false) links.
Proof.
  destruct dir as [data|entries]; [exists [], []; now repeat split|].
  rewrite buildItems_unfold.
  destruct (sortBy_dirsFirst localeCompare
              (List.filter (fun d => keep (name d))
                 (map (direntOf (buildItemsWith localeCompare keep xlsx) urlBase) entries)))
    as (ds & fs & -> & Hd & Hf).
  rewrite flat_map_app.
  exists (flat_map (itemsOfEntry xlsx urlBase) ds), (flat_map (itemsOfEntry xlsx urlBase) fs).
  split; [reflexivity|]. split; apply Forall_flat_map_each.
  - eapply List.Forall_impl; [|exact Hd]. intros d E. cbv beta in E.
    rewrite <- E. apply itemsOfEntry_kind.
  - eapply List.Forall_impl; [|exact Hf]. intros d E. cbv beta in E.
    rewrite <- E. apply itemsOfEntry_kind.
Qed.

Lemma linksUnder_shorter p q : forall item,
  linksUnder (p +:+ q) item = true -> linksUnder p item = true.
Proof.
  apply (SidebarItem_nested_ind
           (fun item => linksUnder (p +:+ q) item = true -> linksUnder p item = true)).
  - intros t l. cbn [linksUnder]. unfold Js.startsWith. apply prefix_trans.
  - intros t items IH. cbn [linksUnder]. rewrite !forallb_forall.
    intros H x Hx. rewrite List.Forall_forall in IH. apply IH; auto.
Qed.

(** X15. Every link of the items built for a directory, at any depth,
    starts with the base URL the builder was called with: the sidebar
    holds no link that leaves the base, and the links below a group start
    with the URL of its directory. *)
Theorem X15_links_start_with_base (localeCompare : string -> string -> Z)
    (keep : string -> bool) (xlsx : bool) (dir : Node) (urlBase : string) :
  forallb (linksUnder urlBase) (buildItemsWith localeCompare keep xlsx dir urlBase) = true.
Proof.
  revert urlBase.
  apply (Node_nested_ind
           (fun n => forall urlBase,
              forallb (linksUnder urlBase)
                (buildItemsWith localeCompare keep xlsx n urlBase) = true)).
  - reflexivity.
  - intros entries IH urlBase. apply forallb_forall. intros item Hi.
    apply buildItems_In in Hi as (e & He & _ & Hi).
    rewrite List.Forall_forall in IH. specialize (IH e He).
    unfold itemsOfEntry, direntOf in Hi. cbn [name isDirectory subItems] in Hi.
    destruct (isDir (snd e)).
    + destruct Hi as [<-|[]]. cbn [linksUnder]. apply forallb_forall. intros x Hx.
      apply (linksUnder_shorter urlBase (fst e +:+ "/")).
      specialize (IH (urlBase +:+ fst e +:+ "/")%string).
      rewrite forallb_forall in IH. now apply IH.
    + destruct (Js.endsWith (fst e) ".md") eqn:Emd.
      * destruct Hi as [<-|[]]. cbn [linksUnder].
        destruct (endsWith_split _ _ Emd) as [t Ht]. rewrite Ht.
        rewrite <- sapp_assoc, stripSuffix_app. apply prefix_app.
      * destruct (xlsx && _); [|destruct Hi].
        destruct Hi as [<-|[]]. cbn [linksUnder]. apply prefix_app.
Qed.

(** ** Walking a directory *)

Lemma lookup_app p : forall n q,
  lookup n (p ++ q) = match lookup n p with
                      | Some m => lookup m q
                      | None => None
                      end.
Proof.
  induction p as [|s p IH]; intros n q; [reflexivity|].
  cbn [app lookup]. destruct n as [data|entries]; [reflexivity|].
  destruct (assoc s entries) as [child|]; [apply IH|reflexivity].
Qed.

Lemma assoc_NoDup {V} k (v : V) l : List.NoDup (map fst l) -> In (k, v) l -> assoc k l = Some v.
Proof.
  induction l as [|[k' v'] l IH]; simpl; intros Hn Hin; [destruct Hin|].
  inversion Hn as [|? ? Hk' Hl]; subst.
  destruct Hin as [[= -> ->]|Hin]; [now rewrite String.eqb_refl|].
  destruct (String.eqb k k') eqn:E; [|now apply IH].
  apply String.eqb_eq in E. subst k'. destruct Hk'.
  apply in_map_iff. now exists (k, v).
Qed.

Lemma walkNode_complete rel : forall entries dir data,
  lookup (Dir entries) rel = Some (File data) -> In (dir ++ rel) (walkNode dir (Dir entries)).
Proof.
  induction rel as [|s rel IH]; intros entries dir data H; [discriminate|].
  cbn [lookup] in H. destruct (assoc s entries) as [child|] eqn:Ea; [|discriminate].
  cbn [walkNode]. apply in_flat_map. exists (s, child).
  split; [now apply assoc_In|]. cbn [fst snd].
  destruct child as [d|sub].
  - destruct rel; [now left|discriminate].
  - replace (dir ++ s :: rel) with ((dir ++ [s]) ++ rel) by now rewrite <- app_assoc.
    now apply (IH sub _ data).
Qed.

Lemma walkNode_sound : forall n, distinctNames n -> forall dir p,
  In p (walkNode dir n) ->
  exists rel data, p = dir ++ rel /\ rel <> [] /\ lookup n rel = Some (File data).
Proof.
  apply (Node_nested_ind
           (fun n => distinctNames n -> forall dir p,
              In p (walkNode dir n) ->
              exists rel data, p = dir ++ rel /\ rel <> [] /\ lookup n rel = Some (File data))).
  - intros data _ dir p [].
  - intros entries IH Hd dir p Hp. inversion Hd as [|? Hn Hsub]; subst.
    cbn [walkNode] in Hp. apply in_flat_map in Hp as ([k child] & He & Hp).
    cbn [fst snd] in Hp.
    pose proof (assoc_NoDup k child entries Hn He) as Ea.
    rewrite List.Forall_forall in IH, Hsub.
    destruct child as [d|sub].
    + destruct Hp as [<-|[]]. exists [k], d. split; [reflexivity|].
      split; [discriminate|]. cbn [lookup]. now rewrite Ea.
    + destruct (IH _ He (Hsub _ He) _ _ Hp) as (rel & data & -> & Hr & Hl).
      exists (k :: rel), data. split; [now rewrite <- app_assoc|].
      split; [discriminate|]. cbn [lookup]. now rewrite Ea.
Qed.

Lemma walkNode_NoDup : forall n, distinctNames n -> forall dir, List.NoDup (walkNode dir n).
Proof.
  apply (Node_nested_ind (fun n => distinctNames n -> forall dir, List.NoDup (walkNode dir n))).
  - intros data _ dir. constructor.
  - intros entries IH Hd dir. inversion Hd as [|? Hn Hsub]; subst. clear Hd.
    cbn [walkNode]. induction entries as [|[k child] entries IHe]; [constructor|].
    cbn [flat_map fst snd]. cbn [map fst] in Hn.
    inversion Hn as [|? ? Hk Hn']; subst.
    inversion IH as [|? ? IHc IH']; subst.
    inversion Hsub as [|? ? Hc Hsub']; subst.
    assert (Hhere : forall p,
               In p match child with
                    | Dir _ => walkNode (dir ++ [k]) child
                    | File _ => [dir ++ [k]]
                    end -> exists rel, p = dir ++ k :: rel).
    { intros p Hp. destruct child as [d|sub].
      - destruct Hp as [<-|[]]. now exists [].
      - destruct (walkNode_sound _ Hc _ _ Hp) as (rel & _ & -> & _).
        exists rel. now rewrite <- app_assoc. }
    assert (Hrest : forall p,
               In p (flat_map (fun e : string * Node =>
                                 match snd e with
                                 | Dir _ => walkNode (dir ++ [fst e]) (snd e)
                                 | File _ => [dir ++ [fst e]]
                                 end) entries) ->
               exists k' rel, In k' (map fst entries) /\ p = dir ++ k' :: rel).
    { intros p Hp. apply in_flat_map in Hp as ([k' c'] & He & Hp). cbn [fst snd] in Hp.
      exists k'. assert (Hk' : In k' (map fst entries)) by (apply in_map_iff; now exists (k', c')).
      destruct c' as [d|sub].
      - destruct Hp as [<-|[]]. exists []. auto.
      - rewrite List.Forall_forall in Hsub'.
        destruct (walkNode_sound _ (Hsub' _ He) _ _ Hp) as (rel & _ & -> & _).
        exists rel. split; [exact Hk'|]. now rewrite <- app_assoc. }
    apply List.NoDup_app.
    + destruct child as [d|sub]; [repeat constructor; intros []|now apply IHc].
    + now apply IHe.
    + intros p Hp Hp'.
      destruct (Hhere p Hp) as [rel ->].
      destruct (Hrest _ Hp') as (k' & rel' & Hk' & E).
      apply app_inv_head in E. injection E as -> _. contradiction.
Qed.

Lemma distinctNames_lookup p : forall n m,
  distinctNames n -> lookup n p = Some m -> distinctNames m.
Proof.
  induction p as [|s p IH]; intros n m Hd H; [now injection H as <-|].
  cbn [lookup] in H. destruct n as [data|entries]; [discriminate|].
  destruct (assoc s entries) as [child|] eqn:Ea; [|discriminate].
  inversion Hd as [|? _ Hsub]; subst. rewrite List.Forall_forall in Hsub.
  apply (IH child m); [|exact H]. apply (Hsub (s, child)). now apply assoc_In.
Qed.

(** X16. [walk] changes nothing and lists the files below the directory:
    every file found below [dir] is in the list, at any depth; and, the
    names of a directory being distinct, every path of the list is a file
    below [dir], listed once.  No directory is listed, so an empty
    directory leaves no trace. *)
Theorem X16_walk_lists_the_files (dir : path) (fs fs' : Node) (files : list path) :
  walk dir fs = (fs', Ok files) ->
  fs' = fs /\
  (forall rel data, lookup fs (dir ++ rel) = Some (File data) -> In (dir ++ rel) files) /\
  (distinctNames fs ->
   List.NoDup files /\
   forall p, In p files ->
     exists rel data, p = dir ++ rel /\ rel <> [] /\ lookup fs p = Some (File data)).
Proof.
  unfold walk, liftR. intros H. injection H as <- H.
  destruct (lookup fs dir) as [[d|entries]|] eqn:El; try discriminate.
  injection H as <-. split; [reflexivity|]. split.
  - intros rel data Hl. rewrite lookup_app, El in Hl.
    exact (walkNode_complete rel entries dir data Hl).
  - intros Hd. pose proof (distinctNames_lookup _ _ _ Hd El) as Hd'. split.
    + exact (walkNode_NoDup (Dir entries) Hd' dir).
    + intros p Hp.
      destruct (walkNode_sound (Dir entries) Hd' dir p Hp) as (rel & data & -> & Hr & Hl).
      exists rel, data. split; [reflexivity|]. split; [exact Hr|].
      now rewrite lookup_app, El.
Qed.

Lemma X16_walk_lists_the_files_witness :
  let fs := Dir [("in"%string, Dir [("a.docx"%string, File "A");
                                    ("empty"%string, Dir []);
                                    ("sub"%string, Dir [("b.pptx"%string, File "B")])])] in
  walk ["in"%string] fs = (fs, Ok [["in"; "a.docx"]; ["in"; "sub"; "b.pptx"]]%string) /\
  In (["in"%string] ++ ["sub"; "b.pptx"]%string)
     [["in"; "a.docx"]; ["in"; "sub"; "b.pptx"]]%string.
Proof.
  intros fs. split; [reflexivity|].
  apply (proj1 (proj2 (X16_walk_lists_the_files ["in"%string] fs fs _ eq_refl))
           ["sub"; "b.pptx"]%string "B").
  reflexivity.
Defined.

(** ** Creating directories *)

Lemma setEntry_same {V} s (v : V) l : assoc s l = Some v -> setEntry s v l = l.
Proof.
  induction l as [|[k' v'] l IH]; simpl; [discriminate|].
  destruct (String.eqb s k') eqn:E.
  - apply String.eqb_eq in E. subst k'. now intros [= ->].
  - intros H. now rewrite IH.
Qed.

Lemma mkdirSync_isDir p : forall n n',
  mkdirSync n p = Ok n' -> exists es, lookup n' p = Some (Dir es).
Proof.
  induction p as [|s p IH]; intros n n' H.
  - simpl in *. destruct n as [|es]; [discriminate|]. injection H as <-. eauto.
  - simpl in H. destruct n as [|entries]; [discriminate|].
    destruct (mkdirSync _ p) as [child'|] eqn:Hc; [|discriminate].
    simpl in H. injection H as <-. cbn [lookup].
    rewrite assoc_setEntry, String.eqb_refl. now apply (IH _ _ Hc).
Qed.

Lemma mkdirSync_idem p : forall n es, lookup n p = Some (Dir es) -> mkdirSync n p = Ok n.
Proof.
  induction p as [|s p IH]; intros n es H.
  - simpl in *. now injection H as ->.
  - simpl in *. destruct n as [|entries]; [discriminate|].
    destruct (assoc s entries) as [child|] eqn:Ea; [|discriminate].
    rewrite (IH child es H). simpl. now rewrite setEntry_same.
Qed.

Lemma mkdirSync_throws p : forall n,
  (exists e, mkdirSync n p = Throw e) <-> fileOnPath n p.
Proof.
  unfold fileOnPath. induction p as [|s p IH]; intros n.
  - simpl. destruct n as [data|entries]; split.
    + intros _. now exists [], [], data.
    + eauto.
    + intros [e H]. discriminate.
    + intros (pre & rest & data & E & H).
      symmetry in E. apply app_eq_nil in E as [-> _]. discriminate.
  - destruct n as [data|entries].
    + split; [intros _; now exists [], (s :: p), data|simpl; eauto].
    + cbn [mkdirSync].
      set (child := match assoc s entries with Some c => c | None => Dir [] end).
      specialize (IH child). split.
      * intros [e H].
        destruct (mkdirSync child p) as [child'|e'] eqn:Hc; [discriminate|].
        destruct (proj1 IH (ex_intro _ e' eq_refl)) as (pre & rest & data & -> & Hl).
        exists (s :: pre), rest, data. split; [reflexivity|].
        cbn [lookup]. subst child. destruct (assoc s entries) as [c|]; [exact Hl|].
        destruct pre; discriminate.
      * intros (pre & rest & data & E & Hl).
        destruct pre as [|s' pre]; [discriminate|].
        injection E as E1 E2. subst s'. cbn [lookup] in Hl.
        destruct (assoc s entries) as [c|] eqn:Ea; [|discriminate].
        destruct (proj2 IH) as [e He].
        { exists pre, rest, data. now subst child. }
        rewrite He. simpl. eauto.
Qed.

(** X17. [mkdirp] creates what is missing and nothing else: when it
    returns, the directory exists and the files are the ones that were
    there, with their content; on a directory that exists it changes
    nothing; and it throws exactly when a file stands on the way, leaving
    the file system as it was. *)
Theorem X17_mkdirp_creates_the_directory (dir : path) (fs : Node) :
  (forall fs', mkdirp dir fs = (fs', Ok tt) ->
     (exists es, lookup fs' dir = Some (Dir es)) /\ sameFiles fs fs') /\
  (forall es, lookup fs dir = Some (Dir es) -> mkdirp dir fs = (fs, Ok tt)) /\
  ((exists e, mkdirp dir fs = (fs, Throw e)) <-> fileOnPath fs dir).
Proof.
  split; [|split].
  - intros fs' H. split; [|now apply (mkdirp_sameFiles dir)].
    apply (mkdirSync_isDir dir fs). exact (liftW_Ok _ _ _ _ H).
  - intros es H. unfold mkdirp, liftW. now rewrite (mkdirSync_idem dir fs es H).
  - rewrite <- mkdirSync_throws. unfold mkdirp, liftW.
    destruct (mkdirSync fs dir) as [n'|e]; split.
    + intros [e H]. discriminate.
    + intros [e H]. discriminate.
    + eauto.
    + eauto.
Qed.

Lemma X17_mkdirp_creates_the_directory_witness :
  let fs := Dir [("out"%string, Dir [("a.md"%string, File "A")])] in
  mkdirp ["out"; "sub"; "deep"]%string fs
  = (Dir [("out"%string, Dir [("a.md"%string, File "A");
                              ("sub"%string, Dir [("deep"%string, Dir [])])])], Ok tt) /\
  sameFiles fs (Dir [("out"%string, Dir [("a.md"%string, File "A");
                                        ("sub"%string, Dir [("deep"%string, Dir [])])])]) /\
  fileOnPath fs ["out"; "a.md"; "x"]%string /\
  exists e, mkdirp ["out"; "a.md"; "x"]%string fs = (fs, Throw e).
Proof.
  intros fs. split; [reflexivity|]. split; [|split].
  - exact (proj2 (proj1 (X17_mkdirp_creates_the_directory ["out"; "sub"; "deep"]%string fs)
                    _ eq_refl)).
  - now exists ["out"; "a.md"]%string, ["x"%string], "A"%string.
  - apply (proj2 (proj2 (proj2 (X17_mkdirp_creates_the_directory
                                  ["out"; "a.md"; "x"]%string fs)))).
    now exists ["out"; "a.md"]%string, ["x"%string], "A"%string.
Defined.

(** ** What a run leaves outside the output directory *)

Lemma writeFileSync_frame p : forall n n' d,
  writeFileSync n p d = Ok n' ->
  forall q data, q <> p ->
    (lookup n' q = Some (File data) <-> lookup n q = Some (File data)).
Proof.
  induction p as [|s p IH]; intros n n' d H q data Hq; [discriminate|].
  destruct n as [|entries]; [destruct p; discriminate|].
  destruct p as [|s' p].
  - simpl in H.
    assert (E : n' = Dir (setEntry s (File d) entries) /\
                forall es, assoc s entries <> Some (Dir es)).
    { destruct (assoc s entries) as [[|]|]; split; congruence. }
    destruct E as [-> Hnd].
    destruct q as [|k q]; [simpl; split; discriminate|].
    cbn [lookup]. rewrite assoc_setEntry.
    destruct (String.eqb k s) eqn:Ek; [|reflexivity].
    apply String.eqb_eq in Ek. subst k.
    destruct q as [|k q]; [congruence|].
    destruct (assoc s entries) as [[x|es]|]; [|now destruct (Hnd es)|];
      simpl; split; discriminate.
  - change (writeFileSync (Dir entries) (s :: s' :: p) d)
      with (match assoc s entries with
            | Some child => let* child' := writeFileSync child (s' :: p) d in
                            Ok (Dir (setEntry s child' entries))
            | None => Throw "ENOENT: no such file or directory"
            end) in H.
    destruct (assoc s entries) as [child|] eqn:Ea; [|discriminate].
    destruct (writeFileSync child (s' :: p) d) as [child'|] eqn:Hc; [|discriminate].
    simpl in H. injection H as <-.
    destruct q as [|k q]; [simpl; split; discriminate|].
    cbn [lookup]. rewrite assoc_setEntry.
    destruct (String.eqb k s) eqn:Ek; [|reflexivity].
    apply String.eqb_eq in Ek. subst k. rewrite Ea.
    apply (IH _ _ _ Hc). congruence.
Qed.

Section Frame.
Variable R : Node -> Node -> Prop.
Hypothesis R_refl : forall fs, R fs fs.
Hypothesis R_trans : forall a b c, R a b -> R b c -> R a c.

Lemma keeps_ret {A} (a : A) : keeps R (ret a).
Proof. intros fs fs' r [= <- _]. apply R_refl. Qed.

Lemma keeps_liftR {A} (f : Node -> result A) : keeps R (liftR f).
Proof. intros fs fs' r [= <- _]. apply R_refl. Qed.

Lemma keeps_liftW f : (forall fs fs', f fs = Ok fs' -> R fs fs') -> keeps R (liftW f).
Proof.
  intros Hf fs fs' r. unfold liftW. destruct (f fs) as [fs1|e] eqn:E.
  - intros [= <- _]. now apply Hf.
  - intros [= <- _]. apply R_refl.
Qed.

Lemma keeps_bind {A B} (m : IO A) (k : A -> IO B) :
  keeps R m -> (forall a, keeps R (k a)) -> keeps R (bind m k).
Proof.
  intros Hm Hk fs fs' r. unfold bind. destruct (m fs) as [fs1 [a|e]] eqn:E.
  - intros H. apply (R_trans _ fs1); [now apply (Hm _ _ _ E)|now apply (Hk a _ _ _ H)].
  - intros [= <- _]. now apply (Hm _ _ _ E).
Qed.

Lemma keeps_tryCatch {A} (m : IO A) (h : string -> IO A) :
  keeps R m -> (forall e, keeps R (h e)) -> keeps R (tryCatch m h).
Proof.
  intros Hm Hh fs fs' r. unfold tryCatch. destruct (m fs) as [fs1 [a|e]] eqn:E.
  - intros [= <- _]. now apply (Hm _ _ _ E).
  - intros H. apply (R_trans _ fs1); [now apply (Hm _ _ _ E)|now apply (Hh e _ _ _ H)].
Qed.

Lemma keeps_forEach {A} (body : A -> IO unit) l :
  (forall x, keeps R (body x)) -> keeps R (forEach body l).
Proof.
  intros Hb. induction l as [|x l IH]; cbn [forEach]; [apply keeps_ret|].
  apply keeps_bind; [apply Hb|intros _; exact IH].
Qed.

Lemma keeps_foldIO {A S} (body : S -> A -> IO S) l :
  (forall s x, keeps R (body s x)) -> forall s, keeps R (foldIO body l s).
Proof.
  intros Hb. induction l as [|x l IH]; intros s; cbn [foldIO]; [apply keeps_ret|].
  apply keeps_bind; [apply Hb|exact IH].
Qed.
End Frame.

Section OutputFrame.
Variable out : path.

Lemma untouched_refl fs : untouchedOutside out fs fs.
Proof. intros q data _. reflexivity. Qed.

Lemma untouched_trans a b c :
  untouchedOutside out a b -> untouchedOutside out b c -> untouchedOutside out a c.
Proof. intros H1 H2 q data Hq. rewrite (H2 q data Hq). now apply H1. Qed.

Lemma keeps_mkdirp d : keeps (untouchedOutside out) (mkdirp d).
Proof.
  apply keeps_liftW; [apply untouched_refl|].
  intros fs fs' H q data _. now apply (mkdirSync_sameFiles d).
Qed.

Lemma keeps_writeFile rel data : keeps (untouchedOutside out) (writeFile (out ++ rel) data).
Proof.
  apply keeps_liftW; [apply untouched_refl|].
  intros fs fs' H q d Hq. apply (writeFileSync_frame _ _ _ _ H). apply Hq.
Qed.
End OutputFrame.

(** X18. A run of the Markdown variant touches no file outside the output
    directory: whatever the converters do and however the run ends, a
    path that is not the output directory, nor below it, holds a file
    with some content after the run exactly when it did before.  In
    particular the documents of an input directory that is not in the
    output directory are left as they were. *)
Theorem X18_markdown_run_stays_in_output
    (INPUT_DIR OUTPUT_DIR : path)
    (mammoth : string -> result string) (turndown : string -> string)
    (loadAsync : string -> result Zip) (parseStringPromise : string -> result JsVal)
    (localeCompare : string -> string -> Z)
    (fs fs' : Node) (r : result Status) (q : path) (data : string) :
  mainMd INPUT_DIR OUTPUT_DIR mammoth turndown loadAsync parseStringPromise localeCompare fs
    = (fs', r) ->
  outsideOf OUTPUT_DIR q ->
  (lookup fs' q = Some (File data) <-> lookup fs q = Some (File data)).
Proof.
  intros H Hq. revert q data Hq.
  change (untouchedOutside OUTPUT_DIR fs fs').
  revert fs fs' r H. change (keeps (untouchedOutside OUTPUT_DIR)
    (mainMd INPUT_DIR OUTPUT_DIR mammoth turndown loadAsync parseStringPromise localeCompare)).
  pose proof (untouched_refl OUTPUT_DIR) as Hr.
  pose proof (untouched_trans OUTPUT_DIR) as Ht.
  unfold mainMd.
  apply keeps_bind; [exact Ht| |].
  { intros a b c [= <- _]. apply Hr. }
  intros found. destruct (negb found); [now apply keeps_ret|].
  apply keeps_bind; [exact Ht|apply keeps_mkdirp|]. intros _.
  apply keeps_bind; [exact Ht|now apply keeps_liftR|]. intros files.
  destruct (List.filter isInputFile files) as [|f0 rest]; [now apply keeps_ret|].
  apply keeps_bind; [exact Ht| |].
  { apply keeps_forEach; [exact Hr|exact Ht|]. intros f. unfold copyXlsx, copyFileSync.
    apply keeps_bind; [exact Ht|apply keeps_mkdirp|]. intros _.
    apply keeps_bind; [exact Ht|now apply keeps_liftR|]. intros d.
    apply keeps_writeFile. }
  intros _.
  apply keeps_bind; [exact Ht| |].
  { apply keeps_foldIO; [exact Hr|exact Ht|]. intros [ok fail] f. unfold convertOneMd.
    apply keeps_bind; [exact Ht|apply keeps_mkdirp|]. intros _.
    apply keeps_tryCatch; [exact Ht| |intros e; now apply keeps_ret].
    apply keeps_bind; [exact Ht| |].
    - intros a b c Hc. destruct (String.eqb _ ".docx").
      + pose proof (convertDocx_reads mammoth turndown f a) as E.
        rewrite Hc in E. simpl in E. subst b. apply Hr.
      + pose proof (convertPptx_reads loadAsync parseStringPromise f a) as E.
        rewrite Hc in E. simpl in E. subst b. apply Hr.
    - intros body. apply keeps_bind; [exact Ht| |intros _; now apply keeps_ret].
      unfold outPathMd. apply keeps_writeFile. }
  intros counts.
  apply keeps_bind; [exact Ht| |intros _; now apply keeps_ret].
  unfold writeSidebar, buildSidebar.
  apply keeps_bind; [exact Ht|now apply keeps_liftR|]. intros src.
  apply keeps_writeFile.
Qed.

Lemma X18_markdown_run_stays_in_output_witness :
  let fs := Dir [("in"%string, Dir [("a.docx"%string, File "A")])] in
  let fs' := Dir [("in"%string, Dir [("a.docx"%string, File "A")]);
                  ("out"%string,
                   Dir [("a.md"%string,
                         File (frontmatter "a" "a.docx" +:+ "md:html:A" +:+ Js.nl));
                        ("sidebar.ts"%string, File (sidebarSource [Link "a" "/a"]))])] in
  mainMd ["in"%string] ["out"%string]
    (fun raw => Ok ("html:" +:+ raw)%string) (fun html => ("md:" +:+ html)%string)
    (fun _ => Throw "not a package") (fun _ => Throw "not XML") (fun _ _ => 0%Z) fs
  = (fs', Ok (Done 1 0)) /\
  outsideOf ["out"%string] ["in"; "a.docx"]%string /\
  (lookup fs' ["in"; "a.docx"]%string = Some (File "A") <->
   lookup fs ["in"; "a.docx"]%string = Some (File "A")).
Proof.
  intros fs fs'.
  assert (Hq : outsideOf ["out"%string] ["in"; "a.docx"]%string).
  { intros rest H. discriminate H. }
  split; [reflexivity|]. split; [exact Hq|].
  exact (X18_markdown_run_stays_in_output ["in"%string] ["out"%string]
           (fun raw => Ok ("html:" +:+ raw)%string) (fun html => ("md:" +:+ html)%string)
           (fun _ => Throw "not a package") (fun _ => Throw "not XML") (fun _ _ => 0%Z)
           fs fs' (Ok (Done 1 0)) ["in"; "a.docx"]%string "A" eq_refl Hq).
Defined.

(** ** The numbers of the slide entries *)

Lemma string_of_uint_digits d : allChars Js.isDigit (NilEmpty.string_of_uint d) = true.
Proof. induction d; simpl; auto. Qed.

Lemma natToString_digits n :
  allChars Js.isDigit (Js.natToString n) = true /\ nonEmpty (Js.natToString n) = true.
Proof.
  unfold Js.natToString, NilZero.string_of_uint.
  destruct (Nat.to_uint n) eqn:E; try (split; [|reflexivity]);
    try (rewrite <- E at 1; apply string_of_uint_digits); reflexivity.
Qed.

Lemma digitsValue_of_uint d : forall acc,
  Js.digitsValue (Z.of_nat acc) (NilEmpty.string_of_uint d) = Z.of_nat (Nat.of_uint_acc d acc).
Proof.
  induction d; intros acc; cbn [NilEmpty.string_of_uint Js.digitsValue Nat.of_uint_acc];
    [reflexivity|..]; rewrite <- IHd; f_equal; rewrite Nat.tail_mul_spec;
    match goal with
    | |- context [Js.digitVal ?c] =>
        let v := eval vm_compute in (Js.digitVal c) in change (Js.digitVal c) with v
    end; lia.
Qed.

Lemma natToString_value n : Js.digitsValue 0 (Js.natToString n) = Z.of_nat n.
Proof.
  rewrite <- (DecimalNat.Unsigned.of_to n) at 2.
  unfold Js.natToString, NilZero.string_of_uint, Nat.of_uint.
  destruct (Nat.to_uint n) eqn:E; [reflexivity|..];
    rewrite <- E; apply (digitsValue_of_uint _ 0).
Qed.

Lemma spanDigits_digits d r :
  allChars Js.isDigit d = true -> Js.spanDigits r = (""%string, r) ->
  Js.spanDigits (d +:+ r) = (d, r).
Proof.
  intros Hd Hr. induction d as [|a d IH]; [exact Hr|].
  cbn [allChars] in Hd. apply andb_true_iff in Hd as [Ha Hd].
  cbn [String.append Js.spanDigits]. now rewrite Ha, (IH Hd).
Qed.

Lemma slide_key_of_number n :
  isSlideKey (slideKeyOf n) = true /\ slideDigitsValue (slideKeyOf n) = Z.of_nat n.
Proof.
  destruct (natToString_digits n) as [Hd Hn].
  assert (E : Js.spanDigits (Js.natToString n +:+ ".xml") = (Js.natToString n, ".xml"%string))
    by (now apply spanDigits_digits).
  split.
  - unfold isSlideKey, slideKeyOf.
    replace (Js.startsWith _ _) with true by (symmetry; apply prefix_app).
    cbn [andb]. change (Js.drop _ _) with (Js.natToString n +:+ ".xml")%string.
    now rewrite E, Hn.
  - unfold slideDigitsValue, slideKeyOf. rewrite (match_slide_key _ _ _ E Hn).
    apply natToString_value.
Qed.

Lemma slideNumOf_small n :
  (Z.of_nat n < 2 ^ 53)%Z -> slideNumOf (slideKeyOf n) = Z.of_nat n.
Proof.
  intros H. unfold slideNumOf. rewrite (proj2 (slide_key_of_number n)).
  now apply toNumber_small.
Qed.

(** X19. The entry [ppt/slides/slide<n>.xml] of the slide numbered [n]
    passes the filter on the entries of the package, for every natural
    number [n]; the number it is sorted by is the double nearest to [n],
    which is [n] itself when [n] is below 2^53, and is not [n] for
    2^53 + 1. *)
Theorem X19_slide_key_round_trip (n : nat) :
  isSlideKey (slideKeyOf n) = true /\
  slideNumOf (slideKeyOf n) = Js.toNumber (Z.of_nat n) /\
  ((Z.of_nat n < 2 ^ 53)%Z -> slideNumOf (slideKeyOf n) = Z.of_nat n) /\
  Js.toNumber (2 ^ 53 + 1) = (2 ^ 53)%Z.
Proof.
  split; [apply slide_key_of_number|]. split.
  - unfold slideNumOf. now rewrite (proj2 (slide_key_of_number n)).
  - split; [apply slideNumOf_small|reflexivity].
Qed.

Lemma X19_slide_key_round_trip_witness :
  (Z.of_nat 12 < 2 ^ 53)%Z /\
  slideKeyOf 12 = "ppt/slides/slide12.xml"%string /\
  slideNumOf (slideKeyOf 12) = Z.of_nat 12.
Proof.
  assert (H : (Z.of_nat 12 < 2 ^ 53)%Z) by reflexivity.
  split; [exact H|]. split; [reflexivity|].
  exact (proj1 (proj2 (proj2 (X19_slide_key_round_trip 12))) H).
Defined.

Lemma StronglySorted_map {A B} (f : A -> B) (R : B -> B -> Prop) l :
  StronglySorted (fun a b => R (f a) (f b)) l -> StronglySorted R (map f l).
Proof.
  induction 1 as [|x l _ IH Hx]; simpl; constructor; [exact IH|].
  apply List.Forall_forall. intros y Hy. apply in_map_iff in Hy as (z & <- & Hz).
  rewrite List.Forall_forall in Hx. now apply Hx.
Qed.

Lemma seq_sorted N : forall a, StronglySorted Z.le (map Z.of_nat (seq a N)).
Proof.
  induction N as [|N IH]; intros a; simpl; constructor; [apply IH|].
  apply List.Forall_forall. intros y Hy. apply in_map_iff in Hy as (z & <- & Hz).
  apply in_seq in Hz. lia.
Qed.

Lemma map_eq_inj {A B} (f : A -> B) : forall l1 l2,
  map f l1 = map f l2 ->
  (forall x y, In x l1 -> In y l2 -> f x = f y -> x = y) ->
  l1 = l2.
Proof.
  induction l1 as [|x l1 IH]; intros [|y l2] H Hinj; try discriminate; [reflexivity|].
  simpl in H. injection H as Hxy H. f_equal.
  - apply Hinj; [now left|now left|exact Hxy].
  - apply IH; [exact H|]. intros a b Ha Hb. apply Hinj; now right.
Qed.

Lemma indexed_slideKeys N : forall i,
  indexed i (map slideKeyOf (seq (S i) N)) = map (fun j => (j, slideKeyOf (S j))) (seq i N).
Proof.
  induction N as [|N IH]; intros i; [reflexivity|].
  simpl. f_equal. apply IH.
Qed.

(** X20. In a package whose slide entries are numbered 1 to [N] without
    a gap, in whatever order the package lists them, the loop of either
    converter meets the entry [slide<i+1>.xml] at the position [i]: every
    slide is rendered under its own number, and the notes and the
    relationship manifest looked up for the position are the ones of that
    slide.  ([N] is below 2^53, as the length of an array is.) *)
Theorem X20_contiguous_deck_positions (zip : Zip) (N : nat) :
  (Z.of_nat N < 2 ^ 53)%Z ->
  Permutation (List.filter isSlideKey (zipKeys zip)) (map slideKeyOf (seq 1 N)) ->
  indexed 0 (slideKeys zip) = map (fun i => (i, slideKeyOf (S i))) (seq 0 N).
Proof.
  intros HN HP. rewrite <- indexed_slideKeys. f_equal.
  assert (P : Permutation (slideKeys zip) (map slideKeyOf (seq 1 N)))
    by (etransitivity; [apply slideKeys_perm|exact HP]).
  assert (Hsmall : forall n, In n (seq 1 N) -> slideNumOf (slideKeyOf n) = Z.of_nat n).
  { intros n Hn. apply in_seq in Hn. apply slideNumOf_small. lia. }
  assert (Hnum : map slideNumOf (map slideKeyOf (seq 1 N)) = map Z.of_nat (seq 1 N)).
  { rewrite map_map. apply map_ext_in. exact Hsmall. }
  apply (map_eq_inj slideNumOf).
  - apply (StronglySorted_unique Z.le).
    + apply StronglySorted_map, slideKeys_sorted.
    + rewrite Hnum. apply seq_sorted.
    + now apply Permutation_map.
  - intros x y Hx Hy E.
    apply (Permutation_in _ P) in Hx.
    apply in_map_iff in Hx as (a & <- & Ha). apply in_map_iff in Hy as (b & <- & Hb).
    rewrite (Hsmall a Ha), (Hsmall b Hb) in E. apply Nat2Z.inj in E. now subst.
Qed.

Lemma X20_contiguous_deck_positions_witness :
  let zip : Zip :=
    [ ("ppt/slides/slide2.xml"%string, textEntry "two");
      ("ppt/presentation.xml"%string, textEntry "pres");
      ("ppt/slides/slide1.xml"%string, textEntry "one") ] in
  Permutation (List.filter isSlideKey (zipKeys zip)) (map slideKeyOf (seq 1 2)) /\
  indexed 0 (slideKeys zip) =
    [(0%nat, "ppt/slides/slide1.xml"%string); (1%nat, "ppt/slides/slide2.xml"%string)].
Proof.
  intros zip.
  assert (P : Permutation (List.filter isSlideKey (zipKeys zip)) (map slideKeyOf (seq 1 2)))
    by apply perm_swap.
  split; [exact P|].
  exact (X20_contiguous_deck_positions zip 2 eq_refl P).
Defined.

(** ** Slugs *)

Lemma allChars_app p a b : allChars p (a +:+ b) = allChars p a && allChars p b.
Proof. induction a as [|x a IH]; simpl; [reflexivity|]. now rewrite IH, andb_assoc. Qed.

Lemma allChars_rev p s : allChars p (Js.rev_string s) = allChars p s.
Proof.
  induction s as [|x s IH]; [reflexivity|].
  simpl. rewrite allChars_app, IH. simpl. rewrite andb_true_r. apply andb_comm.
Qed.

Lemma dropDashes_cons a s :
  dropDashes (String a s) = if Ascii.eqb a "-" then dropDashes s else String a s.
Proof. destruct a as [[] [] [] [] [] [] [] []]; reflexivity. Qed.

Lemma startsWith_dash a s : Js.startsWith (String a s) "-" = Ascii.eqb a "-".
Proof.
  destruct s; destruct a as [[] [] [] [] [] [] [] []]; reflexivity.
Qed.

Lemma dropDashes_suffix s : exists d, s = (d +:+ dropDashes s)%string.
Proof.
  induction s as [|a s [d IH]]; [now exists ""%string|].
  rewrite dropDashes_cons. destruct (Ascii.eqb a "-").
  - exists (String a d). simpl. now rewrite <- IH.
  - now exists ""%string.
Qed.

Lemma dropDashes_head s : Js.startsWith (dropDashes s) "-" = false.
Proof.
  induction s as [|a s IH]; [reflexivity|].
  rewrite dropDashes_cons. destruct (Ascii.eqb a "-") eqn:E; [exact IH|].
  now rewrite startsWith_dash.
Qed.

Lemma dropDashes_id s : Js.startsWith s "-" = false -> dropDashes s = s.
Proof.
  destruct s as [|a s]; [reflexivity|].
  rewrite startsWith_dash, dropDashes_cons. now intros ->.
Qed.

Lemma allChars_dropDashes p s : allChars p s = true -> allChars p (dropDashes s) = true.
Proof.
  destruct (dropDashes_suffix s) as [d E]. rewrite E at 1.
  rewrite allChars_app. intros H. now apply andb_true_iff in H.
Qed.

Lemma allChars_dashUnsafe s : allChars slugSafe (dashUnsafe s) = true.
Proof.
  induction s as [|a s IH]; [reflexivity|].
  simpl. rewrite IH, andb_true_r. destruct (slugSafe a) eqn:E; [exact E|reflexivity].
Qed.

Lemma allChars_squeezeDashes p s : forall b,
  allChars p s = true -> allChars p (squeezeDashes b s) = true.
Proof.
  induction s as [|a s IH]; intros b H; [reflexivity|].
  cbn [allChars squeezeDashes] in *. apply andb_true_iff in H as [Ha Hs].
  destruct (Ascii.eqb a "-"); [destruct b|]; cbn [allChars]; rewrite ?Ha; cbn [andb]; auto.
Qed.

Lemma squeezeDashes_head s : Js.startsWith (squeezeDashes true s) "-" = false.
Proof.
  induction s as [|a s IH]; [reflexivity|].
  cbn [squeezeDashes]. destruct (Ascii.eqb a "-") eqn:E; [exact IH|].
  now rewrite startsWith_dash.
Qed.

Lemma squeezeDashes_no_pair s : forall b x y,
  squeezeDashes b s <> (x +:+ "--" +:+ y)%string.
Proof.
  induction s as [|a s IH]; intros b x y H.
  - destruct x; discriminate.
  - cbn [squeezeDashes] in H. destruct (Ascii.eqb a "-") eqn:Ea.
    + destruct b; [now apply (IH true x y)|].
      destruct x as [|c x]; simpl in H; injection H as _ H.
      * pose proof (squeezeDashes_head s) as Hh. rewrite H, startsWith_dash in Hh.
        discriminate.
      * now apply (IH true x y).
    + destruct x as [|c x]; simpl in H; injection H as Hc H.
      * subst a. discriminate.
      * now apply (IH false x y).
Qed.

Lemma no_pair_suffix d s :
  (forall x y, (d +:+ s)%string <> (x +:+ "--" +:+ y)%string) ->
  forall x y, s <> (x +:+ "--" +:+ y)%string.
Proof. intros H x y ->. apply (H (d +:+ x)%string y). now rewrite sapp_assoc. Qed.

Lemma no_pair_prefix s d :
  (forall x y, (s +:+ d)%string <> (x +:+ "--" +:+ y)%string) ->
  forall x y, s <> (x +:+ "--" +:+ y)%string.
Proof. intros H x y ->. apply (H x (y +:+ d)%string). now rewrite !sapp_assoc. Qed.

Lemma no_pair_rev s :
  (forall x y, s <> (x +:+ "--" +:+ y)%string) ->
  forall x y, Js.rev_string s <> (x +:+ "--" +:+ y)%string.
Proof.
  intros H x y E. apply (H (Js.rev_string y) (Js.rev_string x)).
  rewrite <- (rev_string_involutive s), E, !rev_string_app. simpl.
  now rewrite !sapp_assoc.
Qed.

Lemma trimDashes_clean t :
  allChars slugSafe t = true ->
  (forall x y, t <> (x +:+ "--" +:+ y)%string) ->
  cleanSlug (trimDashes t).
Proof.
  intros Ha Hp. unfold trimDashes.
  destruct (dropDashes_suffix t) as [d1 E1].
  set (u := dropDashes t) in *.
  destruct (dropDashes_suffix (Js.rev_string u)) as [d2 E2].
  set (v := dropDashes (Js.rev_string u)) in *.
  assert (Eu : u = (Js.rev_string v +:+ Js.rev_string d2)%string).
  { rewrite <- (rev_string_involutive u), E2. apply rev_string_app. }
  assert (Hpu : forall x y, u <> (x +:+ "--" +:+ y)%string).
  { apply (no_pair_suffix d1). now rewrite <- E1. }
  split; [|split; [|split]].
  - rewrite allChars_rev. apply allChars_dropDashes. rewrite allChars_rev.
    now apply allChars_dropDashes.
  - pose proof (dropDashes_head t) as Hu. fold u in Hu. rewrite Eu in Hu.
    destruct (Js.rev_string v) as [|c r]; [reflexivity|].
    cbn [String.append] in Hu. rewrite startsWith_dash in Hu |- *. exact Hu.
  - unfold Js.endsWith. rewrite rev_string_involutive. apply dropDashes_head.
  - apply (no_pair_prefix _ (Js.rev_string d2)). now rewrite <- Eu.
Qed.

Lemma slugify_clean n : cleanSlug (slugify n).
Proof.
  unfold slugify. apply trimDashes_clean.
  - apply allChars_squeezeDashes, allChars_dashUnsafe.
  - intros x y. apply squeezeDashes_no_pair.
Qed.

Lemma slugSafe_range a :
  slugSafe a = true ->
  (nat_of_ascii a = 45 \/ nat_of_ascii a = 46 \/ nat_of_ascii a = 95 \/
   48 <= nat_of_ascii a <= 57 \/ 97 <= nat_of_ascii a <= 122)%nat.
Proof.
  unfold slugSafe. cbv zeta.
  rewrite !orb_true_iff, !andb_true_iff, !Nat.leb_le, !Nat.eqb_eq. lia.
Qed.

Lemma wsLen_slugSafe a r : slugSafe a = true -> Js.wsLen (String a r) = 0%nat.
Proof.
  intros H. apply slugSafe_range in H. unfold Js.wsLen. cbv zeta.
  replace ((9 <=? nat_of_ascii a)%nat && (nat_of_ascii a <=? 13)%nat
           || (nat_of_ascii a =? 32)%nat) with false
    by (symmetry; rewrite orb_false_iff, andb_false_iff, !Nat.leb_gt, Nat.eqb_neq; lia).
  destruct r as [|b r]; [reflexivity|].
  replace (nat_of_ascii a =? 194)%nat with false by (symmetry; apply Nat.eqb_neq; lia).
  cbn [andb]. destruct r as [|c r]; [reflexivity|].
  replace (nat_of_ascii a =? 225)%nat with false by (symmetry; apply Nat.eqb_neq; lia).
  replace (nat_of_ascii a =? 226)%nat with false by (symmetry; apply Nat.eqb_neq; lia).
  replace (nat_of_ascii a =? 227)%nat with false by (symmetry; apply Nat.eqb_neq; lia).
  replace (nat_of_ascii a =? 239)%nat with false by (symmetry; apply Nat.eqb_neq; lia).
  reflexivity.
Qed.

Lemma lowerChar_slugSafe a : slugSafe a = true -> Js.lowerChar a = a.
Proof.
  intros H. apply slugSafe_range in H. unfold Js.lowerChar. cbv zeta.
  replace ((65 <=? nat_of_ascii a)%nat && (nat_of_ascii a <=? 90)%nat) with false;
    [reflexivity|].
  symmetry. rewrite andb_false_iff, !Nat.leb_gt. lia.
Qed.

Lemma slug_steps_id s :
  allChars slugSafe s = true ->
  Js.toLowerCase s = s /\ dashSpaces 0 false s = s /\ dashUnsafe s = s.
Proof.
  induction s as [|a s IH]; [now repeat split|].
  cbn [allChars]. intros H. apply andb_true_iff in H as [Ha Hs].
  destruct (IH Hs) as (E1 & E2 & E3). split; [|split].
  - cbn [Js.toLowerCase]. now rewrite E1, lowerChar_slugSafe.
  - cbn [dashSpaces]. now rewrite wsLen_slugSafe, E2.
  - cbn [dashUnsafe]. now rewrite Ha, E3.
Qed.

Lemma squeezeDashes_id s : forall b,
  (b = true -> Js.startsWith s "-" = false) ->
  (forall x y, s <> (x +:+ "--" +:+ y)%string) ->
  squeezeDashes b s = s.
Proof.
  induction s as [|a s IH]; intros b Hb Hp; [reflexivity|].
  cbn [squeezeDashes].
  assert (Hs : forall x y, s <> (x +:+ "--" +:+ y)%string).
  { intros x y ->. now apply (Hp (String a x) y). }
  destruct (Ascii.eqb a "-") eqn:Ea.
  - destruct b.
    + specialize (Hb eq_refl). rewrite startsWith_dash in Hb. congruence.
    + f_equal. apply IH; [|exact Hs]. intros _.
      destruct s as [|c s]; [reflexivity|]. rewrite startsWith_dash.
      destruct (Ascii.eqb c "-") eqn:Ec; [|reflexivity].
      apply Ascii.eqb_eq in Ea, Ec. subst a c. now destruct (Hp ""%string s).
  - f_equal. apply IH; [discriminate|exact Hs].
Qed.

Lemma slugify_fixed s : cleanSlug s -> slugify s = s.
Proof.
  intros (Ha & Hh & Ht & Hp). unfold slugify.
  destruct (slug_steps_id s Ha) as (-> & -> & ->).
  rewrite squeezeDashes_id by (auto; discriminate).
  unfold trimDashes. rewrite (dropDashes_id s Hh).
  rewrite dropDashes_id by exact Ht.
  apply rev_string_involutive.
Qed.

(** X21. A slug holds only lower-case ASCII letters, digits, dashes,
    underscores and dots; it neither starts nor ends with a dash and
    holds no two dashes in a row, whatever the name was. *)
Theorem X21_slug_is_clean (n : string) :
  allChars slugSafe (slugify n) = true /\
  Js.startsWith (slugify n) "-" = false /\
  Js.endsWith (slugify n) "-" = false /\
  forall x y, slugify n <> (x +:+ "--" +:+ y)%string.
Proof. exact (slugify_clean n). Qed.

(** X22. [slugify] returns a clean name as it is, and it is idempotent:
    the slug of a slug is the slug. *)
Theorem X22_slugify_idempotent :
  (forall s, cleanSlug s -> slugify s = s) /\
  (forall n, slugify (slugify n) = slugify n).
Proof.
  split; [exact slugify_fixed|].
  intros n. apply slugify_fixed, slugify_clean.
Qed.

Lemma X22_slugify_idempotent_witness :
  cleanSlug "q1-plan_v2.final" /\
  slugify "q1-plan_v2.final" = "q1-plan_v2.final"%string /\
  slugify "  Q1  Plan (v2) -- Final! " = "q1-plan-v2-final"%string.
Proof.
  assert (H : cleanSlug "q1-plan_v2.final") by exact (slugify_clean "q1-plan_v2.final").
  split; [exact H|]. split; [|reflexivity].
  exact (proj1 X22_slugify_idempotent _ H).
Defined.

(** ** Text boxes of the viewer *)

Lemma paragraphHtml_head p : exists r, paragraphHtml p = String "<" r.
Proof.
  unfold paragraphHtml. destruct (_ ++ _); cbn [String.append]; eauto.
Qed.

Lemma wsLen_tag r : Js.wsLen (String "<" r) = 0%nat.
Proof. destruct r as [|b [|c r]]; reflexivity. Qed.

Lemma removeAll_tag_not_blank r : Js.isBlank (removeAll "&nbsp;" (String "<" r)) = false.
Proof.
  unfold removeAll. cbn [removeAllFrom].
  replace (nonEmpty "&nbsp;" && Js.startsWith (String "<" r) "&nbsp;") with false
    by (now destruct r).
  unfold Js.isBlank, Js.trimStart. cbn [String.length Js.trimStartFuel].
  now rewrite wsLen_tag.
Qed.

(** X23. In the viewer, a text shape that has a transform and a text body
    is kept exactly when the body holds at least one paragraph: the
    paragraphs render to markup that is never blank, so a shape whose
    paragraphs are all empty still gives a box (of placeholders), and
    only a body without paragraph is dropped. *)
Theorem X23_viewer_keeps_text_boxes (slideW slideH : Z) (sp tx : JsVal) (xfrm : HtmlShape) :
  getTransform sp slideW slideH = Some xfrm ->
  get sp ["p:txBody"%string] = Some tx -> truthy tx = true ->
  (concatArr (prop tx "a:p") <> [] <-> exists shape, textShape slideW slideH sp = [shape]) /\
  (concatArr (prop tx "a:p") = [] -> textShape slideW slideH sp = []).
Proof.
  intros Hx Ht Htr. unfold textShape. rewrite Hx, Ht, Htr. cbn [negb].
  destruct (concatArr (prop tx "a:p")) as [|p ps] eqn:E.
  - split; [|reflexivity]. split; [congruence|]. intros [shape H]. discriminate.
  - assert (B : Js.isBlank (removeAll "&nbsp;" (paragraphsToHtml (p :: ps))) = false).
    { unfold paragraphsToHtml. cbn [map]. destruct (paragraphHtml_head p) as [r ->].
      rewrite join_cons_char. apply removeAll_tag_not_blank. }
    rewrite B. split; [|discriminate]. split; [eauto|discriminate].
Qed.

Lemma X23_viewer_keeps_text_boxes_witness :
  let sp := JObj [xfrmOf;
                  ("p:txBody"%string, JArr [JObj [("a:p"%string, JArr [emptyPara])]])] in
  concatArr (prop (JObj [("a:p"%string, JArr [emptyPara])]) "a:p") <> [] /\
  exists shape, textShape 9144000 6858000 sp = [shape].
Proof.
  intros sp.
  assert (H : concatArr (prop (JObj [("a:p"%string, JArr [emptyPara])]) "a:p") <> [])
    by discriminate.
  split; [exact H|].
  refine (proj1 (proj1 (X23_viewer_keeps_text_boxes 9144000 6858000 sp
                          (JObj [("a:p"%string, JArr [emptyPara])]) _ _ eq_refl eq_refl)) H).
  reflexivity.
Defined.

(** ** The summary of a run *)

Lemma foldIO_counts {A} (body : nat * nat -> A -> IO (nat * nat)) :
  (forall c x fs fs' c', body c x fs = (fs', Ok c') ->
                         (fst c' + snd c' = S (fst c + snd c))%nat) ->
  forall l c fs fs' c', foldIO body l c fs = (fs', Ok c') ->
                        (fst c' + snd c' = fst c + snd c + List.length l)%nat.
Proof.
  intros Hb l. induction l as [|x l IH]; intros c fs fs' c' H.
  - cbn [foldIO] in H. injection H as _ <-. simpl. lia.
  - cbn [foldIO] in H. inv_bind H c1 fs1 H1.
    rewrite (IH _ _ _ _ H), (Hb _ _ _ _ _ H1). simpl. lia.
Qed.

Lemma attempt_counts {A} (m : IO A) (k : A -> IO unit) ok fail fs fs' c' :
  tryCatch (do a <- m; k a ;;; ret (S ok, fail)) (fun _ => ret (ok, S fail)) fs = (fs', Ok c') ->
  (fst c' + snd c' = S (ok + fail))%nat.
Proof.
  unfold tryCatch, bind, ret.
  destruct (m fs) as [fs1 [a|e]].
  - destruct (k a fs1) as [fs2 [u|e]]; intros [= _ <-]; simpl; lia.
  - intros [= _ <-]. simpl. lia.
Qed.

Section Counts.
Variable INPUT_DIR OUTPUT_DIR : path.
Variable mammoth : string -> result string.
Variable turndown : string -> string.
Variable loadAsync : string -> result Zip.
Variable parseStringPromise : string -> result JsVal.
Variable buildPresentationHtml : string -> list HtmlSlide -> Z -> Z -> string.
Variable localeCompare : string -> string -> Z.

Lemma convertOneMd_counts c f fs fs' c' :
  convertOneMd INPUT_DIR OUTPUT_DIR mammoth turndown loadAsync parseStringPromise c f fs
    = (fs', Ok c') ->
  (fst c' + snd c' = S (fst c + snd c))%nat.
Proof.
  destruct c as [ok fail]. unfold convertOneMd. intros H.
  inv_bind H u fs1 H1. now apply attempt_counts in H.
Qed.

Lemma convertOneHtml_counts c f fs fs' c' :
  convertOneHtml INPUT_DIR OUTPUT_DIR mammoth turndown loadAsync parseStringPromise
    buildPresentationHtml c f fs = (fs', Ok c') ->
  (fst c' + snd c' = S (fst c + snd c))%nat.
Proof.
  destruct c as [ok fail]. unfold convertOneHtml. intros H.
  destruct (String.eqb _ ".pptx").
  - inv_bind H u fs1 H1. inv_bind H u2 fs2 H2.
    unfold tryCatch, bind, ret in H.
    destruct (convertPptxToHtml _ _ _ _ _ fs2) as [fs3 [html|e]].
    + destruct (writeFile _ html fs3) as [fs4 [u4|e]].
      * destruct (writeFile _ _ fs4) as [fs5 [u5|e]]; injection H as _ <-; simpl; lia.
      * injection H as _ <-. simpl. lia.
    + injection H as _ <-. simpl. lia.
  - inv_bind H u fs1 H1. now apply attempt_counts in H.
Qed.

Lemma convertOneDocx_counts c f fs fs' c' :
  convertOneDocx INPUT_DIR OUTPUT_DIR mammoth turndown c f fs = (fs', Ok c') ->
  (fst c' + snd c' = S (fst c + snd c))%nat.
Proof.
  destruct c as [ok fail]. unfold convertOneDocx. intros H.
  inv_bind H u fs1 H1. now apply attempt_counts in H.
Qed.

Lemma mainMd_counts fs fs' ok fail :
  mainMd INPUT_DIR OUTPUT_DIR mammoth turndown loadAsync parseStringPromise localeCompare fs
    = (fs', Ok (Done ok fail)) ->
  exists fs1 files,
    mkdirSync fs OUTPUT_DIR = Ok fs1 /\ walk INPUT_DIR fs1 = (fs1, Ok files) /\
    (ok + fail)%nat =
      List.length (List.filter (fun f => negb (isXlsx f)) (List.filter isInputFile files)).
Proof.
  unfold mainMd. intros H.
  inv_bind H found fs0 H0. injection H0 as <- _.
  destruct (negb found); [discriminate|].
  inv_bind H u fs1 H1. inv_bind H files fs2 H2.
  pose proof H2 as H2'. apply liftR_Ok in H2' as [-> _].
  exists fs1, files. split; [exact (liftW_Ok _ _ _ _ H1)|]. split; [exact H2|].
  destruct (List.filter isInputFile files) as [|f0 rest]; [discriminate|].
  inv_bind H u3 fs3 H3. inv_bind H counts fs4 H4. inv_bind H u5 fs5 H5.
  injection H as _ <- <-.
  apply (foldIO_counts _ (convertOneMd_counts)) in H4. simpl in H4. exact H4.
Qed.

Lemma mainHtml_counts fs fs' ok fail :
  mainHtml INPUT_DIR OUTPUT_DIR mammoth turndown loadAsync parseStringPromise
    buildPresentationHtml localeCompare fs = (fs', Ok (Done ok fail)) ->
  exists fs1 files,
    mkdirSync fs OUTPUT_DIR = Ok fs1 /\ walk INPUT_DIR fs1 = (fs1, Ok files) /\
    (ok + fail)%nat =
      List.length (List.filter (fun f => negb (isXlsx f)) (List.filter isInputFile files)).
Proof.
  unfold mainHtml. intros H.
  inv_bind H found fs0 H0. injection H0 as <- _.
  destruct (negb found); [discriminate|].
  inv_bind H u fs1 H1. inv_bind H files fs2 H2.
  pose proof H2 as H2'. apply liftR_Ok in H2' as [-> _].
  exists fs1, files. split; [exact (liftW_Ok _ _ _ _ H1)|]. split; [exact H2|].
  destruct (List.filter isInputFile files) as [|f0 rest]; [discriminate|].
  inv_bind H u3 fs3 H3. inv_bind H counts fs4 H4. inv_bind H u5 fs5 H5.
  injection H as _ <- <-.
  apply (foldIO_counts _ (convertOneHtml_counts)) in H4. simpl in H4. exact H4.
Qed.

Lemma mainDocx_counts fs fs' ok fail :
  mainDocx INPUT_DIR OUTPUT_DIR mammoth turndown fs = (fs', Ok (Done ok fail)) ->
  exists fs0 fs1 files,
    clearOutput OUTPUT_DIR fs = (fs0, Ok tt) /\
    mkdirSync fs0 OUTPUT_DIR = Ok fs1 /\
    walk INPUT_DIR fs1 = (fs1, Ok files) /\
    (ok + fail)%nat = List.length (List.filter isDocxFile files).
Proof.
  unfold mainDocx. intros H.
  inv_bind H found fs0 H0. injection H0 as <- _.
  destruct (negb found); [discriminate|].
  inv_bind H u fs1 H1. unfold convertAllDocx in H.
  inv_bind H u2 fs2 H2. inv_bind H files fs3 H3.
  pose proof H3 as H3'. apply liftR_Ok in H3' as [-> _].
  destruct u. exists fs1, fs2, files. split; [exact H1|].
  split; [exact (liftW_Ok _ _ _ _ H2)|]. split; [exact H3|].
  destruct (List.filter isDocxFile files) as [|f0 rest]; [discriminate|].
  inv_bind H counts fs4 H4. injection H as _ <- <-.
  apply (foldIO_counts _ (convertOneDocx_counts)) in H4. simpl in H4. exact H4.
Qed.
End Counts.

(** X24. The summary of a run accounts for every file: when [main] ends
    with "Done. ok converted, fail failed", the two counts add up to the
    number of files that were to be converted (the documents that
    [walk] finds in the input directory once the output directory is
    prepared, and that pass the filter of the variant, spreadsheets
    apart), in each of the three variants; a conversion that throws is
    counted as failed and never ends the loop. *)
Theorem X24_summary_counts_every_file
    (INPUT_DIR OUTPUT_DIR : path)
    (mammoth : string -> result string) (turndown : string -> string)
    (loadAsync : string -> result Zip) (parseStringPromise : string -> result JsVal)
    (buildPresentationHtml : string -> list HtmlSlide -> Z -> Z -> string)
    (localeCompare : string -> string -> Z)
    (fs fs' : Node) (ok fail : nat) :
  (mainMd INPUT_DIR OUTPUT_DIR mammoth turndown loadAsync parseStringPromise localeCompare fs
     = (fs', Ok (Done ok fail)) \/
   mainHtml INPUT_DIR OUTPUT_DIR mammoth turndown loadAsync parseStringPromise
     buildPresentationHtml localeCompare fs = (fs', Ok (Done ok fail)) ->
   exists fs1 files,
     mkdirSync fs OUTPUT_DIR = Ok fs1 /\ walk INPUT_DIR fs1 = (fs1, Ok files) /\
     (ok + fail)%nat =
       List.length (List.filter (fun f => negb (isXlsx f)) (List.filter isInputFile files))) /\
  (mainDocx INPUT_DIR OUTPUT_DIR mammoth turndown fs = (fs', Ok (Done ok fail)) ->
   exists fs0 fs1 files,
     clearOutput OUTPUT_DIR fs = (fs0, Ok tt) /\
     mkdirSync fs0 OUTPUT_DIR = Ok fs1 /\
     walk INPUT_DIR fs1 = (fs1, Ok files) /\
     (ok + fail)%nat = List.length (List.filter isDocxFile files)).
Proof.
  split.
  - intros [H|H]; [now apply mainMd_counts in H|now apply mainHtml_counts in H].
  - apply mainDocx_counts.
Qed.

Lemma X24_summary_counts_every_file_witness :
  let fs := Dir [("in"%string, Dir [("a.docx"%string, File "A");
                                    ("b.pptx"%string, File "B");
                                    ("c.xlsx"%string, File "C");
                                    ("d.txt"%string, File "D")])] in
  let run :=
    mainMd ["in"%string] ["out"%string]
      (fun raw => Ok ("html:" +:+ raw)%string) (fun html => ("md:" +:+ html)%string)
      (fun _ => Throw "not a package") (fun _ => Throw "not XML") (fun _ _ => 0%Z) fs in
  snd run = Ok (Done 1 1) /\
  exists fs1 files,
    mkdirSync fs ["out"%string] = Ok fs1 /\ walk ["in"%string] fs1 = (fs1, Ok files) /\
    (1 + 1)%nat =
      List.length (List.filter (fun f => negb (isXlsx f)) (List.filter isInputFile files)).
Proof.
  intros fs run. split; [reflexivity|].
  refine (proj1 (X24_summary_counts_every_file ["in"%string] ["out"%string]
            (fun raw => Ok ("html:" +:+ raw)%string) (fun html => ("md:" +:+ html)%string)
            (fun _ => Throw "not a package") (fun _ => Throw "not XML")
            (fun _ _ _ _ => ""%string) (fun _ _ => 0%Z) fs (fst run) 1 1) (or_introl _)).
  reflexivity.
Defined.

(** ** Names and extensions *)

Lemma take_drop j : forall s, (Js.take j s +:+ Js.drop j s)%string = s.
Proof.
  unfold Js.take. induction j as [|j IH]; intros [|c s]; try reflexivity.
  simpl. now rewrite IH.
Qed.

Lemma length_drop j : forall s, String.length (Js.drop j s) = (String.length s - j)%nat.
Proof. induction j as [|j IH]; intros [|c s]; simpl; auto. Qed.

Lemma toLowerCase_app a b :
  Js.toLowerCase (a +:+ b) = (Js.toLowerCase a +:+ Js.toLowerCase b)%string.
Proof. induction a as [|x a IH]; simpl; [reflexivity|now rewrite IH]. Qed.

Lemma length_toLowerCase s : String.length (Js.toLowerCase s) = String.length s.
Proof. induction s as [|x s IH]; simpl; [reflexivity|now rewrite IH]. Qed.

Lemma app_inv_length a : forall c b d,
  (a +:+ b)%string = (c +:+ d)%string -> String.length b = String.length d -> b = d.
Proof.
  induction a as [|x a IH]; intros [|y c] b d H L; cbn [String.append] in H.
  - exact H.
  - subst b. simpl in L. rewrite length_app in L. lia.
  - subst d. simpl in L. rewrite length_app in L. lia.
  - injection H as _ H. now apply (IH c).
Qed.

(** a name with an extension is a stem that is not empty, followed by
    the extension *)
Lemma extname_split name :
  extname name <> ""%string ->
  exists stem, name = (stem +:+ extname name)%string /\ stem <> ""%string /\
               stem = Js.take (String.length name - String.length (extname name)) name.
Proof.
  unfold extname. destruct (lastDot 0 name) as [[|j]|]; try congruence.
  destruct (String.eqb name ".."); [congruence|]. intros Hne.
  pose proof (length_drop (S j) name) as L.
  assert (Hlen : (S j < String.length name)%nat).
  { destruct (Js.drop (S j) name) eqn:E; [congruence|]. simpl in L. lia. }
  exists (Js.take (S j) name). split; [now rewrite take_drop|]. split.
  - destruct name as [|c r]; [simpl in Hlen; lia|]. discriminate.
  - f_equal. lia.
Qed.

Lemma endsWith_other_extension t :
  Js.endsWith (t +:+ ".pptx") ".docx" = false.
Proof. unfold Js.endsWith. rewrite rev_string_app. reflexivity. Qed.

Lemma replaceExt_md name stem :
  name = (stem +:+ extname name)%string ->
  stem = Js.take (String.length name - String.length (extname name)) name ->
  Js.toLowerCase (extname name) = ".docx"%string \/
  Js.toLowerCase (extname name) = ".pptx"%string ->
  replaceExt [".docx"; ".pptx"]%string ".md" name = (stem +:+ ".md")%string.
Proof.
  intros Hn Hs He. unfold replaceExt.
  assert (L : String.length (extname name) = 5%nat).
  { rewrite <- length_toLowerCase. destruct He as [-> | ->]; reflexivity. }
  rewrite L in Hs.
  assert (Hl : Js.toLowerCase name = (Js.toLowerCase stem +:+ Js.toLowerCase (extname name))%string).
  { rewrite Hn at 1. apply toLowerCase_app. }
  cbn [List.find]. rewrite Hl. destruct He as [-> | ->].
  - rewrite endsWith_app. cbn [String.length]. now rewrite <- Hs.
  - rewrite endsWith_other_extension, endsWith_app. cbn [String.length]. now rewrite <- Hs.
Qed.

Lemma last_skipn {A} (d : A) n : forall l,
  List.skipn n l <> [] -> List.last (List.skipn n l) d = List.last l d.
Proof.
  induction n as [|n IH]; intros l H; [reflexivity|].
  destruct l as [|x l]; [now destruct H|].
  cbn [List.skipn] in *. rewrite (IH l H).
  destruct l as [|y l]; [now destruct n|reflexivity].
Qed.

(** X25. A document found below the input directory whose extension is
    [.docx] or [.pptx], in any mix of upper and lower case, has its
    Markdown at the mirrored place of the output directory, under its
    name with the extension replaced by [.md] (the stem is not empty);
    and when the loop counts the document as converted, a file is there,
    which holds the front matter, the body that the converter of its
    kind returned for it and a line feed. *)
Theorem X25_converted_document_is_written
    (INPUT_DIR OUTPUT_DIR : path)
    (mammoth : string -> result string) (turndown : string -> string)
    (loadAsync : string -> result Zip) (parseStringPromise : string -> result JsVal)
    (filePath : path) :
  relative INPUT_DIR filePath <> [] ->
  Js.toLowerCase (extname (basename filePath)) = ".docx"%string \/
  Js.toLowerCase (extname (basename filePath)) = ".pptx"%string ->
  exists stem,
    basename filePath = (stem +:+ extname (basename filePath))%string /\
    stem <> ""%string /\
    outPathMd INPUT_DIR OUTPUT_DIR filePath =
      OUTPUT_DIR ++ removelast (relative INPUT_DIR filePath) ++ [(stem +:+ ".md")%string] /\
    forall ok fail fail' fs fs',
      convertOneMd INPUT_DIR OUTPUT_DIR mammoth turndown loadAsync parseStringPromise
        (ok, fail) filePath fs = (fs', Ok (S ok, fail')) ->
      exists fs1 body,
        mkdirSync fs (dirname (outPathMd INPUT_DIR OUTPUT_DIR filePath)) = Ok fs1 /\
        (if String.eqb (extLower filePath) ".docx"
         then convertDocx mammoth turndown filePath
         else convertPptx loadAsync parseStringPromise filePath) fs1 = (fs1, Ok body) /\
        lookup fs' (OUTPUT_DIR ++ removelast (relative INPUT_DIR filePath) ++
                    [(stem +:+ ".md")%string]) =
        Some (File (frontmatter (basenameExt filePath (extLower filePath)) (basename filePath)
                    +:+ body +:+ Js.nl)%string).
Proof.
  intros Hrel He.
  assert (Hne : extname (basename filePath) <> ""%string).
  { intros E. rewrite E in He. destruct He; discriminate. }
  destruct (extname_split _ Hne) as (stem & Hn & Hs & Ht).
  exists stem. split; [exact Hn|]. split; [exact Hs|].
  assert (Hout : outPathMd INPUT_DIR OUTPUT_DIR filePath =
                 OUTPUT_DIR ++ removelast (relative INPUT_DIR filePath) ++
                 [(stem +:+ ".md")%string]).
  { unfold outPathMd, replaceExtPath.
    destruct (relative INPUT_DIR filePath) as [|x r] eqn:Er; [congruence|].
    rewrite <- Er. f_equal. f_equal. f_equal.
    unfold relative. rewrite last_skipn by (unfold relative in Er; congruence).
    now apply replaceExt_md. }
  split; [exact Hout|].
  intros ok fail fail' fs fs' H. rewrite <- Hout. clear Hout.
  unfold convertOneMd in H. inv_bind H u fs1 H1.
  unfold tryCatch, bind, ret in H.
  assert (Hread : forall fs2 r,
             (if String.eqb (extLower filePath) ".docx"
              then convertDocx mammoth turndown filePath
              else convertPptx loadAsync parseStringPromise filePath) fs1 = (fs2, r) ->
             fs2 = fs1).
  { intros fs2 r E. destruct (String.eqb (extLower filePath) ".docx").
    - pose proof (convertDocx_reads mammoth turndown filePath fs1) as R.
      now rewrite E in R.
    - pose proof (convertPptx_reads loadAsync parseStringPromise filePath fs1) as R.
      now rewrite E in R. }
  destruct ((if String.eqb (extLower filePath) ".docx"
             then convertDocx mammoth turndown filePath
             else convertPptx loadAsync parseStringPromise filePath) fs1)
    as [fs2 [body|e]] eqn:Ec.
  - pose proof (Hread _ _ eq_refl) as ->.
    destruct (writeFile _ _ fs1) as [fs3 [u3|e]] eqn:Ew.
    + injection H as <- _. exists fs1, body.
      split; [exact (liftW_Ok _ _ _ _ H1)|]. split; [exact Ec|].
      apply (writeFileSync_lookup _ fs1). exact (liftW_Ok _ _ _ _ Ew).
    + injection H as _ Hc _. exfalso. now apply (n_Sn ok).
  - injection H as _ Hc _. exfalso. now apply (n_Sn ok).
Qed.

Lemma X25_converted_document_is_written_witness :
  let fs := Dir [("in"%string, Dir [("sub"%string, Dir [("Q1 Plan.DOCX"%string, File "A")])])] in
  let f := ["in"; "sub"; "Q1 Plan.DOCX"]%string in
  let run := convertOneMd ["in"%string] ["out"%string] (fun raw => Ok raw) (fun html => html)
               (fun _ => Throw "not a package") (fun _ => Throw "not XML") (0, 0) f fs in
  relative ["in"%string] f <> [] /\
  Js.toLowerCase (extname (basename f)) = ".docx"%string /\
  outPathMd ["in"%string] ["out"%string] f = ["out"; "sub"; "Q1 Plan.md"]%string /\
  snd run = Ok (1, 0) /\
  exists stem,
    basename f = (stem +:+ extname (basename f))%string /\ stem <> ""%string /\
    outPathMd ["in"%string] ["out"%string] f =
      ["out"%string] ++ removelast (relative ["in"%string] f) ++ [(stem +:+ ".md")%string] /\
    exists body,
      lookup (fst run)
        (["out"%string] ++ removelast (relative ["in"%string] f) ++ [(stem +:+ ".md")%string]) =
      Some (File (frontmatter (basenameExt f (extLower f)) (basename f) +:+ body +:+ Js.nl)%string).
Proof.
  intros fs f run.
  assert (Hr : relative ["in"%string] f <> []) by discriminate.
  assert (Hrun : snd run = Ok (1, 0)) by (vm_compute; reflexivity).
  split; [exact Hr|]. split; [reflexivity|]. split; [reflexivity|].
  split; [exact Hrun|].
  destruct (X25_converted_document_is_written ["in"%string] ["out"%string]
              (fun raw => Ok raw) (fun html => html)
              (fun _ => Throw "not a package") (fun _ => Throw "not XML") f Hr
              (or_introl eq_refl)) as (stem & H1 & H2 & H3 & H4).
  exists stem. split; [exact H1|]. split; [exact H2|]. split; [exact H3|].
  destruct (H4 0 0 0 fs (fst run)) as (fs1 & body & _ & _ & Hl).
  - rewrite <- Hrun. apply surjective_pairing.
  - exists body. exact Hl.
Defined.

(** X26. The title of a converted document.  In the Markdown and the
    viewer variants the extension is lower-cased before it is removed
    from the name, and the removal is case-sensitive: the title is the
    stem when the extension is written in lower case, and the whole
    name, extension included, when it is not.  The docx-only variant
    removes the extension as it is written: its title is always the
    stem. *)
Theorem X26_title_of_a_document (name : string) :
  extname name <> ""%string ->
  exists stem,
    name = (stem +:+ extname name)%string /\
    basenameExt [name] (extname name) = stem /\
    (Js.toLowerCase (extname name) = extname name ->
     basenameExt [name] (Js.toLowerCase (extname name)) = stem) /\
    (Js.toLowerCase (extname name) <> extname name ->
     basenameExt [name] (Js.toLowerCase (extname name)) = name).
Proof.
  intros Hne. destruct (extname_split name Hne) as (stem & Hn & Hs & _).
  exists stem. split; [exact Hn|].
  revert Hne Hn. generalize (extname name). intros ext Hne Hn. subst name.
  assert (Hstem : basenameExt [(stem +:+ ext)%string] ext = stem).
  { unfold basenameExt, basename. cbn [List.last].
    replace (nonEmpty ext) with true
      by (symmetry; apply negb_true_iff, String.eqb_neq, Hne).
    rewrite endsWith_app. cbn [andb].
    replace (String.eqb (stem +:+ ext) ext) with false; [apply stripSuffix_app|].
    symmetry. apply String.eqb_neq. intros E.
    apply (f_equal String.length) in E. rewrite length_app in E.
    destruct stem; [congruence|simpl in E; lia]. }
  split; [exact Hstem|]. split.
  - intros ->. exact Hstem.
  - intros Hl. unfold basenameExt, basename. cbn [List.last].
    replace (Js.endsWith (stem +:+ ext) (Js.toLowerCase ext)) with false;
      [now rewrite andb_false_r|].
    symmetry. apply not_true_is_false. intros E.
    apply endsWith_split in E as [t Et].
    apply Hl. symmetry.
    apply (app_inv_length stem t); [exact Et|now rewrite length_toLowerCase].
Qed.

Lemma X26_title_of_a_document_witness :
  extname "Q1 Plan.PPTX" <> ""%string /\
  basenameExt ["Q1 Plan.PPTX"%string] (Js.toLowerCase (extname "Q1 Plan.PPTX")) = "Q1 Plan.PPTX"%string /\
  basenameExt ["Q1 Plan.PPTX"%string] (extname "Q1 Plan.PPTX") = "Q1 Plan"%string /\
  exists stem,
    "Q1 Plan.PPTX"%string = (stem +:+ extname "Q1 Plan.PPTX")%string /\
    basenameExt ["Q1 Plan.PPTX"%string] (extname "Q1 Plan.PPTX") = stem /\
    (Js.toLowerCase (extname "Q1 Plan.PPTX") = extname "Q1 Plan.PPTX" ->
     basenameExt ["Q1 Plan.PPTX"%string] (Js.toLowerCase (extname "Q1 Plan.PPTX")) = stem) /\
    (Js.toLowerCase (extname "Q1 Plan.PPTX") <> extname "Q1 Plan.PPTX" ->
     basenameExt ["Q1 Plan.PPTX"%string] (Js.toLowerCase (extname "Q1 Plan.PPTX"))
     = "Q1 Plan.PPTX"%string).
Proof.
  assert (H : extname "Q1 Plan.PPTX" <> ""%string) by discriminate.
  split; [exact H|]. split; [reflexivity|]. split; [reflexivity|].
  exact (X26_title_of_a_document "Q1 Plan.PPTX" H).
Defined.

(** ** The notes of a slide in the two converters *)

Lemma join_empty_cons x l : Js.join "" (x :: l) = (x +:+ Js.join "" l)%string.
Proof. destruct l; [symmetry; apply sapp_nil_r|reflexivity]. Qed.

Lemma join_empty_app l1 l2 :
  Js.join "" (l1 ++ l2) = (Js.join "" l1 +:+ Js.join "" l2)%string.
Proof.
  induction l1 as [|x l1 IH]; [reflexivity|].
  cbn [app]. now rewrite !join_empty_cons, IH, sapp_assoc.
Qed.

Lemma join_empty_flat_map {A B} (f : B -> string) (g : A -> list B) l :
  Js.join "" (map (fun r => Js.join "" (map f (g r))) l) = Js.join "" (map f (flat_map g l)).
Proof.
  induction l as [|r l IH]; [reflexivity|].
  cbn [map flat_map]. now rewrite join_empty_cons, map_app, join_empty_app, IH.
Qed.

Lemma paragraph_text_without_field p :
  noField p ->
  text (parseParagraph p) =
  Js.join "" (map tText (flat_map (fun r => concatArr (prop r "a:t")) (concatArr (prop p "a:r")))).
Proof.
  unfold noField. intros H. destruct p as [t|items|fields].
  - reflexivity.
  - reflexivity.
  - unfold parseParagraph. cbn [text]. rewrite H, app_nil_r. apply join_empty_flat_map.
Qed.

Lemma notes_of_shape_agree sp :
  Forall noField (paragraphsOf sp) -> notesTextOfShape sp = notesOfShape sp.
Proof.
  unfold paragraphsOf, notesTextOfShape, notesOfShape. intros H.
  destruct (negb (strictEq _ "1")); [reflexivity|].
  destruct (get sp ["p:txBody"%string]) as [tx|]; [|reflexivity].
  destruct (negb (truthy tx)); [reflexivity|]. f_equal.
  apply map_ext_in. intros p Hp. symmetry. apply paragraph_text_without_field.
  rewrite List.Forall_forall in H. now apply H.
Qed.

(** X27. The two converters read the same speaker notes from a notes
    slide, unless a paragraph of its body holds a field: the Markdown
    converter takes the text of the runs and of the fields of a
    paragraph, the viewer the text of the runs only. *)
Theorem X27_notes_agree_without_fields (notesDoc : JsVal) :
  (forall spTree, get notesDoc ["p:notes"; "p:cSld"; "p:spTree"]%string = Some spTree ->
     Forall (fun sp => Forall noField (paragraphsOf sp)) (concatArr (prop spTree "p:sp"))) ->
  extractNotesText notesDoc = parseNotesDoc notesDoc.
Proof.
  intros H. unfold extractNotesText, parseNotesDoc.
  destruct (get notesDoc _) as [spTree|]; [|reflexivity].
  destruct (negb (truthy spTree)); [reflexivity|]. f_equal.
  specialize (H spTree eq_refl).
  induction H as [|sp l Hsp _ IH]; [reflexivity|].
  cbn [flat_map]. now rewrite IH, notes_of_shape_agree.
Qed.

Lemma X27_notes_agree_without_fields_witness :
  extractNotesText (notesDocOf [paraOf "say hello"; emptyPara; paraOf "then stop"])
  = ("say hello" +:+ Js.nl +:+ "then stop")%string /\
  extractNotesText (notesDocOf [paraOf "say hello"; emptyPara; paraOf "then stop"])
  = parseNotesDoc (notesDocOf [paraOf "say hello"; emptyPara; paraOf "then stop"]) /\
  extractNotesText (notesDocOf [paraWithField "page " "7"]) = "page "%string /\
  parseNotesDoc (notesDocOf [paraWithField "page " "7"]) = "page 7"%string.
Proof.
  split; [reflexivity|]. split; [|split; reflexivity].
  apply (X27_notes_agree_without_fields
           (notesDocOf [paraOf "say hello"; emptyPara; paraOf "then stop"])).
  intros spTree E. injection E as <-.
  repeat constructor.
Defined.

(** ** Copies of the spreadsheets *)

(** X28. A spreadsheet that [main] copies is found, with the content it
    has in the input directory, under the same relative path in the
    output directory; no other file is created, changed or removed by
    the copy. *)
Theorem X28_spreadsheet_is_copied (INPUT_DIR OUTPUT_DIR filePath : path) (fs fs' : Node) :
  copyXlsx INPUT_DIR OUTPUT_DIR filePath fs = (fs', Ok tt) ->
  exists data,
    lookup fs filePath = Some (File data) /\
    lookup fs' (OUTPUT_DIR ++ relative INPUT_DIR filePath) = Some (File data) /\
    forall q d, q <> OUTPUT_DIR ++ relative INPUT_DIR filePath ->
      (lookup fs' q = Some (File d) <-> lookup fs q = Some (File d)).
Proof.
  unfold copyXlsx, copyFileSync, writeFile. intros H.
  inv_bind H u fs1 H1. inv_bind H data fs2 H2.
  apply liftR_Ok in H2 as [-> H2]. apply liftW_Ok in H.
  destruct u. pose proof (mkdirp_sameFiles _ _ _ H1) as Hs.
  unfold readFileSync in H2.
  destruct (lookup fs1 filePath) as [[d|es]|] eqn:E; try discriminate.
  injection H2 as ->. exists data. split; [now apply Hs|].
  split; [now apply (writeFileSync_lookup _ fs1)|].
  intros q d Hq. rewrite (writeFileSync_frame _ _ _ _ H q d Hq). apply Hs.
Qed.

Lemma X28_spreadsheet_is_copied_witness :
  let fs := Dir [("in"%string, Dir [("sub"%string, Dir [("c.xlsx"%string, File "C")])])] in
  let fs' := Dir [("in"%string, Dir [("sub"%string, Dir [("c.xlsx"%string, File "C")])]);
                  ("out"%string, Dir [("sub"%string, Dir [("c.xlsx"%string, File "C")])])] in
  copyXlsx ["in"%string] ["out"%string] ["in"; "sub"; "c.xlsx"]%string fs = (fs', Ok tt) /\
  exists data,
    lookup fs ["in"; "sub"; "c.xlsx"]%string = Some (File data) /\
    lookup fs' (["out"%string] ++ relative ["in"%string] ["in"; "sub"; "c.xlsx"]%string)
      = Some (File data) /\
    forall q d, q <> ["out"%string] ++ relative ["in"%string] ["in"; "sub"; "c.xlsx"]%string ->
      (lookup fs' q = Some (File d) <-> lookup fs q = Some (File d)).
Proof.
  intros fs fs'. split; [reflexivity|].
  exact (X28_spreadsheet_is_copied ["in"%string] ["out"%string] ["in"; "sub"; "c.xlsx"]%string
           fs fs' eq_refl).
Defined.

(** ** A missing input directory *)

Section MissingInput.
Variable INPUT_DIR OUTPUT_DIR : path.
Variable mammoth : string -> result string.
Variable turndown : string -> string.
Variable loadAsync : string -> result Zip.
Variable parseStringPromise : string -> result JsVal.
Variable buildPresentationHtml : string -> list HtmlSlide -> Z -> Z -> string.
Variable localeCompare : string -> string -> Z.

Lemma mainMd_missing fs fs' :
  mainMd INPUT_DIR OUTPUT_DIR mammoth turndown loadAsync parseStringPromise localeCompare fs
    = (fs', Ok InputMissing) <-> lookup fs INPUT_DIR = None /\ fs' = fs.
Proof.
  unfold mainMd. split.
  - intros H. inv_bind H found fs0 H0. unfold existsSync in H0. injection H0 as <- <-.
    destruct (lookup fs INPUT_DIR) eqn:E; cbn [negb] in H.
    + inv_bind H u fs1 H1. inv_bind H files fs2 H2.
      destruct (List.filter isInputFile files); [discriminate|].
      inv_bind H u3 fs3 H3. inv_bind H counts fs4 H4. inv_bind H u5 fs5 H5. discriminate.
    + injection H as <-. auto.
  - intros [E ->]. unfold bind, existsSync. now rewrite E.
Qed.

Lemma mainHtml_missing fs fs' :
  mainHtml INPUT_DIR OUTPUT_DIR mammoth turndown loadAsync parseStringPromise
    buildPresentationHtml localeCompare fs
    = (fs', Ok InputMissing) <-> lookup fs INPUT_DIR = None /\ fs' = fs.
Proof.
  unfold mainHtml. split.
  - intros H. inv_bind H found fs0 H0. unfold existsSync in H0. injection H0 as <- <-.
    destruct (lookup fs INPUT_DIR) eqn:E; cbn [negb] in H.
    + inv_bind H u fs1 H1. inv_bind H files fs2 H2.
      destruct (List.filter isInputFile files); [discriminate|].
      inv_bind H u3 fs3 H3. inv_bind H counts fs4 H4. inv_bind H u5 fs5 H5. discriminate.
    + injection H as <-. auto.
  - intros [E ->]. unfold bind, existsSync. now rewrite E.
Qed.

Lemma mainDocx_missing fs fs' :
  mainDocx INPUT_DIR OUTPUT_DIR mammoth turndown fs
    = (fs', Ok InputMissing) <-> lookup fs INPUT_DIR = None /\ fs' = fs.
Proof.
  unfold mainDocx. split.
  - intros H. inv_bind H found fs0 H0. unfold existsSync in H0. injection H0 as <- <-.
    destruct (lookup fs INPUT_DIR) eqn:E; cbn [negb] in H.
    + inv_bind H u fs1 H1. unfold convertAllDocx in H.
      inv_bind H u2 fs2 H2. inv_bind H files fs3 H3.
      destruct (List.filter isDocxFile files); [discriminate|].
      inv_bind H counts fs4 H4. discriminate.
    + injection H as <-. auto.
  - intros [E ->]. unfold bind, existsSync. now rewrite E.
Qed.
End MissingInput.

(** X29. A run ends with "Input directory not found" exactly when the
    input directory does not exist, and then nothing has been changed:
    no output directory is created and, in the docx-only variant, an
    existing output directory is not cleared. *)
Theorem X29_missing_input_changes_nothing
    (INPUT_DIR OUTPUT_DIR : path)
    (mammoth : string -> result string) (turndown : string -> string)
    (loadAsync : string -> result Zip) (parseStringPromise : string -> result JsVal)
    (buildPresentationHtml : string -> list HtmlSlide -> Z -> Z -> string)
    (localeCompare : string -> string -> Z)
    (fs fs' : Node) :
  (mainMd INPUT_DIR OUTPUT_DIR mammoth turndown loadAsync parseStringPromise localeCompare fs
     = (fs', Ok InputMissing) <-> lookup fs INPUT_DIR = None /\ fs' = fs) /\
  (mainHtml INPUT_DIR OUTPUT_DIR mammoth turndown loadAsync parseStringPromise
     buildPresentationHtml localeCompare fs
     = (fs', Ok InputMissing) <-> lookup fs INPUT_DIR = None /\ fs' = fs) /\
  (mainDocx INPUT_DIR OUTPUT_DIR mammoth turndown fs
     = (fs', Ok InputMissing) <-> lookup fs INPUT_DIR = None /\ fs' = fs).
Proof.
  split; [apply mainMd_missing|]. split; [apply mainHtml_missing|apply mainDocx_missing].
Qed.

Lemma X29_missing_input_changes_nothing_witness :
  let fs := Dir [("out"%string, Dir [("old.md"%string, File "old")])] in
  lookup fs ["in"%string] = None /\
  mainDocx ["in"%string] ["out"%string] (fun raw => Ok raw) (fun html => html) fs
  = (fs, Ok InputMissing).
Proof.
  intros fs.
  assert (H : lookup fs ["in"%string] = None) by reflexivity.
  split; [exact H|].
  apply (proj2 (proj2 (proj2 (X29_missing_input_changes_nothing ["in"%string] ["out"%string]
                                (fun raw => Ok raw) (fun html => html)
                                (fun _ => Throw "not a package") (fun _ => Throw "not XML")
                                (fun _ _ _ _ => ""%string) (fun _ _ => 0%Z) fs fs)))).
  split; [exact H|reflexivity].
Defined.

(** ** The relationship map *)

Lemma relsOfDoc_fold slideKey relsDoc :
  relsOfDoc slideKey relsDoc = fold_left (relStep slideKey) (relationshipsOf relsDoc) ∅.
Proof.
  unfold relsOfDoc, relationshipsOf. now destruct (prop relsDoc "Relationships").
Qed.

Lemma relStep_sound slideKey (all : list JsVal) l : forall rels,
  incl l all ->
  (forall id p, rels !! id = Some p ->
     exists rel, In rel all /\ relationshipEntry slideKey rel id p) ->
  forall id p, fold_left (relStep slideKey) l rels !! id = Some p ->
     exists rel, In rel all /\ relationshipEntry slideKey rel id p.
Proof.
  induction l as [|rel l IH]; intros rels Hl Hr; [exact Hr|].
  cbn [fold_left]. apply IH; [intros x Hx; apply Hl; now right|].
  unfold relStep.
  destruct (oprop (prop rel "$") "Id") as [i|] eqn:Ei; [|exact Hr].
  destruct (oprop (prop rel "$") "Target") as [t|] eqn:Et; [|exact Hr].
  destruct (truthy i && truthy t) eqn:E; [|exact Hr].
  apply andb_true_iff in E as [Hi Ht].
  unfold dictSet. destruct (String.eqb (toStr i) "__proto__") eqn:Ep; [exact Hr|].
  apply String.eqb_neq in Ep.
  intros id p H. apply lookup_insert_Some in H as [[<- <-]|[_ H]]; [|now apply Hr].
  exists rel. split; [apply Hl; now left|].
  exists i, t. repeat split; auto.
Qed.

(** X30. Every entry of the relationship map of a slide comes from a
    [Relationship] element of the manifest, whose identifier and target
    are not empty: the identifier, which is not [__proto__], is bound to
    the target resolved from the entry of the slide, a path without [.]
    and [..] segments.  The elements are looked for under
    [Relationships[0]]: for a manifest whose root element is an object
    and not an array around it, as the parser returns it, the map is
    empty. *)
Theorem X30_relationship_map_is_resolved (slideKey : string) :
  (forall relsDoc id zipPath,
     relsOfDoc slideKey relsDoc !! id = Some zipPath ->
     (exists rel, In rel (relationshipsOf relsDoc) /\
                  relationshipEntry slideKey rel id zipPath) /\
     Forall plainSegment (Js.split "/" zipPath)) /\
  (forall fields, assoc "0" fields = None ->
     relsOfDoc slideKey (JObj [("Relationships"%string, JObj fields)]) = ∅).
Proof.
  split; [|apply relsOfDoc_root_object].
  intros relsDoc id zipPath H.
  assert (E : exists rel, In rel (relationshipsOf relsDoc) /\
                          relationshipEntry slideKey rel id zipPath).
  { rewrite relsOfDoc_fold in H. revert id zipPath H.
    apply relStep_sound; [apply incl_refl|].
    intros id p H. now rewrite lookup_empty in H. }
  split; [exact E|].
  destruct E as (rel & _ & i & t & _ & _ & _ & _ & _ & _ & ->).
  unfold resolveZipPath.
  set (parts := Js.split "/" (_ +:+ _)).
  assert (Hn : Forall (fun seg => plainSegment seg /\ hasSlash seg = false)
                 (fold_left resolveStep parts [])).
  { apply resolveStep_normal; [apply split_segments|constructor]. }
  destruct (fold_left resolveStep parts []) as [|x l] eqn:El.
  - simpl. constructor; [split; discriminate|constructor].
  - rewrite split_join; [|discriminate|].
    + eapply List.Forall_impl; [|exact Hn]. now intros seg [Hs _].
    + eapply List.Forall_impl; [|exact Hn]. now intros seg [_ Hs].
Qed.

Lemma X30_relationship_map_is_resolved_witness :
  relsOfDoc "ppt/slides/slide1.xml" (relsDocOf "rId2" "../media/./image1.png") !! "rId2"%string
  = Some "ppt/media/image1.png"%string /\
  (exists rel, In rel (relationshipsOf (relsDocOf "rId2" "../media/./image1.png")) /\
               relationshipEntry "ppt/slides/slide1.xml" rel "rId2" "ppt/media/image1.png") /\
  relsOfDoc "ppt/slides/slide1.xml"
    (JObj [("Relationships"%string,
            JObj [("Relationship"%string,
                   JArr [JObj [("$"%string,
                                JObj [("Id"%string, JStr "rId2");
                                      ("Target"%string, JStr "../media/image1.png")])]])])])
  = ∅.
Proof.
  assert (H : relsOfDoc "ppt/slides/slide1.xml" (relsDocOf "rId2" "../media/./image1.png")
                !! "rId2"%string = Some "ppt/media/image1.png"%string)
    by (vm_compute; reflexivity).
  split; [exact H|]. split.
  - exact (proj1 (proj1 (X30_relationship_map_is_resolved "ppt/slides/slide1.xml") _ _ _ H)).
  - apply (proj2 (X30_relationship_map_is_resolved "ppt/slides/slide1.xml")). reflexivity.
Defined.
